(** * Repository-hygiene checks: a shallow embedding of the five scripts

    The repository holds five Node scripts: a sensitive-file detector, a
    file-size enforcer, a whitespace/newline fixer, a frontmatter validator
    and a consistency validator.  Each is embedded below as Rocq functions
    written after the JavaScript, with the script's mutable counters and
    console output threaded as an explicit state.

    Conventions.
    - A JavaScript string is the list of its UTF-16 code units ([jsstr]).
    - A path is the list of entry names below the scan root
      ([process.cwd()]): [path.join dir file] appends a name,
      [path.relative cwd p] joins the names with a slash.
    - Directory listing and [stat] are assumed to succeed (when they throw,
      the script aborts); reading and writing a file may fail, which the
      scripts catch. *)

From Stdlib Require Import List Arith NArith Bool Lia String Ascii QArith.
Import ListNotations.
Local Open Scope N_scope.
Local Open Scope list_scope.

Set Implicit Arguments.
Set Warnings "-register-all".

(** ** JavaScript strings *)

Module JS.

Definition jsstr := list N.

(** An ASCII literal as a JavaScript string. *)
Definition lit (s : string) : jsstr :=
  List.map N_of_ascii (list_ascii_of_string s).

Definition LF : N := 10.
Definition CR : N := 13.

Fixpoint str_eqb (a b : jsstr) : bool :=
  match a, b with
  | [], [] => true
  | x :: a', y :: b' => (x =? y) && str_eqb a' b'
  | _, _ => false
  end.

(** [Array.prototype.includes] on an array of strings. *)
Definition includes (l : list jsstr) (x : jsstr) : bool :=
  existsb (str_eqb x) l.

(** ECMAScript WhiteSpace and LineTerminator code units: what [trim],
    [trimRight] and the regular-expression class [\s] strip or match. *)
Definition isWhiteSpace (c : N) : bool :=
  (c =? 9) || (c =? 10) || (c =? 11) || (c =? 12) || (c =? 13) || (c =? 32)
  || (c =? 160) || (c =? 5760) || ((8192 <=? c) && (c <=? 8202))
  || (c =? 8232) || (c =? 8233) || (c =? 8239) || (c =? 8287)
  || (c =? 12288) || (c =? 65279).

(** ECMAScript LineTerminator code units: LF, CR, LS, PS. *)
Definition isLineTerminator (c : N) : bool :=
  (c =? 10) || (c =? 13) || (c =? 8232) || (c =? 8233).

(** [s.trimRight()] *)
Fixpoint trimRight (s : jsstr) : jsstr :=
  match s with
  | [] => []
  | c :: r =>
      match trimRight r with
      | [] => if isWhiteSpace c then [] else [c]
      | r' => c :: r'
      end
  end.

(** [s.trimLeft()] and [s.trim()] *)
Fixpoint trimLeft (s : jsstr) : jsstr :=
  match s with
  | [] => []
  | c :: r => if isWhiteSpace c then trimLeft r else s
  end.

Definition trim (s : jsstr) : jsstr := trimRight (trimLeft s).

(** [s.split(sep)] for a separator of one code unit: always at least one
    piece, the empty string splits into one empty piece. *)
Fixpoint split (sep : N) (s : jsstr) : list jsstr :=
  match s with
  | [] => [[]]
  | c :: r =>
      if c =? sep then [] :: split sep r
      else match split sep r with
           | l :: ls => (c :: l) :: ls
           | [] => [[c]]
           end
  end.

(** [lines.join(sep)] *)
Fixpoint join (sep : jsstr) (ls : list jsstr) : jsstr :=
  match ls with
  | [] => []
  | [l] => l
  | l :: rest => l ++ sep ++ join sep rest
  end.

(** [s.startsWith(p)] *)
Fixpoint startsWith (s p : jsstr) : bool :=
  match p with
  | [] => true
  | x :: p' =>
      match s with
      | y :: s' => (x =? y) && startsWith s' p'
      | [] => false
      end
  end.

(** [s.endsWith(p)] *)
Definition endsWith (s p : jsstr) : bool :=
  startsWith (rev s) (rev p).

(** [s.indexOf(p, from)], [None] for the result -1. *)
Fixpoint indexOf_at (s p : jsstr) (pos : nat) : option nat :=
  if startsWith s p then Some pos
  else match s with
       | [] => None
       | _ :: s' => indexOf_at s' p (S pos)
       end.

Definition indexOf (s p : jsstr) (from : nat) : option nat :=
  let k := Nat.min from (List.length s) in
  indexOf_at (skipn k s) p k.

(** [s.includes(p)] on strings. *)
Definition str_includes (s p : jsstr) : bool :=
  match indexOf s p 0 with Some _ => true | None => false end.

(** [s.substring(a, b)] for [a <= b]. *)
Definition substring (s : jsstr) (a b : nat) : jsstr :=
  firstn (b - a) (skipn a s).

End JS.
Import JS.

(** ** Regular expressions

    The patterns of the scripts use literals, classes, [.], [?], [*] and
    an anchor at either end only, with no capture that is read back: on
    such patterns [RegExp.prototype.test] is language membership, decided
    here with derivatives. *)

Module Regex.

Inductive re : Type :=
| Eps
| Chr (p : N -> bool)
| Cat (a b : re)
| Alt (a b : re)
| Star (a : re).

Fixpoint nullable (r : re) : bool :=
  match r with
  | Eps => true
  | Chr _ => false
  | Cat a b => nullable a && nullable b
  | Alt a b => nullable a || nullable b
  | Star _ => true
  end.

(** [deriv c r] is [None] when no word of [r] starts with [c]. *)
Fixpoint deriv (c : N) (r : re) : option re :=
  match r with
  | Eps => None
  | Chr p => if p c then Some Eps else None
  | Cat a b =>
      match deriv c a, (if nullable a then deriv c b else None) with
      | Some a', Some b' => Some (Alt (Cat a' b) b')
      | Some a', None => Some (Cat a' b)
      | None, Some b' => Some b'
      | None, None => None
      end
  | Alt a b =>
      match deriv c a, deriv c b with
      | Some a', Some b' => Some (Alt a' b')
      | Some a', None => Some a'
      | None, Some b' => Some b'
      | None, None => None
      end
  | Star a =>
      match deriv c a with
      | Some a' => Some (Cat a' (Star a))
      | None => None
      end
  end.

Fixpoint matches (r : re) (s : jsstr) : bool :=
  match s with
  | [] => nullable r
  | c :: s' =>
      match deriv c r with
      | Some r' => matches r' s'
      | None => false
      end
  end.

(** The words of an expression. *)
Inductive lang : re -> jsstr -> Prop :=
| lang_eps : lang Eps []
| lang_chr : forall (p : N -> bool) c, p c = true -> lang (Chr p) [c]
| lang_cat : forall a b s t, lang a s -> lang b t -> lang (Cat a b) (s ++ t)
| lang_alt_l : forall a b s, lang a s -> lang (Alt a b) s
| lang_alt_r : forall a b s, lang b s -> lang (Alt a b) s
| lang_star_nil : forall a, lang (Star a) []
| lang_star_cons : forall a s t,
    lang a s -> lang (Star a) t -> lang (Star a) (s ++ t).

(** A pattern: the body, whether it opens with [^], whether it closes with
    [$] (no flag [m]: the anchors are the ends of the input). *)
Record pattern : Type := Pattern {
  anchoredStart : bool;
  body : re;
  anchoredEnd : bool
}.

Definition anyUnit : re := Chr (fun _ => true).

(** [pattern.test(s)]: some substring of [s] is a word of the body, from
    the start of [s] under [^] and up to its end under [$]. *)
Definition test (p : pattern) (s : jsstr) : bool :=
  matches
    (Cat (if anchoredStart p then Eps else Star anyUnit)
       (Cat (body p) (if anchoredEnd p then Eps else Star anyUnit)))
    s.

Definition chr (c : N) : re := Chr (N.eqb c).

(** A literal code unit under the flag [i] (no flag [u]): an ASCII letter
    matches both of its cases and nothing else, since canonicalisation
    never maps a code unit above 127 to one below 128. *)
Definition chr_i (c : N) : re :=
  Chr (fun x =>
         (x =? c)
         || ((65 <=? c) && (c <=? 90) && (x =? c + 32))
         || ((97 <=? c) && (c <=? 122) && (x =? c - 32))).

Fixpoint seq_of (f : N -> re) (s : jsstr) : re :=
  match s with
  | [] => Eps
  | [c] => f c
  | c :: s' => Cat (f c) (seq_of f s')
  end.

Definition str (s : string) : re := seq_of chr (lit s).
Definition str_i (s : string) : re := seq_of chr_i (lit s).

(** [.]: any code unit but the line terminators. *)
Definition dot : re := Chr (fun c => negb (isLineTerminator c)).

(** [[...]]: a class of literal code units. *)
Definition cls (s : string) : re :=
  Chr (fun c => existsb (N.eqb c) (lit s)).

Definition opt (r : re) : re := Alt r Eps.
Definition ws : re := Chr isWhiteSpace.

Fixpoint cat (rs : list re) : re :=
  match rs with
  | [] => Eps
  | [r] => r
  | r :: rs' => Cat r (cat rs')
  end.

End Regex.

(** ** The file tree and the walker *)

Module Tree.

Definition path := list jsstr.

(** [path.relative(cwd, filePath)] *)
Definition relative (p : path) : jsstr := join (lit "/") p.

(** [path.basename(filePath)] *)
Definition basename (p : path) : jsstr := last p [].

(** The directory names on the way to the entry. *)
Definition dirnames (p : path) : list jsstr := removelast p.

(** Index of the last [.] of a name, if any. *)
Fixpoint lastDot (s : jsstr) (pos : nat) (found : option nat) : option nat :=
  match s with
  | [] => found
  | c :: r => lastDot r (S pos) (if c =? 46 then Some pos else found)
  end.

(** [path.extname] of an entry name: from the last [.] to the end; empty
    when there is no [.], when the only [.] is the first character, and for
    the name [..]. *)
Definition extname (name : jsstr) : jsstr :=
  match lastDot name 0 None with
  | None => []
  | Some O => []
  | Some i => if str_eqb name (lit "..") then [] else skipn i name
  end.

(** A directory entry, as [readdirSync] names it and [statSync] classifies
    it; [A] is what the check reads of a file. *)
Inductive entry (A : Type) : Type :=
| File (name : jsstr) (data : A)
| Dir (name : jsstr) (children : list (entry A)).

Arguments File {A} name data.
Arguments Dir {A} name children.

(** [files.forEach(...)] with the state and the entries threaded. *)
Section ForEach.
Context {X S : Type}.
Variable body : X -> S -> X * S.

Fixpoint forEach (l : list X) (s : S) : list X * S :=
  match l with
  | [] => ([], s)
  | x :: r =>
      let (x', s1) := body x s in
      let (r', s2) := forEach r s1 in
      (x' :: r', s2)
  end.
End ForEach.

(** The three [walkDir] functions differ by their exclusion list and by
    the extension test of the fixer's walker ([select]).  The callback may
    rewrite the file it is given. *)
Section Walker.
Context {A S : Type}.
Variable excluded : list jsstr.
Variable select : jsstr -> bool.
Variable callback : path -> A -> S -> A * S.

(** The body of [files.forEach] in [walkDir(dir, callback)]. *)
Fixpoint walkEntry (dir : path) (e : entry A) (s : S) {struct e}
  : entry A * S :=
  match e with
  | Dir file children =>
      if negb (includes excluded file)
      then let (children', s') :=
             forEach (walkEntry (dir ++ [file])) children s in
           (Dir file children', s')
      else (e, s)
  | File file data =>
      if select file
      then let (data', s') := callback (dir ++ [file]) data s in
           (File file data', s')
      else (e, s)
  end.

Definition walkDir (dir : path) (files : list (entry A)) (s : S)
  : list (entry A) * S :=
  forEach (walkEntry dir) files s.

(** The files handed to the callback, in order. *)
Fixpoint visitedEntry (dir : path) (e : entry A) : list (path * A) :=
  match e with
  | Dir file children =>
      if negb (includes excluded file)
      then flat_map (visitedEntry (dir ++ [file])) children
      else []
  | File file data =>
      if select file then [(dir ++ [file], data)] else []
  end.

Definition visited (dir : path) (files : list (entry A))
  : list (path * A) :=
  flat_map (visitedEntry dir) files.
End Walker.

(** The state after the callback has run on each call of a list. *)
Definition runCallbacks {A S : Type} (callback : path -> A -> S -> A * S)
    (calls : list (path * A)) (s : S) : S :=
  fold_left (fun s c => snd (callback (fst c) (snd c) s)) calls s.

(** The path lies under a directory whose name is excluded. *)
Definition underExcluded (excluded : list jsstr) (p : path) : Prop :=
  exists d, In d (dirnames p) /\ In d excluded.

(** [fileAt files p data]: the tree holds a file with data [data] at the
    path [p]. *)
Inductive fileAt {A : Type} : list (entry A) -> path -> A -> Prop :=
| fileAt_here : forall files name data,
    In (File name data) files -> fileAt files [name] data
| fileAt_below : forall files name children p data,
    In (Dir name children) files ->
    fileAt children p data ->
    fileAt files (name :: p) data.

(** A walker prunes the excluded directories: on every tree it runs the
    callback on one list of calls, whatever the callback and the state; no
    call is for a file under an excluded directory; every selected file
    that is under none is called. *)
Definition Prunes {A : Type} (excluded : list jsstr) (select : jsstr -> bool)
    (walk : forall S : Type,
        (path -> A -> S -> A * S) ->
        path -> list (entry A) -> S -> list (entry A) * S) : Prop :=
  forall files : list (entry A),
  exists calls : list (path * A),
    (forall (S : Type) (callback : path -> A -> S -> A * S) (s : S),
        snd (walk S callback [] files s) = runCallbacks callback calls s)
    /\ (forall p data, In (p, data) calls ->
                       fileAt files p data /\ ~ underExcluded excluded p)
    /\ (forall p data, fileAt files p data ->
                       ~ underExcluded excluded p ->
                       select (basename p) = true ->
                       In (p, data) calls).

(** A text file: its decoded content, and whether reading and writing it
    succeed. *)
Record file : Type := mkFile {
  content : jsstr;
  readable : bool;
  writable : bool
}.

Definition readFileSync (f : file) : option jsstr :=
  if readable f then Some (content f) else None.

Definition writeFileSync (f : file) (data : jsstr) : option file :=
  if writable f
  then Some {| content := data; readable := readable f;
               writable := writable f |}
  else None.

End Tree.
Import Tree.

(** ** The sensitive-file detector *)

Module BlockedFiles.
Import Regex.

Inductive blockedPattern : Type :=
| RegExp (p : pattern)
| Substring (s : jsstr).

Definition envFile : pattern :=
  Pattern true (Cat (str ".env") (opt (Cat (chr 46) (Star dot)))) true.

Definition BLOCKED_PATTERNS : list blockedPattern :=
  [ RegExp envFile;
    RegExp (Pattern true (str ".env.local") true);
    RegExp (Pattern true (cat [str ".env."; Star dot; str ".local"]) true);
    RegExp (Pattern false (str ".key") true);
    RegExp (Pattern false (str ".pem") true);
    RegExp (Pattern false (cat [str_i "private"; cls "-_"; str_i "key"]) false);
    RegExp (Pattern false (cat [str_i "secret"; cls "-_"; str_i "key"]) false);
    RegExp (Pattern false (str_i "credentials") false);
    RegExp (Pattern false (cat [str_i "oauth"; cls "-_"; str_i "token"]) false);
    RegExp (Pattern false (cat [str_i "api"; cls "-_"; str_i "key"]) false);
    RegExp (Pattern false (cat [str_i "auth"; cls "-_"; str_i "token"]) false);
    RegExp (Pattern false (str ".vscode/settings.json") true);
    RegExp (Pattern false (cat [str ".idea/"; Star dot; str ".xml"]) true);
    RegExp (Pattern false (cat [str ".idea/"; Star dot; str ".yml"]) true) ].

Definition EXCLUDED_DIRS : list jsstr :=
  [lit "node_modules"; lit ".git"; lit "dist"; lit "build"; lit ".next"].

Definition suspiciousPatterns : list pattern :=
  [ Pattern false
      (cat [str_i "api"; opt (cls "_-"); str_i "key"; Star ws; cls ":="])
      false;
    Pattern false (cat [str_i "secret"; Star ws; cls ":="]) false;
    Pattern false (cat [str_i "password"; Star ws; cls ":="]) false;
    Pattern false (cat [str_i "token"; Star ws; cls ":="]) false;
    Pattern false
      (cat [str_i "private"; opt (cls "_-"); str_i "key"; Star ws; cls ":="])
      false ].

(** Lines written with [console.error]. *)
Inductive line : Type :=
| Blocked (relativePath : jsstr)
| AddToGitignore
| ContainsCredentials.

Record state : Type := mkState {
  blockedCount : nat;
  log : list line
}.

Definition init : state := {| blockedCount := 0; log := [] |}.

Definition walkDir {S : Type} (callback : path -> file -> S -> file * S)
  : path -> list (entry file) -> S -> list (entry file) * S :=
  Tree.walkDir EXCLUDED_DIRS (fun _ => true) callback.

Definition isBlocked (filePath : path) : bool :=
  let relativePath := relative filePath in
  let fileName := basename filePath in
  existsb
    (fun pattern =>
       match pattern with
       | RegExp r => test r fileName || test r relativePath
       | Substring s => str_includes relativePath s
       end)
    BLOCKED_PATTERNS.

Definition callback (filePath : path) (f : file) (st : state)
  : file * state :=
  let relativePath := relative filePath in
  if isBlocked filePath then
    let st1 := {| blockedCount := S (blockedCount st);
                  log := log st ++ [Blocked relativePath; AddToGitignore] |} in
    match readFileSync f with
    | Some text =>
        let hasSuspicious :=
          existsb (fun p => test p text) suspiciousPatterns in
        if hasSuspicious
        then (f, {| blockedCount := blockedCount st1;
                    log := log st1 ++ [ContainsCredentials] |})
        else (f, st1)
    | None => (f, st1)
    end
  else (f, st).

(** The whole run from the scan root: the tree it leaves and its state. *)
Definition run (files : list (entry file)) : list (entry file) * state :=
  walkDir callback [] files init.

Definition exitCode (st : state) : nat :=
  if Nat.ltb 0 (blockedCount st) then 1%nat else 0%nat.

End BlockedFiles.

(** ** The size-limit enforcer *)

Module FileSize.

Record limits : Type := mkLimits {
  default : N;
  images : N;
  videos : N
}.

Definition SIZE_LIMITS : limits :=
  {| default := 1024 * 1024; images := 500 * 1024; videos := 0 |}.

Definition IMAGE_EXTS : list jsstr :=
  [lit ".png"; lit ".jpg"; lit ".jpeg"; lit ".gif"; lit ".svg"; lit ".webp"].

Definition VIDEO_EXTS : list jsstr :=
  [lit ".mp4"; lit ".mov"; lit ".avi"; lit ".mkv"; lit ".webm"].

Definition EXCLUDED_DIRS : list jsstr :=
  [lit "node_modules"; lit ".git"; lit "dist"; lit "build"; lit ".next";
   lit ".cache"].

(** Lines written with [console.error]; the sizes are kept in bytes, the
    script prints them in MB with two decimals. *)
Inductive line : Type :=
| VideoNotAllowed (relativePath : jsstr)
| ExceedsLimit (relativePath : jsstr) (size limit : N).

Record state : Type := mkState {
  errorCount : nat;
  log : list line
}.

Definition init : state := {| errorCount := 0; log := [] |}.

Definition report (st : state) (l : line) : state :=
  {| errorCount := S (errorCount st); log := log st ++ [l] |}.

(** The walker hands the callback the path and [stat.size]. *)
Definition walkDir {S : Type} (callback : path -> N -> S -> N * S)
  : path -> list (entry N) -> S -> list (entry N) * S :=
  Tree.walkDir EXCLUDED_DIRS (fun _ => true) callback.

Section WithToLowerCase.
(** [String.prototype.toLowerCase], the runtime's. *)
Variable toLowerCase : jsstr -> jsstr.

Definition ext (filePath : path) : jsstr :=
  toLowerCase (extname (basename filePath)).

Definition limitOf (filePath : path) : N :=
  if includes IMAGE_EXTS (ext filePath)
  then images SIZE_LIMITS
  else default SIZE_LIMITS.

Definition callback (filePath : path) (size : N) (st : state)
  : N * state :=
  let relativePath := relative filePath in
  if includes VIDEO_EXTS (ext filePath)
  then (size, report st (VideoNotAllowed relativePath))
  else
    let limit := limitOf filePath in
    if limit <? size
    then (size, report st (ExceedsLimit relativePath size limit))
    else (size, st).

Definition run (files : list (entry N)) : list (entry N) * state :=
  walkDir callback [] files init.
End WithToLowerCase.

Definition exitCode (st : state) : nat :=
  if Nat.ltb 0 (errorCount st) then 1%nat else 0%nat.

End FileSize.

(** ** The whitespace/newline fixer *)

Module FixIssues.

(** [PATTERNS.exclude] *)
Definition exclude : list jsstr :=
  [lit "node_modules"; lit ".git"; lit "dist"; lit "build"; lit ".next"].

(** The extension test of this walker: [isCode || isMarkdown || isYaml]. *)
Definition selected (file : jsstr) : bool :=
  let ext := extname file in
  let isMarkdown := str_eqb ext (lit ".md") in
  let isYaml := includes [lit ".yml"; lit ".yaml"] ext in
  let isCode :=
    includes [lit ".js"; lit ".json"; lit ".ts"; lit ".tsx"; lit ".jsx"] ext in
  isCode || isMarkdown || isYaml.

Definition walkDir {S : Type} (callback : path -> file -> S -> file * S)
  : path -> list (entry file) -> S -> list (entry file) * S :=
  Tree.walkDir exclude selected callback.

(** [lines.map(line => ...)]: the trimmed lines, and [modified] set as soon
    as trimming changes a line. *)
Fixpoint trimLines (lines : list jsstr) (modified : bool)
  : list jsstr * bool :=
  match lines with
  | [] => ([], modified)
  | line :: rest =>
      let trimmed := trimRight line in
      let modified := if negb (str_eqb trimmed line) then true else modified in
      let (fixedRest, modified') := trimLines rest modified in
      (trimmed :: fixedRest, modified')
  end.

(** The transform of the callback: the output and the flag [modified]. *)
Definition fixContent (text : jsstr) : jsstr * bool :=
  let lines := split LF text in
  let (fixedLines, modified) := trimLines lines false in
  let output := join [LF] fixedLines in
  if Nat.ltb 0 (List.length output) && negb (endsWith output [LF])
  then (output ++ [LF], true)
  else (output, modified).

Inductive line : Type :=
| Fixed (relativePath : jsstr)
| CouldNotProcess (relativePath : jsstr).

Record state : Type := mkState {
  filesFixed : nat;
  log : list line
}.

Definition init : state := {| filesFixed := 0; log := [] |}.

Definition warn (st : state) (relativePath : jsstr) : state :=
  {| filesFixed := filesFixed st;
     log := log st ++ [CouldNotProcess relativePath] |}.

(** The body of [try], with [None] for a thrown error. *)
Definition callback (filePath : path) (f : file) (st : state)
  : file * state :=
  let relativePath := relative filePath in
  match readFileSync f with
  | None => (f, warn st relativePath)
  | Some text =>
      let (output, modified) := fixContent text in
      if modified then
        match writeFileSync f output with
        | None => (f, warn st relativePath)
        | Some f' =>
            (f', {| filesFixed := S (filesFixed st);
                    log := log st ++ [Fixed relativePath] |})
        end
      else (f, st)
  end.

Definition run (files : list (entry file)) : list (entry file) * state :=
  walkDir callback [] files init.

(** Trimming changes the line: [trimmed !== line]. *)
Definition changed (l : jsstr) : bool := negb (str_eqb (trimRight l) l).

(** The test before the final newline is added:
    [output.length > 0 && !output.endsWith(LF)]. *)
Definition lacksNewline (output : jsstr) : bool :=
  Nat.ltb 0 (List.length output) && negb (endsWith output [LF]).

(** Number of line feeds that end a text. *)
Fixpoint leadingLF (s : jsstr) : nat :=
  match s with
  | c :: r => if c =? LF then S (leadingLF r) else O
  | [] => O
  end.

Definition trailingNewlines (s : jsstr) : nat := leadingLF (rev s).

(** A carriage return directly followed by a line feed. *)
Fixpoint hasCRLF (s : jsstr) : bool :=
  match s with
  | [] => false
  | c :: r =>
      match r with
      | d :: _ => ((c =? CR) && (d =? LF)) || hasCRLF r
      | [] => false
      end
  end.

End FixIssues.

(** ** JavaScript values, as [yaml.parse] returns them *)

Module Value.

(** A number: every finite double is a rational; [-0] is [Finite 0]. *)
Inductive number : Type :=
| NaN
| Infinity (negative : bool)
| Finite (q : Q).

Inductive value : Type :=
| VUndefined
| VNull
| VBoolean (b : bool)
| VNumber (n : number)
| VString (s : jsstr)
| VArray (items : list value)
| VObject (props : list (jsstr * value)).

(** What a call returns or throws. *)
Inductive result (A : Type) : Type :=
| Ok (a : A)
| Throw (message : jsstr).

Arguments Ok {A} a.
Arguments Throw {A} message.

Definition bind {A B : Type} (r : result A) (k : A -> result B) : result B :=
  match r with
  | Ok a => k a
  | Throw m => Throw m
  end.

(** [!!v] *)
Definition truthy (v : value) : bool :=
  match v with
  | VUndefined | VNull => false
  | VBoolean b => b
  | VNumber NaN => false
  | VNumber (Infinity _) => true
  | VNumber (Finite q) => negb (Qeq_bool q 0)
  | VString s => negb (str_eqb s [])
  | VArray _ | VObject _ => true
  end.

Fixpoint lookup (props : list (jsstr * value)) (key : jsstr) : value :=
  match props with
  | [] => VUndefined
  | (k, v) :: rest => if str_eqb k key then v else lookup rest key
  end.

(** [v[key]] for the keys the scripts read ([name], [description], [model],
    [location]): a [TypeError] on [null] and [undefined], the own property
    of an object, [undefined] on every other value, whose prototypes define
    none of these keys. *)
Definition getProp (v : value) (key : jsstr) : result value :=
  match v with
  | VUndefined | VNull => Throw (lit "Cannot read properties")
  | VObject props => Ok (lookup props key)
  | _ => Ok VUndefined
  end.

(** [typeof v === 'string'] *)
Definition isString (v : value) : bool :=
  match v with
  | VString _ => true
  | _ => false
  end.

(** [typeof v !== 'string' || v.trim() === ''] *)
Definition notNonEmptyString (v : value) : bool :=
  match v with
  | VString s => str_eqb (trim s) []
  | _ => true
  end.

Definition number_eqb (a b : number) : bool :=
  match a, b with
  | NaN, NaN => true
  | Infinity x, Infinity y => Bool.eqb x y
  | Finite p, Finite q => Qeq_bool p q
  | _, _ => false
  end.

(** SameValueZero, the equality of [Set.prototype.has], between a value
    and one that an earlier call of [yaml.parse] returned: primitives by
    value; an array or an object only equals itself, and two calls never
    return the same one. *)
Definition sameValueZero (a b : value) : bool :=
  match a, b with
  | VUndefined, VUndefined => true
  | VNull, VNull => true
  | VBoolean x, VBoolean y => Bool.eqb x y
  | VNumber x, VNumber y => number_eqb x y
  | VString x, VString y => str_eqb x y
  | _, _ => false
  end.

End Value.
Import Value.

(** ** The frontmatter validator *)

Module ValidateFrontmatter.

(** A metadata directory as [readdirSync] lists it: names and contents. *)
Definition listing := list (jsstr * jsstr).

(** The working directory: which of the metadata directories exist. *)
Definition world := jsstr -> option listing.

Definition dirsToCheck (w : world) : list jsstr :=
  filter (fun dir => match w dir with Some _ => true | None => false end)
    [lit "agents"; lit "skills"; lit "commands"].

Definition openDelimiter : jsstr := lit "---".
Definition closeDelimiter : jsstr := [LF] ++ lit "---" ++ [LF].

Inductive line : Type :=
| MissingStart (relativePath : jsstr)
| MissingEndDelimiter (relativePath : jsstr)
| MissingRequiredFields (relativePath : jsstr) (missing : list jsstr)
| NameNotNonEmptyString (relativePath : jsstr)
| DescriptionNotNonEmptyString (relativePath : jsstr)
| InvalidYaml (relativePath : jsstr) (message : jsstr)
| Valid (relativePath : jsstr).

Definition isError (l : line) : bool :=
  match l with
  | Valid _ => false
  | _ => true
  end.

Record state : Type := mkState {
  errorCount : nat;
  fileCount : nat;
  log : list line
}.

Definition init : state := {| errorCount := 0; fileCount := 0; log := [] |}.

(** [console.error(...); errorCount++] *)
Definition fail (st : state) (l : line) : state :=
  {| errorCount := S (errorCount st); fileCount := fileCount st;
     log := log st ++ [l] |}.

Definition pass (st : state) (l : line) : state :=
  {| errorCount := errorCount st; fileCount := fileCount st;
     log := log st ++ [l] |}.

Definition required : list jsstr := [lit "name"; lit "description"].

(** [readdirSync(dirPath).filter(f => f.endsWith('.md'))] *)
Definition markdownFiles (files : listing) : listing :=
  filter (fun f => endsWith (fst f) (lit ".md")) files.

(** The files of a run, in scanning order, each with its directory. *)
Definition scanned (w : world) : list (jsstr * (jsstr * jsstr)) :=
  flat_map
    (fun dir =>
       match w dir with
       | Some files => List.map (fun f => (dir, f)) (markdownFiles files)
       | None => []
       end)
    (dirsToCheck w).

(** [required.filter(field => !frontmatter[field])] *)
Fixpoint missingFields (frontmatter : value) (fields : list jsstr)
  : result (list jsstr) :=
  match fields with
  | [] => Ok []
  | field :: rest =>
      bind (getProp frontmatter field) (fun v =>
      bind (missingFields frontmatter rest) (fun m =>
      Ok (if negb (truthy v) then field :: m else m)))
  end.

Section WithYaml.
(** [yaml.parse], the library's. *)
Variable yaml_parse : jsstr -> result value.

(** The body of [try]: the line it prints, or what it throws. *)
Definition checkFrontmatter (relativePath frontmatterStr : jsstr)
  : result line :=
  bind (yaml_parse frontmatterStr) (fun frontmatter =>
  bind (missingFields frontmatter required) (fun missing =>
  if Nat.ltb 0 (List.length missing)
  then Ok (MissingRequiredFields relativePath missing)
  else
    bind (getProp frontmatter (lit "name")) (fun name =>
    if notNonEmptyString name
    then Ok (NameNotNonEmptyString relativePath)
    else
      bind (getProp frontmatter (lit "description")) (fun description =>
      if notNonEmptyString description
      then Ok (DescriptionNotNonEmptyString relativePath)
      else Ok (Valid relativePath))))).

(** The one line the validator prints for a file. *)
Definition verdict (relativePath text : jsstr) : line :=
  if negb (startsWith text openDelimiter)
  then MissingStart relativePath
  else
    match indexOf text closeDelimiter 4 with
    | None => MissingEndDelimiter relativePath
    | Some endDelimiter =>
        let frontmatterStr := substring text 4 endDelimiter in
        match checkFrontmatter relativePath frontmatterStr with
        | Ok l => l
        | Throw message => InvalidYaml relativePath message
        end
    end.

(** The body of [files.forEach]. *)
Definition checkFile (dir : jsstr) (f : jsstr * jsstr) (st : state)
  : state :=
  let st1 := {| errorCount := errorCount st;
                fileCount := S (fileCount st); log := log st |} in
  let relativePath := relative [dir; fst f] in
  let l := verdict relativePath (snd f) in
  if isError l then fail st1 l else pass st1 l.

Definition checkDir (w : world) (st : state) (dir : jsstr) : state :=
  match w dir with
  | Some files => fold_left (fun s f => checkFile dir f s)
                    (markdownFiles files) st
  | None => st
  end.

Definition run (w : world) : state :=
  fold_left (checkDir w) (dirsToCheck w) init.
End WithYaml.

Definition exitCode (st : state) : nat :=
  if Nat.ltb 0 (errorCount st) then 1%nat else 0%nat.

End ValidateFrontmatter.

(** ** The consistency validator *)

Module VerifyConsistency.

Definition listing := ValidateFrontmatter.listing.
Definition world := ValidateFrontmatter.world.
Definition dirsToCheck := ValidateFrontmatter.dirsToCheck.
Definition openDelimiter := ValidateFrontmatter.openDelimiter.
Definition closeDelimiter := ValidateFrontmatter.closeDelimiter.
Definition missingFields := ValidateFrontmatter.missingFields.
Definition required := ValidateFrontmatter.required.
Definition markdownFiles := ValidateFrontmatter.markdownFiles.
Definition scanned := ValidateFrontmatter.scanned.

Inductive line : Type :=
| MissingFrontmatter (relativePath : jsstr)
| InvalidFrontmatter (relativePath : jsstr)
| MissingName (relativePath : jsstr)
| DuplicateName (relativePath : jsstr) (name : value)
| MissingFields (relativePath : jsstr) (missing : list jsstr)
| ModelRecommended (relativePath : jsstr)
| LocationRecommended (relativePath : jsstr)
| Valid (relativePath : jsstr)
| Error (relativePath : jsstr) (message : jsstr).

(** [allNames] is a [Set]: the values in insertion order. *)
Record state : Type := mkState {
  errorCount : nat;
  allNames : list value;
  log : list line
}.

Definition init : state := {| errorCount := 0; allNames := []; log := [] |}.

(** [allNames.has(v)] *)
Definition has (names : list value) (v : value) : bool :=
  existsb (fun n => sameValueZero n v) names.

Definition fail (st : state) (l : line) : state :=
  {| errorCount := S (errorCount st); allNames := allNames st;
     log := log st ++ [l] |}.

Definition say (st : state) (l : line) : state :=
  {| errorCount := errorCount st; allNames := allNames st;
     log := log st ++ [l] |}.

Definition add (st : state) (v : value) : state :=
  {| errorCount := errorCount st; allNames := allNames st ++ [v];
     log := log st |}.

Definition recommend (st : state) (wanted : bool) (l : line) : state :=
  if wanted then say st l else st.

(** [isType && !frontmatter[key]], the property read only when [isType]. *)
Definition lacks (isType : bool) (frontmatter : value) (key : jsstr)
  : result bool :=
  if isType
  then bind (getProp frontmatter key) (fun v => Ok (negb (truthy v)))
  else Ok false.

Section WithYaml.
Variable yaml_parse : jsstr -> result value.

(** The body of [try]: the state it reaches, or the state at the throw
    together with the message. *)
Definition checkFrontmatter (dir relativePath frontmatterStr : jsstr)
    (st : state) : state * option jsstr :=
  match yaml_parse frontmatterStr with
  | Throw m => (st, Some m)
  | Ok frontmatter =>
      match getProp frontmatter (lit "name") with
      | Throw m => (st, Some m)
      | Ok name =>
          if negb (truthy name)
          then (fail st (MissingName relativePath), None)
          else if has (allNames st) name
          then (fail st (DuplicateName relativePath name), None)
          else
            let st1 := add st name in
            match missingFields frontmatter required with
            | Throw m => (st1, Some m)
            | Ok missing =>
                if Nat.ltb 0 (List.length missing)
                then (fail st1 (MissingFields relativePath missing), None)
                else
                  match lacks (str_eqb dir (lit "agents")) frontmatter
                          (lit "model") with
                  | Throw m => (st1, Some m)
                  | Ok noModel =>
                      let st2 :=
                        recommend st1 noModel
                          (ModelRecommended relativePath) in
                      match lacks (str_eqb dir (lit "skills")) frontmatter
                              (lit "location") with
                      | Throw m => (st2, Some m)
                      | Ok noLocation =>
                          let st3 :=
                            recommend st2 noLocation
                              (LocationRecommended relativePath) in
                          (say st3 (Valid relativePath), None)
                      end
                  end
            end
      end
  end.

(** The body of [files.forEach]. *)
Definition checkFile (dir : jsstr) (f : jsstr * jsstr) (st : state)
  : state :=
  let text := snd f in
  let relativePath := relative [dir; fst f] in
  if negb (startsWith text openDelimiter)
  then fail st (MissingFrontmatter relativePath)
  else
    match indexOf text closeDelimiter 4 with
    | None => fail st (InvalidFrontmatter relativePath)
    | Some endDelimiter =>
        let frontmatterStr := substring text 4 endDelimiter in
        match checkFrontmatter dir relativePath frontmatterStr st with
        | (st', None) => st'
        | (st', Some message) => fail st' (Error relativePath message)
        end
    end.

Definition checkDir (w : world) (st : state) (dir : jsstr) : state :=
  match w dir with
  | Some files => fold_left (fun s f => checkFile dir f s)
                    (markdownFiles files) st
  | None => st
  end.

Definition run (w : world) : state :=
  fold_left (checkDir w) (dirsToCheck w) init.

(** The [name] a file declares: the value the run looks up in
    [allNames], when the file gets that far. *)
Definition declaredName (text : jsstr) : option value :=
  if negb (startsWith text openDelimiter) then None
  else
    match indexOf text closeDelimiter 4 with
    | None => None
    | Some endDelimiter =>
        match yaml_parse (substring text 4 endDelimiter) with
        | Throw _ => None
        | Ok frontmatter =>
            match getProp frontmatter (lit "name") with
            | Ok name => if truthy name then Some name else None
            | Throw _ => None
            end
        end
    end.

End WithYaml.

End VerifyConsistency.

(** ** Sample inputs *)

Module Sample.

(** An ASCII-only [toLowerCase]. *)
Definition asciiLower (s : jsstr) : jsstr :=
  List.map (fun c => if (65 <=? c) && (c <=? 90) then c + 32 else c) s.

Fixpoint digits (s : jsstr) (acc : N) : option N :=
  match s with
  | [] => Some acc
  | c :: r =>
      if (48 <=? c) && (c <=? 57) then digits r (10 * acc + (c - 48))
      else None
  end.

(** A scalar: empty is [null], digits are a number, a pair of quotes
    (single, 39, or double, 34) is the empty string, anything else is a
    string. *)
Definition scalar (s : jsstr) : value :=
  match s with
  | [] => VNull
  | [34; 34] => VString []
  | [39; 39] => VString []
  | _ =>
      match digits s 0 with
      | Some n => VNumber (Finite (inject_Z (Z.of_N n)))
      | None => VString s
      end
  end.

(** Cut a line at its first colon. *)
Fixpoint cutAtColon (s : jsstr) : option (jsstr * jsstr) :=
  match s with
  | [] => None
  | c :: r =>
      if c =? 58 then Some ([], r)
      else match cutAtColon r with
           | Some (k, v) => Some (c :: k, v)
           | None => None
           end
  end.

Fixpoint mapping (lines : list jsstr) : result (list (jsstr * value)) :=
  match lines with
  | [] => Ok []
  | l :: rest =>
      match cutAtColon l with
      | None => Throw (lit "bad mapping entry")
      | Some (k, v) =>
          bind (mapping rest) (fun m => Ok ((k, scalar (trim v)) :: m))
      end
  end.

(** A parser for the block mappings of plain one-line scalars, on which it
    returns what [yaml.parse] returns; the empty document is [null]. *)
Definition yaml (s : jsstr) : result value :=
  match s with
  | [] => Ok VNull
  | _ => bind (mapping (split LF s)) (fun m => Ok (VObject m))
  end.

(** Text with [|] standing for a line feed. *)
Definition text (s : string) : jsstr :=
  List.map (fun c => if c =? 124 then LF else c) (lit s).

End Sample.

Module SampleFlow.

(** A flow sequence of one plain scalar, an opening bracket (91), the
    scalar, a closing bracket (93), is an array of one string. *)
Definition flow (v : value) : value :=
  match v with
  | VString (91 :: rest) =>
      match rev rest with
      | 93 :: inner => VArray [VString (rev inner)]
      | _ => v
      end
  | _ => v
  end.

(** [Sample.yaml] with such sequences as values, as [yaml.parse] reads
    them. *)
Definition yaml (s : jsstr) : result value :=
  match Sample.yaml s with
  | Ok (VObject m) => Ok (VObject (List.map (fun kv => (fst kv, flow (snd kv))) m))
  | r => r
  end.

End SampleFlow.

(** ** Measures of a run *)

Module Measure.

Definition entryName {A : Type} (e : entry A) : jsstr :=
  match e with
  | File name _ => name
  | Dir name _ => name
  end.

(** A listing never names an entry twice, at any level. *)
Inductive wellNamed {A : Type} : list (entry A) -> Prop :=
| wellNamed_intro : forall files,
    NoDup (List.map entryName files) ->
    (forall name children,
        In (Dir name children) files -> wellNamed children) ->
    wellNamed files.

(** The fixer's callback reads, changes and writes the file. *)
Definition fixes (f : file) : bool :=
  readable f && snd (FixIssues.fixContent (content f)) && writable f.

Definition isFixed (l : FixIssues.line) : bool :=
  match l with
  | FixIssues.Fixed _ => true
  | FixIssues.CouldNotProcess _ => false
  end.

(** The size callback reports the file. *)
Definition oversizeOrVideo (toLowerCase : jsstr -> jsstr) (c : path * N)
  : bool :=
  includes FileSize.VIDEO_EXTS (FileSize.ext toLowerCase (fst c))
  || (FileSize.limitOf toLowerCase (fst c) <? snd c).

(** The lines of the consistency validator printed with [console.error]. *)
Definition consistencyError (l : VerifyConsistency.line) : bool :=
  match l with
  | VerifyConsistency.ModelRecommended _
  | VerifyConsistency.LocationRecommended _
  | VerifyConsistency.Valid _ => false
  | _ => true
  end.

(** [process.exit(1)] of the consistency validator. *)
Definition consistencyExitCode (st : VerifyConsistency.state) : nat :=
  if Nat.ltb 0 (VerifyConsistency.errorCount st) then 1%nat else 0%nat.

(** The white space of a text removed. *)
Definition ink (s : jsstr) : jsstr :=
  filter (fun c => negb (isWhiteSpace c)) s.

End Measure.

(** * Properties *)

(** ** Strings *)

Section StringFacts.

Lemma str_eqb_eq (a b : jsstr) : str_eqb a b = true <-> a = b.
Proof.
revert b; induction a as [|x a IH]; intros [|y b]; simpl;
  try (split; [discriminate | congruence]); try tauto.
rewrite andb_true_iff, N.eqb_eq, IH. split.
- intros [-> ->]; reflexivity.
- intros H; injection H; auto.
Qed.

Lemma str_eqb_refl (a : jsstr) : str_eqb a a = true.
Proof. apply str_eqb_eq; reflexivity. Qed.

Lemma str_eqb_neq (a b : jsstr) : str_eqb a b = false <-> a <> b.
Proof.
rewrite <- str_eqb_eq. destruct (str_eqb a b); split; congruence.
Qed.

Lemma includes_In (l : list jsstr) (x : jsstr) :
includes l x = true <-> In x l.
Proof.
unfold includes. rewrite existsb_exists. split.
- intros (y & Hy & E). apply str_eqb_eq in E. subst; assumption.
- intros H; exists x; split; [assumption | apply str_eqb_refl].
Qed.

Lemma includes_not_In (l : list jsstr) (x : jsstr) :
includes l x = false <-> ~ In x l.
Proof.
rewrite <- includes_In. destruct (includes l x); split; congruence.
Qed.

End StringFacts.

(** ** The walker *)

Section EntryInduction.
Context {A : Type} (P : entry A -> Prop).
Hypothesis file_case : forall name data, P (File name data).
Hypothesis dir_case :
  forall name children, Forall P children -> P (Dir name children).

Lemma entry_induction : forall e, P e.
Proof.
  fix IH 1. intros [name data | name children].
  - apply file_case.
  - apply dir_case. induction children as [|c cs IHcs].
    + constructor.
    + constructor; [apply IH | apply IHcs].
Qed.
End EntryInduction.

Section WalkerFacts.
Context {A S : Type}.
Variable excluded : list jsstr.
Variable select : jsstr -> bool.
Variable callback : path -> A -> S -> A * S.

Let step := fun (s : S) (c : path * A) =>
              snd (callback (fst c) (snd c) s).

Lemma forEach_state (body : entry A -> S -> entry A * S)
    (calls : entry A -> list (path * A)) (l : list (entry A)) :
  Forall (fun e => forall s, snd (body e s) = fold_left step (calls e) s) l ->
  forall s, snd (forEach body l s) = fold_left step (flat_map calls l) s.
Proof.
  induction 1 as [|e l He _ IH]; intros s; simpl.
  - reflexivity.
  - specialize (He s). destruct (body e s) as [e' s1]. simpl in He.
    specialize (IH s1). destruct (forEach body l s1) as [l' s2].
    simpl in *. rewrite fold_left_app, <- He. exact IH.
Qed.

Lemma walkEntry_state (e : entry A) :
  forall dir s,
    snd (walkEntry excluded select callback dir e s)
    = fold_left step (visitedEntry excluded select dir e) s.
Proof.
  induction e as [name data | name children IH] using entry_induction;
    intros dir s; simpl.
  - destruct (select name); simpl; [|reflexivity].
    unfold step at 1. simpl.
    destruct (callback (dir ++ [name]) data s); reflexivity.
  - destruct (includes excluded name); simpl; [reflexivity|].
    pose proof (forEach_state
                  (walkEntry excluded select callback (dir ++ [name]))
                  (visitedEntry excluded select (dir ++ [name]))
                  (l := children)) as H.
    rewrite <- H.
    + destruct (forEach _ children s); reflexivity.
    + eapply Forall_impl; [|exact IH]. intros e He s'. apply He.
Qed.

(** The callback runs on the visited files, in order, and on nothing
    else. *)
Lemma walkDir_state (dir : path) (files : list (entry A)) (s : S) :
  snd (walkDir excluded select callback dir files s)
  = runCallbacks callback (visited excluded select dir files) s.
Proof.
  unfold walkDir, visited, runCallbacks. apply forEach_state.
  apply Forall_forall. intros e _ s'. apply walkEntry_state.
Qed.
End WalkerFacts.

Section VisitedFacts.
Context {A : Type}.
Variable excluded : list jsstr.
Variable select : jsstr -> bool.

Lemma fileAt_nonempty (files : list (entry A)) (p : path) (data : A) :
  fileAt files p data -> p <> [].
Proof. destruct 1; discriminate. Qed.

Lemma fileAt_incl (files files' : list (entry A)) (p : path) (data : A) :
  fileAt files p data -> incl files files' -> fileAt files' p data.
Proof.
  intros H Hincl. destruct H.
  - apply fileAt_here. auto.
  - eapply fileAt_below; eauto.
Qed.

Lemma dirnames_cons (name : jsstr) (p : path) :
  p <> [] -> dirnames (name :: p) = name :: dirnames p.
Proof. destruct p; [congruence | reflexivity]. Qed.

Lemma basename_cons (name : jsstr) (p : path) :
  p <> [] -> basename (name :: p) = basename p.
Proof. destruct p; [congruence | reflexivity]. Qed.

Lemma visitedEntry_sound (e : entry A) :
  forall dir p data,
    In (p, data) (visitedEntry excluded select dir e) ->
    exists q, p = dir ++ q /\ fileAt [e] q data
              /\ (forall d, In d (dirnames q) -> ~ In d excluded)
              /\ select (basename q) = true.
Proof.
  induction e as [name a | name children IH] using entry_induction;
    intros dir p data; simpl.
  - destruct (select name) eqn:Hsel; simpl; [|tauto].
    intros [E | []]. injection E as <- <-.
    exists [name]. split; [reflexivity|]. split; [|split].
    + apply fileAt_here. left; reflexivity.
    + intros d [].
    + exact Hsel.
  - destruct (includes excluded name) eqn:Hex; simpl; [tauto|].
    rewrite in_flat_map. intros (c & Hc & Hin).
    rewrite Forall_forall in IH.
    destruct (IH c Hc _ _ _ Hin) as (q & -> & Hat & Hclean & Hsel).
    pose proof (fileAt_nonempty Hat) as Hq.
    exists (name :: q). repeat split.
    + rewrite <- app_assoc. reflexivity.
    + apply fileAt_below with (children := children).
      * left; reflexivity.
      * apply fileAt_incl with (files := [c]); [assumption|].
        intros x [<- | []]. assumption.
    + rewrite dirnames_cons by assumption. intros d [<- | Hd].
      * apply includes_not_In. assumption.
      * apply Hclean. assumption.
    + rewrite basename_cons by assumption. assumption.
Qed.

Lemma visited_complete (files : list (entry A)) (q : path) (data : A) :
  fileAt files q data ->
  (forall d, In d (dirnames q) -> ~ In d excluded) ->
  select (basename q) = true ->
  forall dir, In (dir ++ q, data) (visited excluded select dir files).
Proof.
  induction 1 as [files name data Hin | files name children p data Hin Hat IH];
    intros Hclean Hsel dir; unfold visited; rewrite in_flat_map.
  - exists (File name data). split; [assumption|]. simpl.
    change (basename [name]) with name in Hsel.
    rewrite Hsel. left; reflexivity.
  - pose proof (fileAt_nonempty Hat) as Hp.
    rewrite dirnames_cons in Hclean by assumption.
    rewrite basename_cons in Hsel by assumption.
    exists (Dir name children). split; [assumption|]. simpl.
    assert (includes excluded name = false) as ->.
    { apply includes_not_In. apply Hclean. left; reflexivity. }
    simpl. replace (dir ++ name :: p) with ((dir ++ [name]) ++ p)
      by (rewrite <- app_assoc; reflexivity).
    apply IH; [|assumption].
    intros d Hd. apply Hclean. right; assumption.
Qed.

(** A file is handed to the callback exactly when it is selected and no
    directory on its path is excluded. *)
Lemma visited_iff (files : list (entry A)) (p : path) (data : A) :
  In (p, data) (visited excluded select [] files) <->
  fileAt files p data
  /\ (forall d, In d (dirnames p) -> ~ In d excluded)
  /\ select (basename p) = true.
Proof.
  split.
  - unfold visited. rewrite in_flat_map. intros (e & He & Hin).
    destruct (visitedEntry_sound _ _ _ _ Hin) as (q & -> & Hat & H1 & H2).
    simpl. repeat split; auto.
    apply fileAt_incl with (files := [e]); [assumption|].
    intros x [<- | []]. assumption.
  - intros (Hat & Hclean & Hsel).
    apply (visited_complete Hat Hclean Hsel []).
Qed.

Lemma not_visited_under_excluded (files : list (entry A)) (p : path)
    (data : A) :
  underExcluded excluded p ->
  ~ In (p, data) (visited excluded select [] files).
Proof.
  intros (d & Hd & Hex) Hin. apply visited_iff in Hin.
  destruct Hin as (_ & Hclean & _). exact (Hclean d Hd Hex).
Qed.
End VisitedFacts.

Section PreservingCallbacks.
Context {A S : Type}.
Variable excluded : list jsstr.
Variable select : jsstr -> bool.
Variable callback : path -> A -> S -> A * S.
Hypothesis callback_reads : forall p data s, fst (callback p data s) = data.

Lemma forEach_unchanged (body : entry A -> S -> entry A * S)
    (l : list (entry A)) :
  Forall (fun e => forall s, fst (body e s) = e) l ->
  forall s, fst (forEach body l s) = l.
Proof.
  induction 1 as [|e l He _ IH]; intros s; simpl.
  - reflexivity.
  - specialize (He s). destruct (body e s) as [e' s1]. simpl in He.
    specialize (IH s1). destruct (forEach body l s1) as [l' s2].
    simpl in *. congruence.
Qed.

Lemma walkEntry_unchanged (e : entry A) :
  forall dir s, fst (walkEntry excluded select callback dir e s) = e.
Proof.
  induction e as [name data | name children IH] using entry_induction;
    intros dir s; simpl.
  - destruct (select name); [|reflexivity].
    pose proof (callback_reads (dir ++ [name]) data s) as H.
    destruct (callback (dir ++ [name]) data s); simpl in *. congruence.
  - destruct (includes excluded name); simpl; [reflexivity|].
    pose proof (forEach_unchanged
                  (walkEntry excluded select callback (dir ++ [name]))
                  (l := children)) as H.
    specialize (H ltac:(eapply Forall_impl; [|exact IH];
                        intros e He s'; apply He) s).
    destruct (forEach _ children s); simpl in *. congruence.
Qed.

(** A callback that only reads leaves the tree as it was. *)
Lemma walkDir_unchanged (dir : path) (files : list (entry A)) (s : S) :
  fst (walkDir excluded select callback dir files s) = files.
Proof.
  unfold walkDir. apply forEach_unchanged.
  apply Forall_forall. intros e _ s'. apply walkEntry_unchanged.
Qed.
End PreservingCallbacks.

Lemma walkDir_prunes {A : Type} (excluded : list jsstr)
    (select : jsstr -> bool) :
  Prunes excluded select
    (fun S callback => Tree.walkDir (A := A) excluded select callback).
Proof.
  intros files. exists (visited excluded select [] files).
  split; [|split].
  - intros S callback s. apply walkDir_state.
  - intros p data Hin. apply visited_iff in Hin.
    destruct Hin as (Hat & Hclean & _). split; [assumption|].
    intros (d & Hd & Hex). exact (Hclean d Hd Hex).
  - intros p data Hat Hclean Hsel. apply visited_iff.
    split; [assumption|]. split; [|assumption].
    intros d Hd Hex. apply Hclean. exists d; split; assumption.
Qed.

Section ReportFacts.
Context {A S L : Type}.
Variable excluded : list jsstr.
Variable select : jsstr -> bool.
Variable callback : path -> A -> S -> A * S.
Variable log : S -> list L.
Variable init : S.

(** The callback only adds lines, the same from any state. *)
Hypothesis callback_appends :
  forall p data s,
    log (snd (callback p data s))
    = log s ++ log (snd (callback p data init)).
Hypothesis log_init : log init = [].

Lemma runCallbacks_log (calls : list (path * A)) :
  forall s,
    log (runCallbacks callback calls s)
    = log s
      ++ flat_map (fun c => log (snd (callback (fst c) (snd c) init))) calls.
Proof.
  unfold runCallbacks.
  induction calls as [|c calls IH]; intros s; simpl.
  - rewrite app_nil_r. reflexivity.
  - rewrite IH, callback_appends, <- app_assoc. reflexivity.
Qed.

(** Every line of a walk is a line of the callback on a file that lies
    under no excluded directory. *)
Lemma walkDir_reports_visited (files : list (entry A)) (l : L) :
  In l (log (snd (walkDir excluded select callback [] files init))) ->
  exists p data,
    In l (log (snd (callback p data init)))
    /\ fileAt files p data
    /\ ~ underExcluded excluded p.
Proof.
  rewrite walkDir_state, runCallbacks_log, log_init. simpl.
  rewrite in_flat_map. intros ([p data] & Hin & Hl).
  exists p, data. split; [assumption|].
  apply visited_iff in Hin. destruct Hin as (Hat & Hclean & _).
  split; [assumption|]. intros (d & Hd & Hex). exact (Hclean d Hd Hex).
Qed.
End ReportFacts.

Section ScriptReports.

Lemma blocked_callback_appends (p : path) (f : file)
    (st : BlockedFiles.state) :
  BlockedFiles.log (snd (BlockedFiles.callback p f st))
  = BlockedFiles.log st
    ++ BlockedFiles.log (snd (BlockedFiles.callback p f BlockedFiles.init)).
Proof.
  unfold BlockedFiles.callback.
  destruct (BlockedFiles.isBlocked p); [|simpl; rewrite app_nil_r; reflexivity].
  destruct (readFileSync f); [|reflexivity].
  destruct (existsb _ BlockedFiles.suspiciousPatterns); simpl;
    rewrite <- ?app_assoc; reflexivity.
Qed.

Lemma size_callback_appends (toLowerCase : jsstr -> jsstr) (p : path)
    (size : N) (st : FileSize.state) :
  FileSize.log (snd (FileSize.callback toLowerCase p size st))
  = FileSize.log st
    ++ FileSize.log (snd (FileSize.callback toLowerCase p size FileSize.init)).
Proof.
  unfold FileSize.callback.
  destruct (includes FileSize.VIDEO_EXTS _); [reflexivity|].
  destruct (_ <? size); simpl; [reflexivity|].
  rewrite app_nil_r. reflexivity.
Qed.

Lemma fix_callback_appends (p : path) (f : file) (st : FixIssues.state) :
  FixIssues.log (snd (FixIssues.callback p f st))
  = FixIssues.log st
    ++ FixIssues.log (snd (FixIssues.callback p f FixIssues.init)).
Proof.
  unfold FixIssues.callback.
  destruct (readFileSync f); [|reflexivity].
  destruct (FixIssues.fixContent j) as [output modified].
  destruct modified; [|simpl; rewrite app_nil_r; reflexivity].
  destruct (writeFileSync f output); reflexivity.
Qed.

End ScriptReports.

(** ** C1: excluded directories are pruned *)

(** C1.  In each of the three walks (sensitive-file detector, size-limit
    enforcer, whitespace fixer) the callback runs on one list of files,
    whatever it does; no file of that list lies under a directory whose
    name is in the walk's exclusion list, at any depth; every file the
    walk selects that lies under no such directory is in the list.  Every
    line a run prints is a line its callback prints on a file that lies
    under no excluded directory. *)
Theorem excluded_subtrees_pruned :
  Prunes BlockedFiles.EXCLUDED_DIRS (fun _ => true)
    (fun S callback => BlockedFiles.walkDir callback)
  /\ Prunes FileSize.EXCLUDED_DIRS (fun _ => true)
       (fun S callback => FileSize.walkDir callback)
  /\ Prunes FixIssues.exclude FixIssues.selected
       (fun S callback => FixIssues.walkDir callback)
  /\ (forall files l,
         In l (BlockedFiles.log (snd (BlockedFiles.run files))) ->
         exists p f,
           In l (BlockedFiles.log
                   (snd (BlockedFiles.callback p f BlockedFiles.init)))
           /\ fileAt files p f
           /\ ~ underExcluded BlockedFiles.EXCLUDED_DIRS p)
  /\ (forall toLowerCase files l,
         In l (FileSize.log (snd (FileSize.run toLowerCase files))) ->
         exists p size,
           In l (FileSize.log
                   (snd (FileSize.callback toLowerCase p size FileSize.init)))
           /\ fileAt files p size
           /\ ~ underExcluded FileSize.EXCLUDED_DIRS p)
  /\ (forall files l,
         In l (FixIssues.log (snd (FixIssues.run files))) ->
         exists p f,
           In l (FixIssues.log
                   (snd (FixIssues.callback p f FixIssues.init)))
           /\ fileAt files p f
           /\ ~ underExcluded FixIssues.exclude p).
Proof.
  repeat split; try apply walkDir_prunes.
  - intros files l. unfold BlockedFiles.run, BlockedFiles.walkDir.
    apply walkDir_reports_visited;
      [apply blocked_callback_appends | reflexivity].
  - intros toLowerCase files l. unfold FileSize.run, FileSize.walkDir.
    apply walkDir_reports_visited;
      [apply size_callback_appends | reflexivity].
  - intros files l. unfold FixIssues.run, FixIssues.walkDir.
    apply walkDir_reports_visited;
      [apply fix_callback_appends | reflexivity].
Qed.

(** ** Regular expressions: the matcher decides the language *)

Section RegexFacts.
Import Regex.

Lemma nullable_lang (r : re) : nullable r = true <-> lang r [].
Proof.
  split.
  - induction r; simpl; intros H; try discriminate.
    + constructor.
    + apply andb_true_iff in H. destruct H.
      change (@nil N) with (@nil N ++ []). constructor; auto.
    + apply orb_true_iff in H. destruct H;
        [apply lang_alt_l | apply lang_alt_r]; auto.
    + constructor.
  - intros H. remember (@nil N) as w eqn:Hw.
    induction H; simpl; try reflexivity; try discriminate.
    + apply app_eq_nil in Hw. destruct Hw.
      rewrite IHlang1, IHlang2 by assumption. reflexivity.
    + rewrite IHlang by assumption. reflexivity.
    + rewrite IHlang by assumption. apply orb_true_r.
Qed.

Lemma deriv_complete (r : re) (w : jsstr) :
  lang r w ->
  forall c s, w = c :: s -> exists r', deriv c r = Some r' /\ lang r' s.
Proof.
  induction 1 as [| p x Hp | a b s1 t Ha IHa Hb IHb | a b s0 Ha IHa
                  | a b s0 Hb IHb | a | a s1 t Ha IHa Hs IHs];
    intros c s Hw; try discriminate.
  - injection Hw as -> <-. exists Eps. simpl. rewrite Hp.
    split; [reflexivity | constructor].
  - destruct s1 as [|x s1'].
    + simpl in Hw. destruct (IHb c s Hw) as (b' & Hdb & Hlb).
      apply nullable_lang in Ha. simpl. rewrite Ha, Hdb.
      destruct (deriv c a) as [a'|].
      * exists (Alt (Cat a' b) b'). split; [reflexivity|].
        apply lang_alt_r. assumption.
      * exists b'. split; [reflexivity | assumption].
    + simpl in Hw. injection Hw as -> <-.
      destruct (IHa c s1' eq_refl) as (a' & Hda & Hla).
      simpl. rewrite Hda.
      destruct (if nullable a then deriv c b else None) as [b'|].
      * exists (Alt (Cat a' b) b'). split; [reflexivity|].
        apply lang_alt_l. constructor; assumption.
      * exists (Cat a' b). split; [reflexivity|]. constructor; assumption.
  - destruct (IHa c s Hw) as (a' & Hda & Hla). simpl. rewrite Hda.
    destruct (deriv c b) as [b'|].
    + exists (Alt a' b'). split; [reflexivity|]. apply lang_alt_l. assumption.
    + exists a'. split; [reflexivity | assumption].
  - destruct (IHb c s Hw) as (b' & Hdb & Hlb). simpl. rewrite Hdb.
    destruct (deriv c a) as [a'|].
    + exists (Alt a' b'). split; [reflexivity|]. apply lang_alt_r. assumption.
    + exists b'. split; [reflexivity | assumption].
  - destruct s1 as [|x s1'].
    + simpl in Hw. apply IHs. assumption.
    + simpl in Hw. injection Hw as -> <-.
      destruct (IHa c s1' eq_refl) as (a' & Hda & Hla).
      exists (Cat a' (Star a)). simpl. rewrite Hda.
      split; [reflexivity|]. constructor; assumption.
Qed.

Lemma deriv_sound (r : re) :
  forall c r' s, deriv c r = Some r' -> lang r' s -> lang r (c :: s).
Proof.
  induction r as [| p | a IHa b IHb | a IHa b IHb | a IHa];
    intros c r' s Hd Hl; simpl in Hd.
  - discriminate.
  - destruct (p c) eqn:Hp; [|discriminate]. injection Hd as <-.
    inversion Hl; subst. constructor. assumption.
  - assert (Hleft : forall a' u, deriv c a = Some a' ->
                                 lang (Cat a' b) u -> lang (Cat a b) (c :: u)).
    { intros a' u Ha Hu. inversion Hu; subst.
      change (c :: s0 ++ t) with ((c :: s0) ++ t).
      constructor; [eapply IHa; eassumption | assumption]. }
    assert (Hright : forall b' u,
               (if nullable a then deriv c b else None) = Some b' ->
               lang b' u -> lang (Cat a b) (c :: u)).
    { intros b' u Hb Hu. destruct (nullable a) eqn:Hn; [|discriminate].
      change (c :: u) with ([] ++ c :: u).
      constructor; [apply nullable_lang; assumption|].
      eapply IHb; eassumption. }
    destruct (deriv c a) as [a'|];
      destruct (if nullable a then deriv c b else None) as [b'|];
      try discriminate; injection Hd as <-.
    + inversion Hl; subst; [eapply Hleft | eapply Hright]; eauto.
    + eapply Hleft; eauto.
    + eapply Hright; eauto.
  - destruct (deriv c a) as [a'|] eqn:Hda;
      destruct (deriv c b) as [b'|] eqn:Hdb;
      try discriminate; injection Hd as <-.
    + inversion Hl; subst;
        [apply lang_alt_l; eapply IHa | apply lang_alt_r; eapply IHb]; eauto.
    + apply lang_alt_l. eapply IHa; eauto.
    + apply lang_alt_r. eapply IHb; eauto.
  - destruct (deriv c a) as [a'|] eqn:Hda; [|discriminate].
    injection Hd as <-.
    inversion Hl; subst. change (c :: s0 ++ t) with ((c :: s0) ++ t).
    constructor; [eapply IHa; eauto | assumption].
Qed.

(** The matcher accepts exactly the words of the expression. *)
Lemma matches_lang (s : jsstr) : forall r, matches r s = true <-> lang r s.
Proof.
  induction s as [|c s IH]; intros r; simpl.
  - apply nullable_lang.
  - split.
    + destruct (deriv c r) as [r'|] eqn:Hd; [|discriminate].
      intros H. eapply deriv_sound; [eassumption|]. apply IH. assumption.
    + intros H. destruct (deriv_complete H eq_refl) as (r' & Hd & Hl).
      rewrite Hd. apply IH. assumption.
Qed.

Lemma lang_any (s : jsstr) : lang (Star anyUnit) s.
Proof.
  induction s as [|c s IH]; [constructor|].
  change (c :: s) with ([c] ++ s). constructor; [|assumption].
  constructor. reflexivity.
Qed.

Lemma lang_anchor (anchored : bool) (s : jsstr) :
  lang (if anchored then Eps else Star anyUnit) s
  <-> (anchored = true -> s = []).
Proof.
  destruct anchored.
  - split; [intros H _; inversion H; reflexivity|].
    intros H. rewrite (H eq_refl). constructor.
  - split; [discriminate | intros _; apply lang_any].
Qed.

(** [test]: some substring is a word of the body, at the start of the
    input under [^], up to its end under [$]. *)
Lemma test_iff (p : pattern) (s : jsstr) :
  test p s = true <->
  exists pre mid post,
    s = pre ++ mid ++ post /\ lang (body p) mid
    /\ (anchoredStart p = true -> pre = [])
    /\ (anchoredEnd p = true -> post = []).
Proof.
  unfold test. rewrite matches_lang. split.
  - intros H. inversion H as [| |? ? pre rest Hpre Hrest| | | |]; subst.
    inversion Hrest as [| |? ? mid post Hmid Hpost| | | |]; subst.
    exists pre, mid, post. repeat split; try assumption.
    + apply lang_anchor. assumption.
    + apply lang_anchor. assumption.
  - intros (pre & mid & post & -> & Hmid & Hpre & Hpost).
    constructor; [apply lang_anchor; assumption|].
    constructor; [assumption | apply lang_anchor; assumption].
Qed.

Lemma lang_literal (w s : jsstr) : lang (seq_of chr w) s <-> s = w.
Proof.
  revert s. induction w as [|c w IH]; intros s.
  - simpl. split; [intros H; inversion H; reflexivity|].
    intros ->. constructor.
  - assert (Hc : forall u, lang (chr c) u <-> u = [c]).
    { intros u. split.
      - intros H. inversion H; subst.
        match goal with E : (c =? _) = true |- _ => apply N.eqb_eq in E end.
        subst. reflexivity.
      - intros ->. constructor. apply N.eqb_refl. }
    destruct w as [|d w].
    + apply Hc.
    + change (seq_of chr (c :: d :: w))
        with (Cat (chr c) (seq_of chr (d :: w))).
      split.
      * intros H. inversion H as [| |? ? u v Hu Hv| | | |]; subst.
        apply Hc in Hu. apply (proj1 (IH v)) in Hv. subst. reflexivity.
      * intros ->. change (c :: d :: w) with ([c] ++ d :: w).
        constructor; [apply Hc | apply IH]; reflexivity.
Qed.

Lemma lang_star_chr (p : N -> bool) (s : jsstr) :
  lang (Star (Chr p)) s <-> forallb p s = true.
Proof.
  split.
  - intros H. remember (Star (Chr p)) as r eqn:Hr.
    induction H; try discriminate; [reflexivity|].
    injection Hr as ->. inversion H; subst. simpl.
    match goal with E : p _ = true |- _ => rewrite E end.
    apply IHlang2. reflexivity.
  - induction s as [|c s IH]; simpl; [constructor|].
    intros H. apply andb_true_iff in H. destruct H as [Hc Hs].
    change (c :: s) with ([c] ++ s).
    constructor; [constructor; assumption | apply IH; assumption].
Qed.

(** The dotenv pattern matches the name [.env] and the names that start
    with [.env.] and have no line terminator after it. *)
Lemma envFile_test_iff (name : jsstr) :
  test BlockedFiles.envFile name = true <->
  name = lit ".env"
  \/ exists rest,
      name = lit ".env." ++ rest
      /\ forallb (fun c => negb (isLineTerminator c)) rest = true.
Proof.
  rewrite test_iff. unfold BlockedFiles.envFile. simpl. split.
  - intros (pre & mid & post & -> & Hmid & Hpre & Hpost).
    rewrite (Hpre eq_refl), (Hpost eq_refl), app_nil_r. simpl.
    inversion Hmid as [| |? ? s t Hs Ht| | | |]; subst.
    apply (lang_literal (lit ".env")) in Hs. subst s.
    inversion Ht as [| | |? ? ? Hopt|? ? ? Hopt| |]; subst.
    + right. inversion Hopt as [| |? ? u v Hu Hv| | | |]; subst.
      inversion Hu; subst.
      match goal with E : (46 =? _) = true |- _ => apply N.eqb_eq in E end.
      subst. exists v. split; [reflexivity|].
      apply lang_star_chr. assumption.
    + inversion Hopt; subst. left. reflexivity.
  - intros [-> | (rest & -> & Hrest)].
    + exists [], (lit ".env"), [].
      split; [reflexivity|]. split; [|split; reflexivity].
      change (lit ".env") with (lit ".env" ++ []).
      constructor; [apply (lang_literal (lit ".env")); reflexivity|].
      apply lang_alt_r. constructor.
    + exists [], (lit ".env." ++ rest), [].
      split; [rewrite app_nil_r; reflexivity|].
      split; [|split; reflexivity].
      change (lit ".env." ++ rest) with (lit ".env" ++ ([46] ++ rest)).
      constructor; [apply (lang_literal (lit ".env")); reflexivity|].
      apply lang_alt_l. constructor.
      * constructor. reflexivity.
      * apply lang_star_chr. assumption.
Qed.

End RegexFacts.

(** ** The sensitive-file detector *)

Section BlockedFilesFacts.
Import BlockedFiles.

Lemma blocked_callback_reads (p : path) (f : file) (st : state) :
  fst (callback p f st) = f.
Proof.
  unfold callback. destruct (isBlocked p); [|reflexivity].
  destruct (readFileSync f); [|reflexivity].
  destruct (existsb _ suspiciousPatterns); reflexivity.
Qed.

Lemma blocked_run_unchanged (files : list (entry file)) :
  fst (run files) = files.
Proof.
  unfold run, walkDir. apply walkDir_unchanged.
  intros p data s. apply blocked_callback_reads.
Qed.

Lemma blocked_run_calls (files : list (entry file)) :
  snd (run files)
  = runCallbacks callback
      (visited EXCLUDED_DIRS (fun _ => true) [] files) init.
Proof. unfold run, walkDir. apply walkDir_state. Qed.

Lemma envFile_isBlocked (p : path) :
  Regex.test envFile (basename p) = true -> isBlocked p = true.
Proof.
  intros H. unfold isBlocked, BLOCKED_PATTERNS.
  cbn [existsb]. rewrite H. reflexivity.
Qed.

End BlockedFilesFacts.

(** C9.  The detector leaves the tree as it found it, and what
    it counts and prints is what its callback does on the scanned files,
    in order.  On a scanned file whose base name matches [envFile] (the
    name [.env], or [.env.] and any run of characters of one line) the
    callback adds exactly one to the blocked
    counter and prints exactly one BLOCKED line for the file, followed by
    the advice line and at most the credentials warning, however many
    patterns the name matches; the file it returns is the file it got. *)
Theorem env_file_blocked_once :
  forall files : list (entry file),
    BlockedFiles.run files
    = (files,
       runCallbacks BlockedFiles.callback
         (visited BlockedFiles.EXCLUDED_DIRS (fun _ => true) [] files)
         BlockedFiles.init)
    /\ forall p f st,
        In (p, f) (visited BlockedFiles.EXCLUDED_DIRS (fun _ => true) []
                     files) ->
        Regex.test BlockedFiles.envFile (basename p) = true ->
        exists extra,
          BlockedFiles.callback p f st
          = (f, {| BlockedFiles.blockedCount :=
                     S (BlockedFiles.blockedCount st);
                   BlockedFiles.log :=
                     BlockedFiles.log st
                     ++ BlockedFiles.Blocked (relative p)
                        :: BlockedFiles.AddToGitignore :: extra |})
          /\ (extra = [] \/ extra = [BlockedFiles.ContainsCredentials]).
Proof.
  intros files. split.
  - rewrite (surjective_pairing (BlockedFiles.run files)).
    rewrite blocked_run_unchanged, blocked_run_calls. reflexivity.
  - intros p f st _ Henv. unfold BlockedFiles.callback.
    rewrite (envFile_isBlocked p Henv).
    destruct (readFileSync f) as [text|].
    + destruct (existsb _ BlockedFiles.suspiciousPatterns).
      * exists [BlockedFiles.ContainsCredentials]. split; [|auto].
        simpl. rewrite <- app_assoc. reflexivity.
      * exists []. split; [reflexivity | auto].
    + exists []. split; [reflexivity | auto].
Qed.

(** Witness for C9: [src/.env.production], readable, holding a token. *)
Lemma env_file_blocked_once_witness :
  let f := mkFile (lit "token = 42") true true in
  let p := [lit "src"; lit ".env.production"] in
  let files := [Dir (lit "src") [File (lit ".env.production") f]] in
  exists extra,
    BlockedFiles.callback p f BlockedFiles.init
    = (f, {| BlockedFiles.blockedCount := 1;
             BlockedFiles.log :=
               BlockedFiles.Blocked (relative p)
               :: BlockedFiles.AddToGitignore :: extra |})
    /\ (extra = [] \/ extra = [BlockedFiles.ContainsCredentials]).
Proof.
  intros f p files.
  apply (proj2 (env_file_blocked_once files) p f BlockedFiles.init).
  - vm_compute. left; reflexivity.
  - vm_compute. reflexivity.
Defined.

(** ** The size-limit enforcer *)

Section FileSizeFacts.
Import FileSize.
Variable toLowerCase : jsstr -> jsstr.

Lemma size_run_calls (files : list (entry N)) :
  snd (run toLowerCase files)
  = runCallbacks (callback toLowerCase)
      (visited EXCLUDED_DIRS (fun _ => true) [] files) init.
Proof. unfold run, walkDir. apply walkDir_state. Qed.

(** A line of the run comes from the callback on a scanned file. *)
Lemma size_reported_iff (files : list (entry N)) (l : line) :
  In l (log (snd (run toLowerCase files))) <->
  exists p size,
    In (p, size) (visited EXCLUDED_DIRS (fun _ => true) [] files)
    /\ In l (log (snd (callback toLowerCase p size init))).
Proof.
  rewrite size_run_calls.
  rewrite (@runCallbacks_log _ _ _ (callback toLowerCase) log init
             (size_callback_appends toLowerCase)).
  simpl. rewrite in_flat_map. split.
  - intros ([p size] & Hin & Hl). exists p, size. split; assumption.
  - intros (p & size & Hin & Hl). exists (p, size). split; assumption.
Qed.

Lemma exceeds_line_sound (p : path) (size : N) (rel : jsstr)
    (size' limit : N) :
  In (ExceedsLimit rel size' limit)
    (log (snd (callback toLowerCase p size init))) ->
  limit < size'.
Proof.
  unfold callback. destruct (includes VIDEO_EXTS _); simpl.
  - intros [H | []]. discriminate.
  - destruct (_ <? size) eqn:Hlt; simpl.
    + intros [H | []]. injection H as _ <- <-.
      apply N.ltb_lt. assumption.
    + intros [].
Qed.

End FileSizeFacts.

(** C2.  For every file the size-limit enforcer scans whose extension,
    lower-cased, is not a video extension, the limit is 512000 bytes (500
    KiB) for an image extension and 1048576 bytes (1 MiB) otherwise; the
    callback reports the file, adding one to the error counter and one
    line holding the size and the limit, when the size is strictly greater
    than the limit, and does nothing otherwise; the run has that line if
    and only if the size is strictly greater than the limit. *)
Theorem size_violation_iff_over_limit :
  forall (toLowerCase : jsstr -> jsstr) (files : list (entry N))
         (p : path) (size : N),
    In (p, size) (visited FileSize.EXCLUDED_DIRS (fun _ => true) [] files) ->
    includes FileSize.VIDEO_EXTS (FileSize.ext toLowerCase p) = false ->
    let limit :=
      if includes FileSize.IMAGE_EXTS (FileSize.ext toLowerCase p)
      then 512000 else 1048576 in
    let violation := FileSize.ExceedsLimit (relative p) size limit in
    (forall st,
        FileSize.callback toLowerCase p size st
        = (size, if limit <? size then FileSize.report st violation else st))
    /\ (In violation (FileSize.log (snd (FileSize.run toLowerCase files)))
        <-> limit < size).
Proof.
  intros toLowerCase files p size Hin Hvideo limit violation.
  assert (Hlimit : FileSize.limitOf toLowerCase p = limit).
  { unfold FileSize.limitOf, limit.
    destruct (includes FileSize.IMAGE_EXTS _); reflexivity. }
  assert (Hcb : forall st,
             FileSize.callback toLowerCase p size st
             = (size, if limit <? size
                      then FileSize.report st violation else st)).
  { intros st. unfold FileSize.callback. rewrite Hvideo, Hlimit.
    destruct (limit <? size); reflexivity. }
  split; [exact Hcb|].
  rewrite size_reported_iff. split.
  - intros (q & size' & _ & Hl).
    eapply exceeds_line_sound. exact Hl.
  - intros Hlt. exists p, size. split; [assumption|].
    rewrite Hcb. apply N.ltb_lt in Hlt. rewrite Hlt.
    simpl. left; reflexivity.
Qed.

(** Witness for C2: an image of exactly 500 KiB, scanned. *)
Lemma size_violation_iff_over_limit_witness :
  let p := [lit "assets"; lit "logo.PNG"] in
  let files := [Dir (lit "assets") [File (lit "logo.PNG") 512000]] in
  let violation := FileSize.ExceedsLimit (relative p) 512000 512000 in
  (forall st,
      FileSize.callback Sample.asciiLower p 512000 st = (512000, st))
  /\ (In violation
        (FileSize.log (snd (FileSize.run Sample.asciiLower files)))
      <-> 512000 < 512000).
Proof.
  intros p files violation.
  apply (size_violation_iff_over_limit Sample.asciiLower files p 512000).
  - vm_compute. left; reflexivity.
  - vm_compute. reflexivity.
Defined.

(** C3.  For every file the size-limit enforcer scans whose
    extension, lower-cased, is in the video list, the callback adds one to
    the error counter and prints the video line whatever the size, zero
    and one included, and the run has that line. *)
Theorem video_always_violation :
  forall (toLowerCase : jsstr -> jsstr) (files : list (entry N))
         (p : path) (size : N),
    In (p, size) (visited FileSize.EXCLUDED_DIRS (fun _ => true) [] files) ->
    includes FileSize.VIDEO_EXTS (FileSize.ext toLowerCase p) = true ->
    (forall st size',
        FileSize.callback toLowerCase p size' st
        = (size', FileSize.report st (FileSize.VideoNotAllowed (relative p))))
    /\ In (FileSize.VideoNotAllowed (relative p))
         (FileSize.log (snd (FileSize.run toLowerCase files))).
Proof.
  intros toLowerCase files p size Hin Hvideo.
  assert (Hcb : forall st size',
             FileSize.callback toLowerCase p size' st
             = (size', FileSize.report st
                         (FileSize.VideoNotAllowed (relative p)))).
  { intros st size'. unfold FileSize.callback. rewrite Hvideo. reflexivity. }
  split; [exact Hcb|].
  apply size_reported_iff. exists p, size. split; [assumption|].
  rewrite Hcb. simpl. left; reflexivity.
Qed.

(** Witness for C3: [media/clip.mp4] of one byte, scanned. *)
Lemma video_always_violation_witness :
  let p := [lit "media"; lit "clip.mp4"] in
  let files := [Dir (lit "media") [File (lit "clip.mp4") 1]] in
  (forall st size',
      FileSize.callback Sample.asciiLower p size' st
      = (size', FileSize.report st (FileSize.VideoNotAllowed (relative p))))
  /\ In (FileSize.VideoNotAllowed (relative p))
       (FileSize.log (snd (FileSize.run Sample.asciiLower files))).
Proof.
  intros p files.
  apply (video_always_violation Sample.asciiLower files p 1).
  - vm_compute. left; reflexivity.
  - vm_compute. reflexivity.
Defined.

(** ** Splitting, joining and trimming *)

Section SplitJoinFacts.
Variable sep : N.

Lemma split_nonempty (s : jsstr) : split sep s <> [].
Proof.
  destruct s as [|c r]; simpl; [discriminate|].
  destruct (c =? sep); [discriminate|].
  destruct (split sep r); discriminate.
Qed.

Lemma split_free (s : jsstr) :
  Forall (fun l => ~ In sep l) (split sep s).
Proof.
  induction s as [|c r IH]; simpl.
  - constructor; [intros [] | constructor].
  - destruct (c =? sep) eqn:E.
    + constructor; [intros [] | assumption].
    + destruct (split sep r) as [|l ls]; [constructor; [|constructor]|].
      * intros [H | []]. subst. rewrite N.eqb_refl in E. discriminate.
      * inversion IH; subst. constructor; [|assumption].
        intros [H | H]; [|contradiction].
        subst. rewrite N.eqb_refl in E. discriminate.
Qed.

Lemma join_cons_cons (c : N) (l : jsstr) (ls : list jsstr) :
  join [sep] ((c :: l) :: ls) = c :: join [sep] (l :: ls).
Proof. destruct ls; reflexivity. Qed.

Lemma join_split (s : jsstr) : join [sep] (split sep s) = s.
Proof.
  induction s as [|c r IH]; [reflexivity|]. simpl.
  destruct (c =? sep) eqn:E.
  - apply N.eqb_eq in E. subst c.
    pose proof (split_nonempty r) as Hne.
    destruct (split sep r) as [|l ls]; [congruence|].
    simpl in *. rewrite IH. reflexivity.
  - pose proof (split_nonempty r) as Hne.
    destruct (split sep r) as [|l ls]; [congruence|].
    rewrite join_cons_cons, IH. reflexivity.
Qed.

Lemma split_app_sep (l t : jsstr) :
  ~ In sep l -> split sep (l ++ sep :: t) = l :: split sep t.
Proof.
  induction l as [|c l IH]; intros Hfree; simpl.
  - rewrite N.eqb_refl. reflexivity.
  - assert ((c =? sep) = false) as ->.
    { apply N.eqb_neq. intros ->. apply Hfree. left; reflexivity. }
    rewrite IH; [reflexivity|]. intros H. apply Hfree. right; assumption.
Qed.

Lemma split_one (l : jsstr) : ~ In sep l -> split sep l = [l].
Proof.
  induction l as [|c l IH]; intros Hfree; simpl; [reflexivity|].
  assert ((c =? sep) = false) as ->.
  { apply N.eqb_neq. intros ->. apply Hfree. left; reflexivity. }
  rewrite IH; [reflexivity|]. intros H. apply Hfree. right; assumption.
Qed.

Lemma split_join (ls : list jsstr) :
  ls <> [] ->
  Forall (fun l => ~ In sep l) ls ->
  split sep (join [sep] ls) = ls.
Proof.
  induction ls as [|l rest IH]; intros Hne Hfree; [congruence|].
  inversion Hfree as [|? ? Hl Hrest]; subst.
  destruct rest as [|l' rest'].
  - simpl. apply split_one. assumption.
  - change (join [sep] (l :: l' :: rest'))
      with (l ++ sep :: join [sep] (l' :: rest')).
    rewrite split_app_sep by assumption.
    rewrite IH; [reflexivity | discriminate | assumption].
Qed.

Lemma join_snoc_empty (ls : list jsstr) :
  ls <> [] -> join [sep] (ls ++ [[]]) = join [sep] ls ++ [sep].
Proof.
  induction ls as [|l rest IH]; intros Hne; [congruence|].
  destruct rest as [|l' rest'].
  - simpl. reflexivity.
  - change (join [sep] ((l :: l' :: rest') ++ [[]]))
      with (l ++ sep :: join [sep] ((l' :: rest') ++ [[]])).
    rewrite IH by discriminate.
    change (join [sep] (l :: l' :: rest'))
      with (l ++ sep :: join [sep] (l' :: rest')).
    rewrite <- app_assoc. reflexivity.
Qed.

End SplitJoinFacts.

Section TrimFacts.

Lemma trimRight_short (c : N) (r : jsstr) :
  trimRight r = [] -> (List.length (trimRight (c :: r)) <= 1)%nat.
Proof.
  intros H. simpl. rewrite H. destruct (isWhiteSpace c); simpl; lia.
Qed.

Lemma trimRight_cons_fixed (c : N) (r : jsstr) :
  r <> [] -> trimRight (c :: r) = c :: r -> trimRight r = r.
Proof.
  intros Hne H. simpl in H. destruct (trimRight r) as [|x r'] eqn:E.
  - destruct r; [congruence|]. destruct (isWhiteSpace c); discriminate.
  - injection H as <-. reflexivity.
Qed.

Lemma trimRight_single_fixed (c : N) :
  trimRight [c] = [c] -> isWhiteSpace c = false.
Proof. simpl. destruct (isWhiteSpace c); [discriminate | reflexivity]. Qed.

Lemma trimRight_cons_changed (c : N) (r : jsstr) :
  trimRight r <> r -> trimRight (c :: r) <> c :: r.
Proof.
  intros Hr H. destruct r as [|x r]; [simpl in Hr; congruence|].
  apply Hr. apply trimRight_cons_fixed with (c := c); [discriminate|].
  assumption.
Qed.

Lemma trimRight_idem (s : jsstr) : trimRight (trimRight s) = trimRight s.
Proof.
  induction s as [|c r IH]; [reflexivity|]. simpl.
  destruct (trimRight r) as [|x r'] eqn:E.
  - destruct (isWhiteSpace c) eqn:W; simpl; [reflexivity|].
    rewrite W. reflexivity.
  - change (trimRight (c :: x :: r'))
      with (match trimRight (x :: r') with
            | [] => if isWhiteSpace c then [] else [c]
            | r'' => c :: r''
            end).
    rewrite IH. reflexivity.
Qed.

Lemma trimRight_In (x : N) (s : jsstr) : In x (trimRight s) -> In x s.
Proof.
  induction s as [|c r IH]; simpl; [tauto|].
  destruct (trimRight r) as [|y r'].
  - destruct (isWhiteSpace c); simpl; tauto.
  - intros [H | H]; [left; assumption | right; apply IH; assumption].
Qed.

(** A trimmed line does not end with white space. *)
Lemma trimmed_last (l : jsstr) (c : N) :
  trimRight (l ++ [c]) = l ++ [c] -> isWhiteSpace c = false.
Proof.
  induction l as [|a l IH]; intros H.
  - apply trimRight_single_fixed. assumption.
  - apply IH. apply trimRight_cons_fixed with (c := a); [|assumption].
    destruct l; discriminate.
Qed.

(** Trimming removes one trailing white-space unit of a trimmed line. *)
Lemma trimRight_snoc_ws (l : jsstr) (c : N) :
  trimRight l = l -> isWhiteSpace c = true -> trimRight (l ++ [c]) = l.
Proof.
  intros Hl Hc. induction l as [|a l IH].
  - simpl. rewrite Hc. reflexivity.
  - change (trimRight ((a :: l) ++ [c]))
      with (match trimRight (l ++ [c]) with
            | [] => if isWhiteSpace a then [] else [a]
            | r' => a :: r'
            end).
    destruct l as [|b l].
    + simpl. rewrite Hc.
      rewrite (trimRight_single_fixed Hl). reflexivity.
    + rewrite IH; [reflexivity|].
      apply trimRight_cons_fixed with (c := a); [discriminate | assumption].
Qed.

End TrimFacts.

(** ** The whitespace/newline fixer *)

Section FixContentFacts.
Import FixIssues.

Lemma trimLines_spec (lines : list jsstr) :
  forall m,
    trimLines lines m = (List.map trimRight lines, m || existsb changed lines).
Proof.
  induction lines as [|l rest IH]; intros m; simpl.
  - rewrite orb_false_r. reflexivity.
  - rewrite IH. f_equal. unfold changed.
    destruct (str_eqb (trimRight l) l), m; reflexivity.
Qed.

Lemma fixContent_spec (text : jsstr) :
  fixContent text
  = let output := join [LF] (List.map trimRight (split LF text)) in
    if lacksNewline output
    then (output ++ [LF], true)
    else (output, existsb changed (split LF text)).
Proof. unfold fixContent. rewrite trimLines_spec. reflexivity. Qed.

Lemma endsWith_snoc (s : jsstr) (c : N) : endsWith (s ++ [c]) [c] = true.
Proof.
  unfold endsWith. rewrite rev_app_distr. simpl.
  rewrite N.eqb_refl. destruct (rev s); reflexivity.
Qed.

Lemma lacksNewline_snoc (s : jsstr) : lacksNewline (s ++ [LF]) = false.
Proof.
  unfold lacksNewline. rewrite endsWith_snoc. apply andb_false_r.
Qed.

Lemma map_trimRight_fixed (ls : list jsstr) :
  Forall (fun l => trimRight l = l) ls ->
  List.map trimRight ls = ls /\ existsb changed ls = false.
Proof.
  induction 1 as [|l ls Hl _ [IH1 IH2]]; simpl; [auto|].
  rewrite IH1, IH2, Hl. unfold changed. rewrite Hl, str_eqb_refl. auto.
Qed.

(** Clean lines, joined, are a fixed point of the transform. *)
Lemma fixContent_clean_lines (ls : list jsstr) :
  ls <> [] ->
  Forall (fun l => ~ In LF l) ls ->
  Forall (fun l => trimRight l = l) ls ->
  lacksNewline (join [LF] ls) = false ->
  fixContent (join [LF] ls) = (join [LF] ls, false).
Proof.
  intros Hne Hfree Htrim Hnl. rewrite fixContent_spec.
  rewrite split_join by assumption.
  destruct (map_trimRight_fixed Htrim) as [-> ->].
  cbv zeta. rewrite Hnl. reflexivity.
Qed.

(** The output of the transform is made of clean lines and has its final
    newline whenever it is not empty. *)
Lemma fixContent_output_lines (text : jsstr) :
  exists ls,
    ls <> []
    /\ Forall (fun l => ~ In LF l) ls
    /\ Forall (fun l => trimRight l = l) ls
    /\ fst (fixContent text) = join [LF] ls
    /\ lacksNewline (fst (fixContent text)) = false.
Proof.
  rewrite fixContent_spec. cbv zeta.
  set (fixed := List.map trimRight (split LF text)).
  assert (Hne : fixed <> []).
  { unfold fixed. pose proof (split_nonempty LF text).
    destruct (split LF text); [congruence | discriminate]. }
  assert (Hfree : Forall (fun l => ~ In LF l) fixed).
  { unfold fixed. apply Forall_map.
    eapply Forall_impl; [|apply split_free].
    intros l Hl Hin. apply Hl. apply trimRight_In. assumption. }
  assert (Htrim : Forall (fun l => trimRight l = l) fixed).
  { unfold fixed. apply Forall_map. apply Forall_forall.
    intros l _. apply trimRight_idem. }
  destruct (lacksNewline (join [LF] fixed)) eqn:Hnl; simpl.
  - exists (fixed ++ [[]]). repeat split.
    + destruct fixed; discriminate.
    + apply Forall_app. split; [assumption|].
      constructor; [intros [] | constructor].
    + apply Forall_app. split; [assumption|].
      constructor; [reflexivity | constructor].
    + symmetry. apply join_snoc_empty. assumption.
    + apply lacksNewline_snoc.
  - exists fixed. repeat split; assumption.
Qed.

Lemma fixContent_idempotent (text : jsstr) :
  fixContent (fst (fixContent text)) = (fst (fixContent text), false).
Proof.
  destruct (fixContent_output_lines text)
    as (ls & Hne & Hfree & Htrim & Hout & Hnl).
  rewrite Hout in *. apply fixContent_clean_lines; assumption.
Qed.

(** A text of trimmed lines that ends with a newline is left alone. *)
Lemma fixContent_clean_text (text : jsstr) :
  Forall (fun l => trimRight l = l) (split LF text) ->
  endsWith text [LF] = true ->
  fixContent text = (text, false).
Proof.
  intros Htrim Hend.
  pose proof (@fixContent_clean_lines (split LF text)) as H.
  rewrite join_split in H. apply H.
  - apply split_nonempty.
  - apply split_free.
  - assumption.
  - unfold lacksNewline. rewrite Hend. apply andb_false_r.
Qed.

End FixContentFacts.

Section SettledCallbacks.
Context {A S : Type}.
Variable excluded : list jsstr.
Variable select : jsstr -> bool.
Variable callback : path -> A -> S -> A * S.
Variable counter : S -> nat.

(** On what it returned, the callback returns the same and counts
    nothing. *)
Hypothesis callback_settled :
  forall p data s s',
    fst (callback p (fst (callback p data s)) s') = fst (callback p data s)
    /\ counter (snd (callback p (fst (callback p data s)) s')) = counter s'.

Let settled (body : entry A -> S -> entry A * S) (e : entry A) : Prop :=
  forall s, fst (body e s) = e /\ counter (snd (body e s)) = counter s.

Lemma forEach_settled (body : entry A -> S -> entry A * S)
    (l : list (entry A)) :
  Forall (fun e => forall s, settled body (fst (body e s))) l ->
  forall s s',
    fst (forEach body (fst (forEach body l s)) s') = fst (forEach body l s)
    /\ counter (snd (forEach body (fst (forEach body l s)) s'))
       = counter s'.
Proof.
  induction 1 as [|e l He _ IH]; intros s s'; simpl; [auto|].
  specialize (He s). destruct (body e s) as [e1 s1]. simpl in He.
  specialize (IH s1). destruct (forEach body l s1) as [l1 s2].
  simpl in *. destruct (He s') as [He1 He2].
  destruct (body e1 s') as [e1' s1']. simpl in *.
  destruct (IH s1') as [IH1 IH2].
  destruct (forEach body l1 s1') as [l1' s2']. simpl in *.
  split; congruence.
Qed.

Lemma walkEntry_settled (e : entry A) :
  forall dir s,
    settled (walkEntry excluded select callback dir)
      (fst (walkEntry excluded select callback dir e s)).
Proof.
  induction e as [name f | name children IH] using entry_induction;
    intros dir s s'.
  - simpl. destruct (select name) eqn:Hsel.
    + pose proof (callback_settled (dir ++ [name]) f s s') as H.
      destruct (callback (dir ++ [name]) f s) as [f1 s1]. simpl in *.
      rewrite Hsel. destruct (callback (dir ++ [name]) f1 s') as [f2 s2].
      simpl in *. destruct H as [-> H]. auto.
    + simpl. rewrite Hsel. auto.
  - simpl. destruct (includes excluded name) eqn:Hex; simpl.
    + rewrite Hex. simpl. auto.
    + pose proof (@forEach_settled
                    (walkEntry excluded select callback (dir ++ [name]))
                    children) as H.
      specialize (H ltac:(eapply Forall_impl; [|exact IH];
                          intros e He s0; apply He) s s').
      destruct (forEach _ children s) as [cs1 s1]. simpl in *.
      rewrite Hex. simpl.
      destruct (forEach _ cs1 s') as [cs2 s2]. simpl in *.
      destruct H as [-> H]. auto.
Qed.

(** Walking the tree a walk returned changes nothing more. *)
Lemma walkDir_settled (dir : path) (files : list (entry A)) (s s' : S) :
  let once := fst (walkDir excluded select callback dir files s) in
  fst (walkDir excluded select callback dir once s') = once
  /\ counter (snd (walkDir excluded select callback dir once s'))
     = counter s'.
Proof.
  unfold walkDir. apply forEach_settled.
  apply Forall_forall. intros e _ s0. apply walkEntry_settled.
Qed.
End SettledCallbacks.

Section FixRunFacts.
Import FixIssues.

(** The callback returns the file it got, unless it could read, change
    and write it. *)
Lemma fix_callback_file (p : path) (f : file) (st : state) :
  (fst (callback p f st) = f
   /\ (readable f = false \/ snd (fixContent (content f)) = false
       \/ writable f = false))
  \/ fst (callback p f st)
     = mkFile (fst (fixContent (content f))) true true.
Proof.
  unfold callback, readFileSync, writeFileSync.
  destruct (readable f) eqn:Hr; [|left; auto].
  destruct (fixContent (content f)) as [output modified].
  destruct modified; [|left; auto].
  destruct (writable f); [right; reflexivity | left; auto].
Qed.

(** A file the callback returns is one the callback leaves alone. *)
Lemma fix_callback_settled (p : path) (f : file) (st : state) :
  forall st',
    fst (callback p (fst (callback p f st)) st') = fst (callback p f st)
    /\ filesFixed (snd (callback p (fst (callback p f st)) st'))
       = filesFixed st'.
Proof.
  intros st'.
  destruct (fix_callback_file p f st) as [[-> Hwhy] | ->].
  - unfold callback, readFileSync, writeFileSync.
    destruct (readable f); [|auto].
    destruct (fixContent (content f)) as [output modified].
    destruct modified; [|auto].
    destruct (writable f); [|auto].
    simpl in Hwhy. destruct Hwhy as [H | [H | H]]; discriminate.
  - unfold callback, readFileSync. simpl.
    rewrite fixContent_idempotent. auto.
Qed.

(** A second run over the tree the first run left rewrites nothing. *)
Lemma fix_run_twice (files : list (entry file)) :
  fst (run (fst (run files))) = fst (run files)
  /\ filesFixed (snd (run (fst (run files)))) = 0%nat.
Proof.
  unfold run, walkDir.
  apply (walkDir_settled exclude selected callback filesFixed).
  intros p f s s'. apply fix_callback_settled.
Qed.

End FixRunFacts.

(** ** C5: the fixer is idempotent *)

(** C5.  The transform applied to its own output returns that output, not
    modified; a second run over the tree a first run left returns the same
    tree and fixes zero files; a text whose lines have no trailing white
    space and which ends with a newline is returned as it is, not
    modified, and the callback leaves such a file alone. *)
Theorem normalizer_idempotent :
  (forall text,
      FixIssues.fixContent (fst (FixIssues.fixContent text))
      = (fst (FixIssues.fixContent text), false))
  /\ (forall files,
         fst (FixIssues.run (fst (FixIssues.run files)))
         = fst (FixIssues.run files)
         /\ FixIssues.filesFixed
              (snd (FixIssues.run (fst (FixIssues.run files)))) = 0%nat)
  /\ (forall text,
         Forall (fun l => trimRight l = l) (split LF text) ->
         endsWith text [LF] = true ->
         FixIssues.fixContent text = (text, false)
         /\ forall p r w st,
             FixIssues.callback p (mkFile text r w) st
             = (mkFile text r w,
                if r then st
                else FixIssues.warn st (relative p))).
Proof.
  split; [|split].
  - apply fixContent_idempotent.
  - apply fix_run_twice.
  - intros text Htrim Hend.
    pose proof (fixContent_clean_text text Htrim Hend) as H.
    split; [exact H|].
    intros p r w st. unfold FixIssues.callback, readFileSync. simpl.
    destruct r; [|reflexivity]. rewrite H. reflexivity.
Qed.

(** Witness for C5: the text of two clean lines and a final newline. *)
Lemma normalizer_idempotent_witness :
  let text := Sample.text "const a = 1;|export default a;|" in
  FixIssues.fixContent text = (text, false)
  /\ forall p r w st,
      FixIssues.callback p (mkFile text r w) st
      = (mkFile text r w,
         if r then st else FixIssues.warn st (relative p)).
Proof.
  intros text.
  apply (proj2 (proj2 normalizer_idempotent) text).
  - vm_compute. repeat constructor.
  - vm_compute. reflexivity.
Defined.

(** ** C6: the final newline *)

Section FinalNewlineFacts.
Import FixIssues.

Lemma endsWith_LF_trailing (s : jsstr) :
  endsWith s [LF] = true -> (1 <= trailingNewlines s)%nat.
Proof.
  unfold endsWith, trailingNewlines. change (rev [LF]) with [LF].
  destruct (rev s) as [|c r]; cbn [startsWith leadingLF]; [discriminate|].
  rewrite (N.eqb_sym LF c). destruct (c =? LF); [lia | discriminate].
Qed.

Lemma lacksNewline_false (s : jsstr) :
  lacksNewline s = false -> s = [] \/ endsWith s [LF] = true.
Proof.
  unfold lacksNewline. destruct s as [|c r]; [auto|]. simpl.
  destruct (endsWith (c :: r) [LF]); [auto | discriminate].
Qed.

Lemma trimRight_nil_iff (s : jsstr) :
  trimRight s = [] <-> forallb isWhiteSpace s = true.
Proof.
  induction s as [|c r IH]; simpl; [tauto|].
  destruct (trimRight r) as [|x r'].
  - destruct (isWhiteSpace c); simpl.
    + rewrite <- IH. tauto.
    + split; discriminate.
  - split; [discriminate|]. rewrite andb_true_iff.
    intros [_ H]. apply IH in H. discriminate.
Qed.

Lemma split_single (text l : jsstr) :
  split LF text = [l] <-> ~ In LF text /\ l = text.
Proof.
  split.
  - intros H. pose proof (join_split LF text) as Hj.
    pose proof (split_free LF text) as Hf. rewrite H in Hj, Hf.
    simpl in Hj. subst l. inversion Hf; subst. auto.
  - intros [Hfree ->]. apply split_one. assumption.
Qed.

Lemma join_nil_iff (ls : list jsstr) :
  ls <> [] -> (join [LF] ls = [] <-> ls = [[]]).
Proof.
  intros Hne. destruct ls as [|l [|l' rest]]; [congruence| |].
  - simpl. split; [intros ->; reflexivity | congruence].
  - change (join [LF] (l :: l' :: rest))
      with (l ++ LF :: join [LF] (l' :: rest)).
    split; [|discriminate]. intros H.
    apply app_eq_nil in H. destruct H; discriminate.
Qed.

End FinalNewlineFacts.

(** C6, as amended.  The output is the right-trimmed lines rejoined, with
    one newline added when that text is not empty and does not end with
    one.  So the output is empty or ends with at least one newline;
    newlines that already end the text are kept, not reduced to one; the
    output is empty exactly when the input has no line feed and is white
    space only. *)
Theorem output_ends_with_newline :
  forall text,
    let joined := join [LF] (List.map trimRight (split LF text)) in
    let output := fst (FixIssues.fixContent text) in
    output = (if FixIssues.lacksNewline joined
              then joined ++ [LF] else joined)
    /\ (output = []
        \/ (endsWith output [LF] = true
            /\ (1 <= FixIssues.trailingNewlines output)%nat))
    /\ (output = []
        <-> ~ In LF text /\ forallb isWhiteSpace text = true).
Proof.
  intros text joined output.
  assert (Hout : output = (if FixIssues.lacksNewline joined
                           then joined ++ [LF] else joined)).
  { unfold output. rewrite fixContent_spec. cbv zeta. fold joined.
    destruct (FixIssues.lacksNewline joined); reflexivity. }
  split; [exact Hout|]. split.
  - rewrite Hout. destruct (FixIssues.lacksNewline joined) eqn:Hnl.
    + right. split; [apply endsWith_snoc|].
      apply endsWith_LF_trailing. apply endsWith_snoc.
    + destruct (lacksNewline_false _ Hnl) as [H | H]; [left; assumption|].
      right. split; [assumption | apply endsWith_LF_trailing; assumption].
  - assert (Hj : output = [] <-> joined = []).
    { rewrite Hout. destruct (FixIssues.lacksNewline joined) eqn:Hnl.
      - split.
        + intros H. apply app_eq_nil in H. destruct H; discriminate.
        + intros H. rewrite H in Hnl. discriminate.
      - tauto. }
    rewrite Hj. unfold joined.
    pose proof (split_nonempty LF text) as Hne.
    rewrite join_nil_iff by (destruct (split LF text); [congruence|discriminate]).
    split.
    + intros H. destruct (split LF text) as [|l [|l' rest]] eqn:Hs;
        try discriminate.
      injection H as H. apply split_single in Hs. destruct Hs as [Hf ->].
      split; [assumption|]. apply trimRight_nil_iff. assumption.
    + intros [Hf Hws]. rewrite (split_one LF text Hf). simpl.
      apply trimRight_nil_iff in Hws. rewrite Hws. reflexivity.
Qed.

(** Witness for C6: a text of white space only, with no line feed. *)
Lemma output_ends_with_newline_witness :
  fst (FixIssues.fixContent (lit "   ")) = [].
Proof.
  apply (proj2 (proj2 (output_ends_with_newline (lit "   ")))).
  split.
  - vm_compute. intuition discriminate.
  - vm_compute. reflexivity.
Defined.

(** C6 as stated fails: a text that ends with two newlines keeps both,
    and a text of one space comes out empty, with no newline. *)
Lemma trailing_newlines_not_exactly_one :
  let text := Sample.text "a||" in
  text <> []
  /\ FixIssues.fixContent text = (text, false)
  /\ FixIssues.trailingNewlines (fst (FixIssues.fixContent text)) = 2%nat
  /\ lit " " <> []
  /\ FixIssues.trailingNewlines (fst (FixIssues.fixContent (lit " ")))
     = 0%nat.
Proof.
  intros text. repeat split; try (vm_compute; reflexivity);
    vm_compute; discriminate.
Qed.

(** ** C10: carriage returns before line feeds *)

Section CarriageReturnFacts.
Import FixIssues.

Lemma hasCRLF_cons (c d : N) (r : jsstr) :
  hasCRLF (c :: d :: r) = ((c =? CR) && (d =? LF)) || hasCRLF (d :: r).
Proof. reflexivity. Qed.

Lemma hasCRLF_LF (t : jsstr) : hasCRLF (LF :: t) = hasCRLF t.
Proof. destruct t; reflexivity. Qed.

Lemma hasCRLF_free (l : jsstr) : ~ In LF l -> hasCRLF l = false.
Proof.
  induction l as [|c [|d r] IH]; intros Hfree; try reflexivity.
  rewrite hasCRLF_cons, IH.
  - assert ((d =? LF) = false) as ->.
    { apply N.eqb_neq. intros ->. apply Hfree. right; left; reflexivity. }
    rewrite andb_false_r. reflexivity.
  - intros H. apply Hfree. right; assumption.
Qed.

Lemma hasCRLF_line (l t : jsstr) :
  ~ In LF l -> trimRight l = l -> hasCRLF (l ++ LF :: t) = hasCRLF t.
Proof.
  induction l as [|c l IH]; intros Hfree Htrim.
  - apply hasCRLF_LF.
  - destruct l as [|d l].
    + change (hasCRLF ([c] ++ LF :: t))
        with (((c =? CR) && (LF =? LF)) || hasCRLF (LF :: t)).
      assert ((c =? CR) = false) as ->.
      { apply N.eqb_neq. intros ->.
        apply trimRight_single_fixed in Htrim. discriminate. }
      apply hasCRLF_LF.
    + change (hasCRLF ((c :: d :: l) ++ LF :: t))
        with (((c =? CR) && (d =? LF)) || hasCRLF ((d :: l) ++ LF :: t)).
      assert ((d =? LF) = false) as ->.
      { apply N.eqb_neq. intros ->. apply Hfree. right; left; reflexivity. }
      rewrite andb_false_r. simpl orb. apply IH.
      * intros H. apply Hfree. right; assumption.
      * apply trimRight_cons_fixed with (c := c); [discriminate|].
        assumption.
Qed.

Lemma hasCRLF_join (ls : list jsstr) :
  Forall (fun l => ~ In LF l) ls ->
  Forall (fun l => trimRight l = l) ls ->
  hasCRLF (join [LF] ls) = false.
Proof.
  induction ls as [|l rest IH]; intros Hfree Htrim; [reflexivity|].
  inversion Hfree; inversion Htrim; subst.
  destruct rest as [|l' rest'].
  - simpl. apply hasCRLF_free. assumption.
  - change (join [LF] (l :: l' :: rest'))
      with (l ++ LF :: join [LF] (l' :: rest')).
    rewrite hasCRLF_line by assumption. apply IH; assumption.
Qed.

(** A carriage return before a line feed ends a line, which trimming
    changes. *)
Lemma hasCRLF_changed (text : jsstr) :
  hasCRLF text = true -> existsb changed (split LF text) = true.
Proof.
  induction text as [|c r IH]; [discriminate|].
  destruct r as [|d r']; [discriminate|].
  rewrite hasCRLF_cons. intros H.
  change (split LF (c :: d :: r'))
    with (if c =? LF then [] :: split LF (d :: r')
          else match split LF (d :: r') with
               | l :: ls => (c :: l) :: ls
               | [] => [[c]]
               end).
  apply orb_true_iff in H. destruct H as [H | H].
  - apply andb_true_iff in H. destruct H as [Hc Hd].
    apply N.eqb_eq in Hc, Hd. subst c d.
    change (CR =? LF) with false. cbv iota.
    change (split LF (LF :: r')) with ([] :: split LF r').
    reflexivity.
  - specialize (IH H). destruct (c =? LF).
    + cbn [existsb]. rewrite IH. apply orb_true_r.
    + destruct (split LF (d :: r')) as [|l ls]; [discriminate|].
      cbn [existsb] in IH |- *. apply orb_true_iff in IH.
      apply orb_true_iff. destruct IH as [Hl | Hls]; [left | right; assumption].
      unfold changed in *. apply negb_true_iff in Hl. apply negb_true_iff.
      apply str_eqb_neq in Hl. apply str_eqb_neq.
      apply trimRight_cons_changed. assumption.
Qed.

Lemma split_crlf_lines (ls : list jsstr) :
  Forall (fun l => ~ In LF l) ls ->
  split LF (List.concat (List.map (fun l => l ++ [CR; LF]) ls))
  = List.map (fun l => l ++ [CR]) ls ++ [[]].
Proof.
  induction 1 as [|l ls Hl _ IH]; [reflexivity|]. simpl.
  replace ((l ++ [CR; LF]) ++ List.concat (List.map (fun l => l ++ [CR; LF]) ls))
    with ((l ++ [CR]) ++ LF :: List.concat (List.map (fun l => l ++ [CR; LF]) ls))
    by (rewrite <- !app_assoc; reflexivity).
  rewrite split_app_sep, IH; [reflexivity|].
  intros H. apply in_app_or in H. destruct H as [H | [H | []]];
    [contradiction | discriminate].
Qed.

Lemma join_lf_lines (ls : list jsstr) :
  join [LF] (ls ++ [[]]) = List.concat (List.map (fun l => l ++ [LF]) ls).
Proof.
  induction ls as [|l rest IH]; [reflexivity|].
  cbn [List.concat List.map]. rewrite <- IH, <- app_assoc.
  destruct rest; reflexivity.
Qed.

(** Lines that end with CR LF come out ending with LF. *)
Lemma fixContent_crlf_lines (ls : list jsstr) :
  ls <> [] ->
  Forall (fun l => ~ In LF l) ls ->
  Forall (fun l => trimRight l = l) ls ->
  fixContent (List.concat (List.map (fun l => l ++ [CR; LF]) ls))
  = (List.concat (List.map (fun l => l ++ [LF]) ls), true).
Proof.
  intros Hne Hfree Htrim. rewrite fixContent_spec, split_crlf_lines by assumption.
  cbv zeta. rewrite map_app, map_map.
  assert (Hmap : List.map (fun l => trimRight (l ++ [CR])) ls = ls).
  { clear Hne Hfree. induction Htrim as [|l ls Hl _ IH]; [reflexivity|].
    simpl. rewrite IH, trimRight_snoc_ws; auto. }
  rewrite Hmap. change (List.map trimRight [[]]) with [[] : jsstr].
  rewrite join_snoc_empty by assumption.
  rewrite lacksNewline_snoc.
  rewrite <- join_snoc_empty, join_lf_lines by assumption.
  f_equal. destruct ls as [|l ls]; [congruence|]. simpl.
  inversion Htrim; subst.
  assert (changed (l ++ [CR]) = true) as ->; [|reflexivity].
  unfold changed. apply negb_true_iff. apply str_eqb_neq.
  rewrite trimRight_snoc_ws by auto.
  intros H. apply (f_equal (@List.length N)) in H.
  rewrite length_app in H. simpl in H. lia.
Qed.

End CarriageReturnFacts.

(** C10.  The output of the transform never has a carriage return
    directly before a line feed; a text that has one is modified, so a
    readable and writable file that has one is rewritten and counted as
    fixed; a text of trimmed lines each ended by CR LF comes out as the
    same lines each ended by LF. *)
Theorem crlf_rewritten_as_lf :
  (forall text, FixIssues.hasCRLF (fst (FixIssues.fixContent text)) = false)
  /\ (forall text,
         FixIssues.hasCRLF text = true ->
         snd (FixIssues.fixContent text) = true
         /\ forall p st,
             FixIssues.callback p (mkFile text true true) st
             = (mkFile (fst (FixIssues.fixContent text)) true true,
                {| FixIssues.filesFixed := S (FixIssues.filesFixed st);
                   FixIssues.log :=
                     FixIssues.log st ++ [FixIssues.Fixed (relative p)] |}))
  /\ (forall lines,
         lines <> [] ->
         Forall (fun l => ~ In LF l) lines ->
         Forall (fun l => trimRight l = l) lines ->
         FixIssues.fixContent
           (List.concat (List.map (fun l => l ++ [CR; LF]) lines))
         = (List.concat (List.map (fun l => l ++ [LF]) lines), true)).
Proof.
  split; [|split].
  - intros text.
    destruct (fixContent_output_lines text)
      as (ls & _ & Hfree & Htrim & -> & _).
    apply hasCRLF_join; assumption.
  - intros text Hcr.
    assert (Hmod : snd (FixIssues.fixContent text) = true).
    { rewrite fixContent_spec. cbv zeta.
      destruct (FixIssues.lacksNewline _); [reflexivity|].
      simpl. apply hasCRLF_changed. assumption. }
    split; [exact Hmod|].
    intros p st. unfold FixIssues.callback, readFileSync, writeFileSync.
    simpl. destruct (FixIssues.fixContent text) as [output modified].
    simpl in Hmod. subst modified. reflexivity.
  - apply fixContent_crlf_lines.
Qed.

(** Witness for C10: two lines with CR LF endings. *)
Lemma crlf_rewritten_as_lf_witness :
  FixIssues.fixContent (lit "a" ++ [CR; LF] ++ lit "b c" ++ [CR; LF])
  = (lit "a" ++ [LF] ++ lit "b c" ++ [LF], true)
  /\ snd (FixIssues.fixContent (lit "a" ++ [CR; LF])) = true.
Proof.
  split.
  - apply (proj2 (proj2 crlf_rewritten_as_lf) [lit "a"; lit "b c"]).
    + discriminate.
    + repeat constructor; vm_compute; intuition discriminate.
    + repeat constructor.
  - apply (proj1 (proj2 crlf_rewritten_as_lf) (lit "a" ++ [CR; LF])).
    vm_compute. reflexivity.
Defined.

(** ** Searching a text *)

Section IndexOfFacts.

Lemma indexOf_at_None (s p : jsstr) :
  forall pos,
    indexOf_at s p pos = None
    <-> forall j : nat, startsWith (skipn j s) p = false.
Proof.
  induction s as [|c r IH]; intros pos; cbn [indexOf_at].
  - split.
    + intros H j. rewrite skipn_nil.
      destruct (startsWith [] p); [discriminate | reflexivity].
    + intros H. specialize (H O). cbn [skipn] in H. rewrite H. reflexivity.
  - destruct (startsWith (c :: r) p) eqn:E.
    + split; [discriminate|]. intros H. specialize (H O). cbn [skipn] in H.
      congruence.
    + rewrite IH. split.
      * intros H [|j]; [exact E | apply H].
      * intros H j. apply (H (S j)).
Qed.

(** [indexOf] returns -1 exactly when the pattern occurs at no index from
    [from] on. *)
Lemma indexOf_None (s p : jsstr) (from : nat) :
  indexOf s p from = None
  <-> forall i : nat, (from <= i)%nat -> startsWith (skipn i s) p = false.
Proof.
  unfold indexOf. rewrite indexOf_at_None. split.
  - intros H i Hi. specialize (H (i - Nat.min from (List.length s))%nat).
    rewrite skipn_skipn in H.
    replace (i - Nat.min from (List.length s)
             + Nat.min from (List.length s))%nat with i in H by lia.
    exact H.
  - intros H j. rewrite skipn_skipn.
    destruct (Nat.le_gt_cases from (List.length s)) as [Hle | Hgt].
    + apply H. lia.
    + rewrite skipn_all2 by lia. specialize (H from (Nat.le_refl _)).
      rewrite skipn_all2 in H by lia. exact H.
Qed.

End IndexOfFacts.

(** ** The frontmatter validator *)

Section FoldFacts.
Context {X Y S : Type}.

Lemma fold_left_flat_map (f : S -> Y -> S) (g : X -> list Y) (l : list X) :
  forall s,
    fold_left f (flat_map g l) s
    = fold_left (fun s x => fold_left f (g x) s) l s.
Proof.
  induction l as [|x l IH]; intros s; simpl; [reflexivity|].
  rewrite fold_left_app. apply IH.
Qed.

Lemma fold_left_map (f : S -> Y -> S) (g : X -> Y) (l : list X) :
  forall s, fold_left f (List.map g l) s = fold_left (fun s x => f s (g x)) l s.
Proof.
  induction l as [|x l IH]; intros s; simpl; [reflexivity | apply IH].
Qed.

End FoldFacts.

Section ValidateFacts.
Import ValidateFrontmatter.
Variable yaml_parse : jsstr -> result value.

(** The line the validator prints for a scanned file. *)
Let verdictOf (x : jsstr * (jsstr * jsstr)) : line :=
  verdict yaml_parse (relative [fst x; fst (snd x)]) (snd (snd x)).

Lemma validate_run_scanned (w : world) :
  run yaml_parse w
  = fold_left (fun s x => checkFile yaml_parse (fst x) (snd x) s)
      (scanned w) init.
Proof.
  unfold run, scanned. rewrite fold_left_flat_map.
  generalize init. induction (dirsToCheck w) as [|dir dirs IH];
    intros st; simpl; [reflexivity|].
  rewrite <- IH. f_equal. unfold checkDir.
  destruct (w dir); [|reflexivity].
  rewrite fold_left_map. reflexivity.
Qed.

Lemma validate_fold_log (l : list (jsstr * (jsstr * jsstr))) :
  forall st,
    log (fold_left (fun s x => checkFile yaml_parse (fst x) (snd x) s) l st)
    = log st ++ List.map verdictOf l.
Proof.
  induction l as [|x l IH]; intros st; simpl.
  - rewrite app_nil_r. reflexivity.
  - rewrite IH. unfold checkFile. fold (verdictOf x).
    destruct (isError (verdictOf x)); simpl;
      rewrite <- app_assoc; reflexivity.
Qed.

(** The validator prints one line for each scanned file, in order. *)
Lemma validate_run_log (w : world) :
  log (run yaml_parse w) = List.map verdictOf (scanned w).
Proof. rewrite validate_run_scanned, validate_fold_log. reflexivity. Qed.

End ValidateFacts.

(** ** C7: the missing end delimiter *)

(** C7.  For every markdown file of a scanned metadata directory whose
    text starts with the opening delimiter and has no closing delimiter
    from index 4 on, the one line the validator prints for the file is the
    missing-end-delimiter line, counted as one error; the run prints one
    line for each scanned file, so no missing-field or invalid-field line
    is printed for this one. *)
Theorem missing_end_delimiter_only :
  forall (yaml_parse : jsstr -> result value)
         (w : ValidateFrontmatter.world) (dir name text : jsstr),
    In (dir, (name, text)) (ValidateFrontmatter.scanned w) ->
    startsWith text ValidateFrontmatter.openDelimiter = true ->
    (forall i : nat,
        (4 <= i)%nat ->
        startsWith (skipn i text) ValidateFrontmatter.closeDelimiter = false) ->
    let rel := relative [dir; name] in
    let verdictOf := fun x : jsstr * (jsstr * jsstr) =>
      ValidateFrontmatter.verdict yaml_parse
        (relative [fst x; fst (snd x)]) (snd (snd x)) in
    verdictOf (dir, (name, text)) = ValidateFrontmatter.MissingEndDelimiter rel
    /\ (forall st,
           ValidateFrontmatter.checkFile yaml_parse dir (name, text) st
           = {| ValidateFrontmatter.errorCount :=
                  S (ValidateFrontmatter.errorCount st);
                ValidateFrontmatter.fileCount :=
                  S (ValidateFrontmatter.fileCount st);
                ValidateFrontmatter.log :=
                  ValidateFrontmatter.log st
                  ++ [ValidateFrontmatter.MissingEndDelimiter rel] |})
    /\ ValidateFrontmatter.log (ValidateFrontmatter.run yaml_parse w)
       = List.map verdictOf (ValidateFrontmatter.scanned w)
    /\ In (ValidateFrontmatter.MissingEndDelimiter rel)
         (ValidateFrontmatter.log (ValidateFrontmatter.run yaml_parse w)).
Proof.
  intros yaml_parse w dir name text Hin Hopen Hclose rel verdictOf.
  assert (Hv : verdictOf (dir, (name, text))
               = ValidateFrontmatter.MissingEndDelimiter rel).
  { unfold verdictOf, ValidateFrontmatter.verdict. simpl fst. simpl snd.
    rewrite Hopen. simpl negb. cbv iota.
    apply indexOf_None in Hclose. rewrite Hclose. reflexivity. }
  assert (Hlog : ValidateFrontmatter.log (ValidateFrontmatter.run yaml_parse w)
                 = List.map verdictOf (ValidateFrontmatter.scanned w)).
  { apply validate_run_log. }
  split; [exact Hv|]. split; [|split; [exact Hlog|]].
  - intros st. unfold ValidateFrontmatter.checkFile.
    change (ValidateFrontmatter.verdict yaml_parse
              (relative [dir; fst (name, text)]) (snd (name, text)))
      with (verdictOf (dir, (name, text))).
    rewrite Hv. reflexivity.
  - rewrite Hlog, <- Hv. apply in_map. assumption.
Qed.

(** Witness for C7: [agents/a.md] whose last line is the delimiter with
    no line feed after it. *)
Lemma missing_end_delimiter_only_witness :
  let text := Sample.text "---|name: foo|description: bar|---" in
  let w := fun dir =>
    if str_eqb dir (lit "agents") then Some [(lit "a.md", text)] else None in
  ValidateFrontmatter.log (ValidateFrontmatter.run Sample.yaml w)
  = [ValidateFrontmatter.MissingEndDelimiter (lit "agents/a.md")].
Proof.
  intros text w.
  pose proof (@missing_end_delimiter_only Sample.yaml w
                (lit "agents") (lit "a.md") text) as H.
  assert (H1 : In (lit "agents", (lit "a.md", text))
                 (ValidateFrontmatter.scanned w)).
  { vm_compute. left; reflexivity. }
  assert (H2 : startsWith text ValidateFrontmatter.openDelimiter = true).
  { vm_compute. reflexivity. }
  assert (H3 : forall i : nat,
             (4 <= i)%nat ->
             startsWith (skipn i text) ValidateFrontmatter.closeDelimiter
             = false).
  { apply indexOf_None. vm_compute. reflexivity. }
  destruct (H H1 H2 H3) as (Hv & _ & Hlog & _).
  rewrite Hlog. change (ValidateFrontmatter.scanned w)
    with [(lit "agents", (lit "a.md", text))].
  simpl List.map. simpl fst in *. simpl snd in *. rewrite Hv. reflexivity.
Defined.

(** ** C8: missing and invalid fields *)

(** C8, as amended.  When the frontmatter parses to a value from which
    [name] and [description] can be read, the validator decides in this
    order: a key whose value is falsy (absent, null, the empty string, 0,
    NaN, false) is listed in the missing-required-fields line; otherwise a
    [name] that is not a string or is white space only gets the
    invalid-[name] line; otherwise a [description] that is not a string or
    is white space only gets the invalid-[description] line; otherwise the
    file is valid.  A non-empty string of white space only is truthy and
    is not a non-empty string; the empty string is falsy. *)
Theorem field_checks_after_parse :
  forall (yaml_parse : jsstr -> result value) (rel text : jsstr)
         (endDelimiter : nat) (frontmatter name description : value),
    startsWith text ValidateFrontmatter.openDelimiter = true ->
    indexOf text ValidateFrontmatter.closeDelimiter 4 = Some endDelimiter ->
    yaml_parse (substring text 4 endDelimiter) = Ok frontmatter ->
    getProp frontmatter (lit "name") = Ok name ->
    getProp frontmatter (lit "description") = Ok description ->
    ValidateFrontmatter.verdict yaml_parse rel text
    = (if negb (truthy name) || negb (truthy description)
       then ValidateFrontmatter.MissingRequiredFields rel
              ((if truthy name then [] else [lit "name"])
               ++ (if truthy description then [] else [lit "description"]))
       else if notNonEmptyString name
       then ValidateFrontmatter.NameNotNonEmptyString rel
       else if notNonEmptyString description
       then ValidateFrontmatter.DescriptionNotNonEmptyString rel
       else ValidateFrontmatter.Valid rel)
    /\ truthy (VString []) = false
    /\ (forall s, s <> [] -> trim s = [] ->
                  truthy (VString s) = true
                  /\ notNonEmptyString (VString s) = true)
    /\ (forall v, isString v = false -> notNonEmptyString v = true).
Proof.
  intros yaml_parse rel text e fm name description Hopen Hclose Hparse
    Hname Hdesc.
  split; [|split; [reflexivity|split]].
  - unfold ValidateFrontmatter.verdict. rewrite Hopen, Hclose. simpl negb.
    cbv iota. unfold ValidateFrontmatter.checkFrontmatter.
    rewrite Hparse. simpl bind.
    unfold ValidateFrontmatter.required.
    cbn [ValidateFrontmatter.missingFields]. rewrite Hname, Hdesc.
    simpl bind. destruct (truthy name), (truthy description); simpl;
      try reflexivity.
    destruct (notNonEmptyString name); [reflexivity|].
    destruct (notNonEmptyString description); reflexivity.
  - intros s Hne Htrim. simpl. rewrite Htrim. split; [|reflexivity].
    destruct s; [congruence | reflexivity].
  - intros v Hv. destruct v; try reflexivity. discriminate.
Qed.

(** Witness for C8: a [name] that is a number. *)
Lemma field_checks_after_parse_witness :
  ValidateFrontmatter.verdict Sample.yaml (lit "agents/a.md")
    (Sample.text "---|name: 12|description: bar|---|body")
  = ValidateFrontmatter.NameNotNonEmptyString (lit "agents/a.md").
Proof.
  refine (proj1 (@field_checks_after_parse Sample.yaml (lit "agents/a.md")
                   (Sample.text "---|name: 12|description: bar|---|body")
                   29%nat
                   (VObject [(lit "name", VNumber (Finite (inject_Z 12)));
                             (lit "description", VString (lit "bar"))])
                   (VNumber (Finite (inject_Z 12))) (VString (lit "bar"))
                   _ _ _ _ _)); vm_compute; reflexivity.
Defined.

(** C8 as stated fails on the empty string: a [name] that is present and
    empty gets the missing-required-fields line, not the invalid-[name]
    line. *)
Lemma empty_name_reported_missing :
  let text := Sample.text "---|name: ''|description: bar|---|body" in
  Sample.yaml (substring text 4 29)
  = Ok (VObject [(lit "name", VString []);
                 (lit "description", VString (lit "bar"))])
  /\ ValidateFrontmatter.verdict Sample.yaml (lit "agents/a.md") text
     = ValidateFrontmatter.MissingRequiredFields (lit "agents/a.md")
         [lit "name"]
  /\ ValidateFrontmatter.verdict Sample.yaml (lit "agents/a.md") text
     <> ValidateFrontmatter.NameNotNonEmptyString (lit "agents/a.md").
Proof.
  intros text. split; [|split].
  - vm_compute. reflexivity.
  - vm_compute. reflexivity.
  - vm_compute. discriminate.
Qed.

(** ** C4: duplicate names across the run *)

Section SameValueFacts.

Lemma number_eqb_trans (a b c : number) :
  number_eqb a b = true -> number_eqb b c = true -> number_eqb a c = true.
Proof.
  destruct a as [|x|p], b as [|y|q], c as [|z|r]; simpl;
    try discriminate; try reflexivity.
  - destruct x, y, z; simpl; congruence.
  - rewrite !Qeq_bool_iff. apply Qeq_trans.
Qed.

Lemma sameValueZero_trans (a b c : value) :
  sameValueZero a b = true -> sameValueZero b c = true ->
  sameValueZero a c = true.
Proof.
  destruct a, b; simpl; try discriminate; destruct c; simpl;
    try discriminate; try reflexivity.
  - destruct b, b0, b1; simpl; congruence.
  - apply number_eqb_trans.
  - rewrite !str_eqb_eq. congruence.
Qed.

End SameValueFacts.

Section ConsistencyFacts.
Import VerifyConsistency.
Variable yaml_parse : jsstr -> result value.

Let step := fun (s : state) (x : jsstr * (jsstr * jsstr)) =>
              checkFile yaml_parse (fst x) (snd x) s.

(** An earlier file declares the same name. *)
Let declaredBy (v : value) (x : jsstr * (jsstr * jsstr)) : bool :=
  match declaredName yaml_parse (snd (snd x)) with
  | Some n => sameValueZero n v
  | None => false
  end.

Lemma consistency_run_scanned (w : world) :
  run yaml_parse w = fold_left step (scanned w) init.
Proof.
  unfold run, scanned, ValidateFrontmatter.scanned, dirsToCheck.
  rewrite fold_left_flat_map.
  generalize init.
  induction (ValidateFrontmatter.dirsToCheck w) as [|dir dirs IH];
    intros st; simpl; [reflexivity|].
  rewrite <- IH. f_equal. unfold checkDir, markdownFiles.
  destruct (w dir); [|reflexivity].
  rewrite fold_left_map. reflexivity.
Qed.

Lemma has_app (names : list value) (n v : value) :
  has (names ++ [n]) v = has names v || sameValueZero n v.
Proof.
  unfold has. rewrite existsb_app. simpl. rewrite orb_false_r. reflexivity.
Qed.

Lemma has_trans (names : list value) (n v : value) :
  has names n = true -> sameValueZero n v = true -> has names v = true.
Proof.
  unfold has. rewrite !existsb_exists. intros (m & Hm & Hmn) Hnv.
  exists m. split; [assumption|]. eapply sameValueZero_trans; eassumption.
Qed.

(** A file that declares no name leaves [allNames] as it was and is not
    reported as a duplicate. *)
Lemma checkFile_no_name (dir : jsstr) (f : jsstr * jsstr) (st : state) :
  declaredName yaml_parse (snd f) = None ->
  allNames (checkFile yaml_parse dir f st) = allNames st.
Proof.
  unfold declaredName, checkFile, checkFrontmatter. intros H.
  destruct (negb (startsWith (snd f) openDelimiter)); [reflexivity|].
  destruct (indexOf (snd f) closeDelimiter 4); [|reflexivity].
  destruct (yaml_parse _); [|reflexivity].
  destruct (getProp a (lit "name")); [|reflexivity].
  destruct (truthy a0); [discriminate | reflexivity].
Qed.

(** A file that declares a name already in [allNames] is reported as a
    duplicate, and nothing else happens. *)
Lemma checkFile_duplicate (dir : jsstr) (f : jsstr * jsstr) (st : state)
    (name : value) :
  declaredName yaml_parse (snd f) = Some name ->
  has (allNames st) name = true ->
  checkFile yaml_parse dir f st
  = fail st (DuplicateName (relative [dir; fst f]) name).
Proof.
  unfold declaredName, checkFile, checkFrontmatter. intros H Hhas.
  destruct (negb (startsWith (snd f) openDelimiter)); [discriminate|].
  destruct (indexOf (snd f) closeDelimiter 4); [|discriminate].
  destruct (yaml_parse _); [|discriminate].
  destruct (getProp a (lit "name")); [|discriminate].
  destruct (truthy a0); [|discriminate].
  injection H as ->. simpl negb. cbv iota. rewrite Hhas. reflexivity.
Qed.

(** A file that declares a name not yet in [allNames] adds it, and none
    of the lines it prints is a duplicate line. *)
Lemma checkFile_first (dir : jsstr) (f : jsstr * jsstr) (st : state)
    (name : value) :
  declaredName yaml_parse (snd f) = Some name ->
  has (allNames st) name = false ->
  allNames (checkFile yaml_parse dir f st) = allNames st ++ [name]
  /\ exists lines,
      log (checkFile yaml_parse dir f st) = log st ++ lines
      /\ forall rel v, ~ In (DuplicateName rel v) lines.
Proof.
  unfold declaredName, checkFile, checkFrontmatter. intros H Hhas.
  destruct (negb (startsWith (snd f) openDelimiter)); [discriminate|].
  destruct (indexOf (snd f) closeDelimiter 4); [|discriminate].
  destruct (yaml_parse _) as [fm|]; [|discriminate].
  destruct (getProp fm (lit "name")) as [nm|]; [|discriminate].
  destruct (truthy nm); [|discriminate].
  injection H as ->. simpl negb. cbv iota. rewrite Hhas.
  assert (Hdone : forall (st' : state) (lines : list line),
             allNames st' = allNames st ++ [name] ->
             log st' = log st ++ lines ->
             (forall rel v, ~ In (DuplicateName rel v) lines) ->
             allNames st' = allNames st ++ [name]
             /\ exists lines',
                 log st' = log st ++ lines'
                 /\ forall rel v, ~ In (DuplicateName rel v) lines').
  { intros st' lines H1 H2 H3. split; [assumption|].
    exists lines. split; assumption. }
  destruct (missingFields fm required) as [missing|m].
  - destruct (Nat.ltb 0 (List.length missing)).
    + apply Hdone with (lines := [MissingFields (relative [dir; fst f]) missing]);
        [reflexivity | reflexivity |].
      intros rel v [H | []]. discriminate.
    + destruct (lacks _ fm (lit "model")) as [noModel|m1].
      * destruct (lacks _ fm (lit "location")) as [noLocation|m2].
        -- apply Hdone with
             (lines :=
                (if noModel then [ModelRecommended (relative [dir; fst f])]
                 else [])
                ++ (if noLocation
                    then [LocationRecommended (relative [dir; fst f])]
                    else [])
                ++ [Valid (relative [dir; fst f])]).
           ++ destruct noModel, noLocation; reflexivity.
           ++ destruct noModel, noLocation; simpl;
                rewrite <- ?app_assoc; reflexivity.
           ++ intros rel v Hin.
              destruct noModel, noLocation; simpl in Hin;
                repeat (destruct Hin as [Hin | Hin]; [discriminate|]);
                exact Hin.
        -- apply Hdone with
             (lines :=
                (if noModel then [ModelRecommended (relative [dir; fst f])]
                 else [])
                ++ [Error (relative [dir; fst f]) m2]).
           ++ destruct noModel; reflexivity.
           ++ destruct noModel; simpl; rewrite <- ?app_assoc; reflexivity.
           ++ intros rel v Hin.
              destruct noModel; simpl in Hin;
                repeat (destruct Hin as [Hin | Hin]; [discriminate|]);
                exact Hin.
      * apply Hdone with (lines := [Error (relative [dir; fst f]) m1]);
          [reflexivity | reflexivity |].
        intros rel v [H | []]. discriminate.
  - apply Hdone with (lines := [Error (relative [dir; fst f]) m]);
      [reflexivity | reflexivity |].
    intros rel v [H | []]. discriminate.
Qed.

Lemma checkFile_has (dir : jsstr) (f : jsstr * jsstr) (st : state)
    (v : value) :
  has (allNames (checkFile yaml_parse dir f st)) v
  = has (allNames st) v || declaredBy v (dir, f).
Proof.
  unfold declaredBy. simpl snd.
  destruct (declaredName yaml_parse (snd f)) as [n|] eqn:Hd.
  - destruct (has (allNames st) n) eqn:Hn.
    + rewrite (checkFile_duplicate dir f st Hd Hn). simpl.
      destruct (sameValueZero n v) eqn:Hnv.
      * rewrite (@has_trans (allNames st) n v Hn Hnv). reflexivity.
      * rewrite orb_false_r. reflexivity.
    + destruct (checkFile_first dir f st Hd Hn) as [-> _].
      apply has_app.
  - rewrite (checkFile_no_name dir f st Hd), orb_false_r. reflexivity.
Qed.

(** [allNames] has a value exactly when a file scanned so far declares
    it. *)
Lemma fold_has (before : list (jsstr * (jsstr * jsstr))) (v : value) :
  forall st,
    has (allNames (fold_left step before st)) v
    = has (allNames st) v || existsb (declaredBy v) before.
Proof.
  induction before as [|[dir f] before IH]; intros st; simpl.
  - rewrite orb_false_r. reflexivity.
  - rewrite IH. unfold step. simpl fst. simpl snd.
    rewrite checkFile_has, orb_assoc. reflexivity.
Qed.

End ConsistencyFacts.

(** C4, as amended.  Take the files of a whole run in scanning order,
    across the agents, skills and commands directories, and a file among
    them that declares a name.  When the run reaches the file: if a file
    scanned before it, in any of the directories, declares the same value
    (as [Set.prototype.has] compares: strings, numbers and booleans by
    value), one error is counted, the duplicate line is printed and
    nothing else changes; otherwise the name is added to [allNames] and
    none of the lines printed for the file is a duplicate line.  For a
    string, the same value is the same string.  A name that is an array
    or an object is never the same as an earlier one, so it is never
    reported. *)
Theorem duplicate_names_reported_globally :
  forall (yaml_parse : jsstr -> result value) (w : VerifyConsistency.world)
         (before after : list (jsstr * (jsstr * jsstr)))
         (dir : jsstr) (f : jsstr * jsstr) (name : value),
    VerifyConsistency.scanned w = before ++ (dir, f) :: after ->
    VerifyConsistency.declaredName yaml_parse (snd f) = Some name ->
    let step := fun s (x : jsstr * (jsstr * jsstr)) =>
      VerifyConsistency.checkFile yaml_parse (fst x) (snd x) s in
    let st := fold_left step before VerifyConsistency.init in
    let st' := VerifyConsistency.checkFile yaml_parse dir f st in
    let earlier :=
      existsb
        (fun x : jsstr * (jsstr * jsstr) =>
           match VerifyConsistency.declaredName yaml_parse (snd (snd x)) with
           | Some n => sameValueZero n name
           | None => false
           end)
        before in
    VerifyConsistency.run yaml_parse w = fold_left step after st'
    /\ (earlier = true ->
        st' = {| VerifyConsistency.errorCount :=
                   S (VerifyConsistency.errorCount st);
                 VerifyConsistency.allNames := VerifyConsistency.allNames st;
                 VerifyConsistency.log :=
                   VerifyConsistency.log st
                   ++ [VerifyConsistency.DuplicateName
                         (relative [dir; fst f]) name] |})
    /\ (earlier = false ->
        VerifyConsistency.allNames st'
        = VerifyConsistency.allNames st ++ [name]
        /\ exists lines,
            VerifyConsistency.log st' = VerifyConsistency.log st ++ lines
            /\ forall rel v,
                ~ In (VerifyConsistency.DuplicateName rel v) lines)
    /\ (forall s,
           name = VString s ->
           (earlier = true
            <-> exists x,
                In x before
                /\ VerifyConsistency.declaredName yaml_parse (snd (snd x))
                   = Some (VString s)))
    /\ match name with
       | VArray _ | VObject _ => earlier = false
       | _ => True
       end.
Proof.
  intros yaml_parse w before after dir f name Hscan Hname step st st' earlier.
  assert (Hhas : VerifyConsistency.has (VerifyConsistency.allNames st) name
                 = earlier).
  { unfold st, step. rewrite fold_has. reflexivity. }
  split; [|split; [|split; [|split]]].
  - rewrite consistency_run_scanned, Hscan, fold_left_app. reflexivity.
  - intros He. unfold st'.
    rewrite (checkFile_duplicate yaml_parse dir f st Hname);
      [reflexivity | rewrite Hhas; assumption].
  - intros He. apply checkFile_first; [assumption|].
    rewrite Hhas. assumption.
  - intros s ->. unfold earlier. rewrite existsb_exists. split.
    + intros (x & Hx & Hsame). exists x. split; [assumption|].
      destruct (VerifyConsistency.declaredName yaml_parse (snd (snd x)))
        as [n|]; [|discriminate].
      destruct n; simpl in Hsame; try discriminate.
      apply str_eqb_eq in Hsame. subst. reflexivity.
    + intros (x & Hx & Hd). exists x. split; [assumption|].
      rewrite Hd. simpl. apply str_eqb_refl.
  - assert (Hnone : forall (v : value) (l : list (jsstr * (jsstr * jsstr))),
               (forall n, sameValueZero n v = false) ->
               existsb
                 (fun x : jsstr * (jsstr * jsstr) =>
                    match VerifyConsistency.declaredName yaml_parse
                            (snd (snd x)) with
                    | Some n => sameValueZero n v
                    | None => false
                    end) l = false).
    { intros v l Hv. induction l as [|x l IH]; [reflexivity|].
      simpl. rewrite IH.
      destruct (VerifyConsistency.declaredName yaml_parse (snd (snd x)));
        [rewrite Hv|]; reflexivity. }
    destruct name; try exact I; apply Hnone;
      intros n; destruct n; reflexivity.
Qed.

(** Witness for C4: [agents/a.md] and [commands/c.md] both declare the
    name [shared]; the second is reported as a duplicate. *)
Lemma duplicate_names_reported_globally_witness :
  let a := (lit "a.md", Sample.text "---|name: shared|description: x|---|") in
  let c := (lit "c.md", Sample.text "---|name: shared|description: y|---|") in
  let w := fun dir =>
    if str_eqb dir (lit "agents") then Some [a]
    else if str_eqb dir (lit "commands") then Some [c]
    else None in
  let st := VerifyConsistency.checkFile Sample.yaml (lit "agents") a
              VerifyConsistency.init in
  VerifyConsistency.checkFile Sample.yaml (lit "commands") c st
  = {| VerifyConsistency.errorCount := S (VerifyConsistency.errorCount st);
       VerifyConsistency.allNames := VerifyConsistency.allNames st;
       VerifyConsistency.log :=
         VerifyConsistency.log st
         ++ [VerifyConsistency.DuplicateName (lit "commands/c.md")
               (VString (lit "shared"))] |}.
Proof.
  intros a c w st.
  refine (proj1 (proj2 (@duplicate_names_reported_globally Sample.yaml w
                          [(lit "agents", a)] [] (lit "commands") c
                          (VString (lit "shared")) _ _)) _);
    vm_compute; reflexivity.
Defined.

(** C4 as stated fails on names that are not primitive values: two files
    that both declare the sequence [[a]] as their name are both accepted,
    and no duplicate is reported. *)
Lemma sequence_names_never_duplicate :
  let a := (lit "a.md", Sample.text "---|name: [a]|description: x|---|") in
  let c := (lit "c.md", Sample.text "---|name: [a]|description: y|---|") in
  let w := fun dir =>
    if str_eqb dir (lit "agents") then Some [a]
    else if str_eqb dir (lit "commands") then Some [c]
    else None in
  VerifyConsistency.declaredName SampleFlow.yaml (snd a)
  = Some (VArray [VString (lit "a")])
  /\ VerifyConsistency.declaredName SampleFlow.yaml (snd c)
     = Some (VArray [VString (lit "a")])
  /\ VerifyConsistency.log (VerifyConsistency.run SampleFlow.yaml w)
     = [VerifyConsistency.ModelRecommended (lit "agents/a.md");
        VerifyConsistency.Valid (lit "agents/a.md");
        VerifyConsistency.Valid (lit "commands/c.md")]
  /\ VerifyConsistency.errorCount (VerifyConsistency.run SampleFlow.yaml w)
     = 0%nat.
Proof.
  intros a c w. repeat split; vm_compute; reflexivity.
Qed.

(** * Further properties of the scripts *)

(** ** The fixer's transform *)

Section FixTransformFacts.
Import FixIssues.

Lemma changed_false_iff (lines : list jsstr) :
  existsb changed lines = false <-> List.map trimRight lines = lines.
Proof.
  induction lines as [|l ls IH]; simpl; [tauto|].
  rewrite orb_false_iff, IH. unfold changed.
  rewrite negb_false_iff, str_eqb_eq. split.
  - intros [-> ->]. reflexivity.
  - intros H. injection H as H1 H2. auto.
Qed.

Lemma trimmed_lines_free (text : jsstr) :
  Forall (fun l => ~ In LF l) (List.map trimRight (split LF text)).
Proof.
  apply Forall_map. eapply Forall_impl; [|apply split_free].
  intros l Hl Hin. apply Hl. apply trimRight_In. assumption.
Qed.

Lemma trimmed_lines_nonempty (text : jsstr) :
  List.map trimRight (split LF text) <> [].
Proof.
  pose proof (split_nonempty LF text).
  destruct (split LF text); [congruence | discriminate].
Qed.

(** The lines of the output: the lines of the input, each right-trimmed,
    and one empty line more when the final newline was added. *)
Lemma fixContent_lines (text : jsstr) :
  split LF (fst (fixContent text))
  = List.map trimRight (split LF text)
    ++ (if lacksNewline (join [LF] (List.map trimRight (split LF text)))
        then [[]] else []).
Proof.
  rewrite fixContent_spec. cbv zeta.
  destruct (lacksNewline _); simpl fst.
  - rewrite <- join_snoc_empty by apply trimmed_lines_nonempty.
    apply split_join.
    + pose proof (trimmed_lines_nonempty text).
      destruct (List.map trimRight (split LF text)); discriminate.
    + apply Forall_app. split; [apply trimmed_lines_free|].
      constructor; [intros [] | constructor].
  - rewrite app_nil_r. apply split_join;
      [apply trimmed_lines_nonempty | apply trimmed_lines_free].
Qed.

End FixTransformFacts.

(** X1.  The fixer's transform sets [modified] exactly when its output
    differs from the text it read: a file is written back if and only if
    its content changes. *)
Theorem fix_modified_iff_changed :
  forall text,
    snd (FixIssues.fixContent text) = true
    <-> fst (FixIssues.fixContent text) <> text.
Proof.
  intros text.
  pose proof (fixContent_lines text) as Hlines.
  rewrite fixContent_spec in *. cbv zeta in *.
  destruct (FixIssues.lacksNewline _); simpl fst in *; simpl snd.
  - split; [|reflexivity]. intros _ Heq. rewrite Heq in Hlines.
    apply (f_equal (@List.length jsstr)) in Hlines.
    rewrite length_app, length_map in Hlines. simpl in Hlines. lia.
  - rewrite app_nil_r in Hlines. split.
    + intros Hmod Heq. rewrite Heq in Hlines.
      symmetry in Hlines. apply changed_false_iff in Hlines. congruence.
    + intros Hne. destruct (existsb FixIssues.changed (split LF text)) eqn:E;
        [reflexivity|].
      exfalso. apply Hne. apply changed_false_iff in E.
      rewrite E. apply join_split.
Qed.

(** X2.  Line by line, the output of the fixer's transform is the input
    with each line right-trimmed, followed by one empty line when the
    final newline was added; no line of the output ends with white
    space. *)
Theorem fix_output_lines :
  forall text,
    let fixedLines := List.map trimRight (split LF text) in
    split LF (fst (FixIssues.fixContent text))
    = fixedLines
      ++ (if FixIssues.lacksNewline (join [LF] fixedLines) then [[]] else [])
    /\ Forall (fun l => trimRight l = l)
         (split LF (fst (FixIssues.fixContent text)))
    /\ forall l c,
        In (l ++ [c]) (split LF (fst (FixIssues.fixContent text))) ->
        isWhiteSpace c = false.
Proof.
  intros text fixedLines.
  assert (Htrim : Forall (fun l => trimRight l = l)
                    (split LF (fst (FixIssues.fixContent text)))).
  { rewrite fixContent_lines. apply Forall_app. split.
    - apply Forall_map. apply Forall_forall. intros l _.
      apply trimRight_idem.
    - destruct (FixIssues.lacksNewline _); repeat constructor. }
  split; [apply fixContent_lines|]. split; [exact Htrim|].
  intros l c Hin. rewrite Forall_forall in Htrim.
  apply trimmed_last with (l := l). apply Htrim. assumption.
Qed.

Section InkFacts.
Import Measure.

Lemma ink_app (a b : jsstr) : ink (a ++ b) = ink a ++ ink b.
Proof. apply filter_app. Qed.

Lemma ink_cons (c : N) (s : jsstr) :
  ink (c :: s) = (if isWhiteSpace c then [] else [c]) ++ ink s.
Proof. unfold ink. simpl. destruct (isWhiteSpace c); reflexivity. Qed.

Lemma ink_trimRight (s : jsstr) : ink (trimRight s) = ink s.
Proof.
  induction s as [|c r IH]; [reflexivity|]. simpl trimRight.
  destruct (trimRight r) as [|x r'] eqn:E.
  - rewrite ink_cons, <- IH.
    destruct (isWhiteSpace c) eqn:W; [reflexivity|].
    rewrite ink_cons, W. reflexivity.
  - rewrite (ink_cons c (x :: r')), (ink_cons c r), IH. reflexivity.
Qed.

Lemma ink_join (ls : list jsstr) :
  ink (join [LF] ls) = List.concat (List.map ink ls).
Proof.
  induction ls as [|l rest IH]; [reflexivity|].
  destruct rest as [|l' rest'].
  - simpl. rewrite app_nil_r. reflexivity.
  - change (join [LF] (l :: l' :: rest'))
      with (l ++ [LF] ++ join [LF] (l' :: rest')).
    rewrite !ink_app, IH. reflexivity.
Qed.

End InkFacts.

(** X3.  The fixer's transform only removes or adds white space: the
    characters that are not white space are the same, in the same order,
    in the text and in the output. *)
Theorem fix_keeps_ink :
  forall text,
    Measure.ink (fst (FixIssues.fixContent text)) = Measure.ink text.
Proof.
  intros text. rewrite fixContent_spec. cbv zeta.
  assert (H : Measure.ink (join [LF] (List.map trimRight (split LF text)))
              = Measure.ink text).
  { rewrite ink_join, map_map.
    rewrite <- (join_split LF text) at 2. rewrite ink_join.
    f_equal. apply map_ext. intros l. apply ink_trimRight. }
  destruct (FixIssues.lacksNewline _); simpl fst; [|exact H].
  rewrite ink_app, H. apply app_nil_r.
Qed.

(** ** Each file once *)

Section VisitOnceFacts.
Import Measure.
Context {A : Type}.
Variable excluded : list jsstr.
Variable select : jsstr -> bool.

Lemma visitedEntry_under (e : entry A) (dir p : path) (data : A) :
  In (p, data) (visitedEntry excluded select dir e) ->
  exists rest, p = dir ++ entryName e :: rest.
Proof.
  intros Hin.
  destruct (visitedEntry_sound _ _ _ _ _ _ Hin) as (q & -> & Hat & _).
  inversion Hat as [? name d Hin' | ? name children q' d Hin' _]; subst;
    destruct Hin' as [He | []]; subst e; eexists; reflexivity.
Qed.

Lemma visited_list_once (l : list (entry A)) :
  NoDup (List.map entryName l) ->
  Forall (fun e => forall dir,
              NoDup (List.map fst (visitedEntry excluded select dir e))) l ->
  forall dir,
    NoDup (List.map fst (flat_map (visitedEntry excluded select dir) l)).
Proof.
  induction l as [|x l IH]; intros Hnames Hall dir; simpl; [constructor|].
  inversion Hnames as [|? ? Hx Hrest]; subst.
  inversion Hall as [|? ? Hx1 Hall1]; subst.
  rewrite map_app. apply NoDup_app.
  - apply Hx1.
  - apply IH; assumption.
  - intros p Hp1 Hp2. apply Hx.
    apply in_map_iff in Hp1. destruct Hp1 as ([p1 d1] & <- & Hin1).
    apply in_map_iff in Hp2. destruct Hp2 as ([p2 d2] & Heq & Hin2).
    simpl in *. subst p2. apply in_flat_map in Hin2.
    destruct Hin2 as (e & He & Hin2).
    apply visitedEntry_under in Hin1. apply visitedEntry_under in Hin2.
    destruct Hin1 as (r1 & ->). destruct Hin2 as (r2 & Heq).
    apply app_inv_head in Heq. injection Heq as Hname _.
    rewrite Hname. apply in_map. assumption.
Qed.

Lemma visitedEntry_once (e : entry A) :
  match e with
  | Dir _ children => wellNamed children
  | File _ _ => True
  end ->
  forall dir, NoDup (List.map fst (visitedEntry excluded select dir e)).
Proof.
  induction e as [name data | name children IH] using entry_induction;
    intros Hwell dir; simpl.
  - destruct (select name); simpl; repeat constructor. intros [].
  - destruct (includes excluded name); simpl; [constructor|].
    inversion Hwell as [? Hnames Hsub]; subst.
    apply visited_list_once; [assumption|].
    rewrite Forall_forall in IH. apply Forall_forall.
    intros e He. apply IH; [assumption|].
    destruct e as [n d | n cs]; [exact I|]. eapply Hsub. eassumption.
Qed.

Lemma visited_once (files : list (entry A)) :
  wellNamed files ->
  forall dir, NoDup (List.map fst (visited excluded select dir files)).
Proof.
  intros Hwell dir. inversion Hwell as [? Hnames Hsub]; subst.
  unfold visited. apply visited_list_once; [assumption|].
  apply Forall_forall. intros e He. apply visitedEntry_once.
  destruct e as [n d | n cs]; [exact I|]. eapply Hsub. eassumption.
Qed.

End VisitOnceFacts.

(** X6.  On a tree in which no listing names an entry twice, a walk hands
    each path to the callback at most once: the walk is the callback run
    over a list of calls whose paths are all different. *)
Theorem walk_visits_each_file_once :
  forall (A S : Type) (excluded : list jsstr) (select : jsstr -> bool)
         (callback : path -> A -> S -> A * S)
         (files : list (entry A)) (s : S),
    Measure.wellNamed files ->
    snd (Tree.walkDir excluded select callback [] files s)
    = runCallbacks callback (visited excluded select [] files) s
    /\ NoDup (List.map fst (visited excluded select [] files)).
Proof.
  intros A S excluded select callback files s Hwell.
  split; [apply walkDir_state | apply visited_once; assumption].
Qed.

(** Witness for X6: two files and a directory with distinct names. *)
Lemma walk_visits_each_file_once_witness :
  let files := [File (lit "a.js") 1; Dir (lit "src") [File (lit "a.js") 2]] in
  NoDup (List.map fst
           (visited FileSize.EXCLUDED_DIRS (fun _ => true) [] files)).
Proof.
  intros files.
  refine (proj2 (@walk_visits_each_file_once N unit FileSize.EXCLUDED_DIRS
                   (fun _ => true) (fun _ size s => (size, s)) files tt _)).
  constructor.
  - vm_compute. repeat constructor; simpl; intuition discriminate.
  - intros name children [H | [H | []]]; [discriminate|].
    injection H as <- <-. constructor.
    + repeat constructor. intros [].
    + intros n c [H | []]. discriminate.
Defined.

(** ** Counters and exit codes of the three walks *)

Section CounterFacts.
Import Measure.

Lemma filter_length_cons {X : Type} (f : X -> bool) (x : X) (l : list X) :
  List.length (filter f (x :: l))
  = ((if f x then 1 else 0) + List.length (filter f l))%nat.
Proof. simpl. destruct (f x); reflexivity. Qed.

Lemma blocked_count (calls : list (path * file)) :
  forall st,
    BlockedFiles.blockedCount
      (runCallbacks BlockedFiles.callback calls st)
    = (BlockedFiles.blockedCount st
       + List.length
           (filter (fun c => BlockedFiles.isBlocked (fst c)) calls))%nat.
Proof.
  unfold runCallbacks.
  induction calls as [|[p f] calls IH]; intros st.
  - simpl. lia.
  - rewrite filter_length_cons. cbn [fold_left fst snd]. rewrite IH.
    unfold BlockedFiles.callback.
    destruct (BlockedFiles.isBlocked p); [|simpl; lia].
    destruct (readFileSync f); [|simpl; lia].
    destruct (existsb _ BlockedFiles.suspiciousPatterns); simpl; lia.
Qed.

Lemma size_count (toLowerCase : jsstr -> jsstr) (calls : list (path * N)) :
  forall st,
    FileSize.errorCount
      (runCallbacks (FileSize.callback toLowerCase) calls st)
    = (FileSize.errorCount st
       + List.length (filter (oversizeOrVideo toLowerCase) calls))%nat
    /\ List.length
         (FileSize.log (runCallbacks (FileSize.callback toLowerCase) calls st))
       = (List.length (FileSize.log st)
          + List.length (filter (oversizeOrVideo toLowerCase) calls))%nat.
Proof.
  unfold runCallbacks.
  induction calls as [|[p size] calls IH]; intros st.
  - simpl. lia.
  - rewrite filter_length_cons. cbn [fold_left fst snd].
    destruct (IH (snd (FileSize.callback toLowerCase p size st)))
      as [-> ->].
    unfold FileSize.callback, oversizeOrVideo. cbn [fst snd].
    destruct (includes FileSize.VIDEO_EXTS _); simpl;
      [rewrite length_app; simpl; lia|].
    destruct (_ <? size); simpl; [rewrite length_app; simpl; lia | lia].
Qed.

Lemma fix_count (calls : list (path * file)) :
  forall st,
    FixIssues.filesFixed (runCallbacks FixIssues.callback calls st)
    = (FixIssues.filesFixed st
       + List.length (filter (fun c => fixes (snd c)) calls))%nat
    /\ List.length
         (filter isFixed
            (FixIssues.log (runCallbacks FixIssues.callback calls st)))
       = (List.length (filter isFixed (FixIssues.log st))
          + List.length (filter (fun c => fixes (snd c)) calls))%nat.
Proof.
  unfold runCallbacks.
  induction calls as [|[p f] calls IH]; intros st.
  - simpl. lia.
  - rewrite filter_length_cons. cbn [fold_left fst snd].
    destruct (IH (snd (FixIssues.callback p f st))) as [-> ->].
    unfold FixIssues.callback, fixes, readFileSync, writeFileSync.
    destruct (readable f); simpl;
      [|rewrite filter_app, length_app; simpl; lia].
    destruct (FixIssues.fixContent (content f)) as [output modified].
    destruct modified; simpl; [|lia].
    destruct (writable f); simpl; rewrite filter_app, length_app; simpl; lia.
Qed.

Lemma exit_code_of_count (n : nat) :
  (if Nat.ltb 0 n then 1 else 0)%nat = 1%nat <-> (0 < n)%nat.
Proof.
  destruct n; simpl; split; intros; try lia; discriminate.
Qed.

Lemma filter_length_pos {X : Type} (f : X -> bool) (l : list X) :
  (0 < List.length (filter f l))%nat <-> exists x, In x l /\ f x = true.
Proof.
  split.
  - destruct (filter f l) as [|x r] eqn:E; simpl; [lia|]. intros _.
    assert (H : In x (filter f l)) by (rewrite E; left; reflexivity).
    apply filter_In in H. exists x. exact H.
  - intros (x & Hin & Hf).
    assert (H : In x (filter f l)) by (apply filter_In; auto).
    destruct (filter f l); [contradiction | simpl; lia].
Qed.

End CounterFacts.

(** X7.  The detector's counter is the number of scanned files that match
    a blocked pattern, and the script exits with 1 exactly when the tree
    holds such a file under no excluded directory. *)
Theorem blocked_count_and_exit :
  forall files : list (entry file),
    let scannedFiles :=
      visited BlockedFiles.EXCLUDED_DIRS (fun _ => true) [] files in
    BlockedFiles.blockedCount (snd (BlockedFiles.run files))
    = List.length
        (filter (fun c => BlockedFiles.isBlocked (fst c)) scannedFiles)
    /\ (BlockedFiles.exitCode (snd (BlockedFiles.run files)) = 1%nat
        <-> exists p f,
            fileAt files p f
            /\ ~ underExcluded BlockedFiles.EXCLUDED_DIRS p
            /\ BlockedFiles.isBlocked p = true).
Proof.
  intros files scannedFiles.
  assert (Hcount : BlockedFiles.blockedCount (snd (BlockedFiles.run files))
                   = List.length
                       (filter (fun c => BlockedFiles.isBlocked (fst c))
                          scannedFiles)).
  { rewrite blocked_run_calls, blocked_count. reflexivity. }
  split; [exact Hcount|].
  unfold BlockedFiles.exitCode. rewrite exit_code_of_count, Hcount.
  rewrite filter_length_pos. split.
  - intros ([p f] & Hin & Hb). apply visited_iff in Hin.
    destruct Hin as (Hat & Hclean & _). exists p, f.
    split; [assumption|]. split; [|assumption].
    intros (d & Hd & Hex). exact (Hclean d Hd Hex).
  - intros (p & f & Hat & Hclean & Hb). exists (p, f).
    split; [|assumption]. apply visited_iff.
    split; [assumption|]. split; [|reflexivity].
    intros d Hd Hex. apply Hclean. exists d. split; assumption.
Qed.

(** X8.  The size-limit enforcer leaves the tree as it found it; each
    line it prints counts one error; its counter is the number of scanned
    files that are videos or larger than their limit, and the script
    exits with 1 exactly when there is one. *)
Theorem size_count_and_exit :
  forall (toLowerCase : jsstr -> jsstr) (files : list (entry N)),
    let scannedFiles :=
      visited FileSize.EXCLUDED_DIRS (fun _ => true) [] files in
    let st := snd (FileSize.run toLowerCase files) in
    fst (FileSize.run toLowerCase files) = files
    /\ FileSize.errorCount st = List.length (FileSize.log st)
    /\ FileSize.errorCount st
       = List.length
           (filter (Measure.oversizeOrVideo toLowerCase) scannedFiles)
    /\ (FileSize.exitCode st = 1%nat
        <-> exists c,
            In c scannedFiles
            /\ Measure.oversizeOrVideo toLowerCase c = true).
Proof.
  intros toLowerCase files scannedFiles st.
  assert (Hst : st = runCallbacks (FileSize.callback toLowerCase)
                       scannedFiles FileSize.init).
  { unfold st, FileSize.run, FileSize.walkDir. apply walkDir_state. }
  destruct (size_count toLowerCase scannedFiles FileSize.init) as [H1 H2].
  rewrite <- Hst in H1, H2. simpl in H1, H2.
  split; [|split; [lia | split; [exact H1|]]].
  - unfold FileSize.run, FileSize.walkDir. apply walkDir_unchanged.
    intros p size s. unfold FileSize.callback.
    destruct (includes FileSize.VIDEO_EXTS _); [reflexivity|].
    destruct (_ <? size); reflexivity.
  - unfold FileSize.exitCode.
    rewrite exit_code_of_count, H1. apply filter_length_pos.
Qed.

(** X9.  The fixer's counter is the number of [Fixed] lines it prints:
    a file that could not be read or written gets the other line and is
    not counted. *)
Theorem fix_count_is_fixed_lines :
  forall files : list (entry file),
    let st := snd (FixIssues.run files) in
    FixIssues.filesFixed st
    = List.length (filter Measure.isFixed (FixIssues.log st))
    /\ (List.length (FixIssues.log st)
        = FixIssues.filesFixed st
          + List.length
              (filter (fun l => negb (Measure.isFixed l)) (FixIssues.log st)))%nat.
Proof.
  intros files st.
  assert (Hst : st = runCallbacks FixIssues.callback
                       (visited FixIssues.exclude FixIssues.selected []
                          files) FixIssues.init).
  { unfold st, FixIssues.run, FixIssues.walkDir. apply walkDir_state. }
  destruct (fix_count
              (visited FixIssues.exclude FixIssues.selected [] files)
              FixIssues.init) as [H1 H2].
  rewrite <- Hst in H1, H2. simpl in H1, H2.
  assert (Hcount : FixIssues.filesFixed st
                   = List.length
                       (filter Measure.isFixed (FixIssues.log st))) by lia.
  split; [exact Hcount|]. rewrite Hcount.
  generalize (FixIssues.log st). intros l.
  induction l as [|x l IH]; [reflexivity|]. simpl.
  destruct (Measure.isFixed x); simpl; lia.
Qed.

(** ** The blocked patterns *)

Section BlockedPatternFacts.
Import Regex BlockedFiles.

Lemma pattern_blocks (r : pattern) (p : path) :
  In (RegExp r) BLOCKED_PATTERNS ->
  test r (basename p) = true \/ test r (relative p) = true ->
  isBlocked p = true.
Proof.
  intros Hin Htest. unfold isBlocked. apply existsb_exists.
  exists (RegExp r). split; [assumption|].
  apply orb_true_iff. assumption.
Qed.

Lemma lang_cat3 (a b c : re) (s t u : jsstr) :
  lang a s -> lang b t -> lang c u -> lang (cat [a; b; c]) (s ++ t ++ u).
Proof. intros. simpl. repeat constructor; assumption. Qed.

Lemma lang_cat3_inv (a b c : re) (w : jsstr) :
  lang (cat [a; b; c]) w ->
  exists s t u, w = s ++ t ++ u /\ lang a s /\ lang b t /\ lang c u.
Proof.
  simpl. intros H. inversion H as [| |? ? s r Hs Hr| | | |]; subst.
  inversion Hr as [| |? ? t u Ht Hu| | | |]; subst.
  exists s, t, u. auto.
Qed.

(** A literal under the flag [i] matches the texts that lower-case to
    it. *)
Lemma lang_literal_i (w : jsstr) :
  forall s, Sample.asciiLower s = w -> lang (seq_of chr_i w) s.
Proof.
  assert (Hc : forall x, lang (chr_i (if (65 <=? x) && (x <=? 90)
                                      then x + 32 else x)) [x]).
  { intros x. constructor.
    destruct ((65 <=? x) && (x <=? 90)) eqn:E.
    - apply andb_true_iff in E. destruct E as [E1 E2].
      apply N.leb_le in E1, E2.
      replace (x =? x + 32 - 32) with true
        by (symmetry; apply N.eqb_eq; lia).
      replace (97 <=? x + 32) with true
        by (symmetry; apply N.leb_le; lia).
      replace (x + 32 <=? 122) with true
        by (symmetry; apply N.leb_le; lia).
      simpl. apply orb_true_r.
    - rewrite N.eqb_refl. reflexivity. }
  induction w as [|c w IH]; intros s Hs.
  - destruct s; [constructor | discriminate].
  - destruct s as [|x s]; [discriminate|]. simpl in Hs.
    injection Hs as Hx Hs. destruct w as [|d w].
    + destruct s; [|discriminate]. simpl. rewrite <- Hx. apply Hc.
    + change (seq_of chr_i (c :: d :: w))
        with (Cat (chr_i c) (seq_of chr_i (d :: w))).
      change (x :: s) with ([x] ++ s).
      constructor; [rewrite <- Hx; apply Hc | apply IH; assumption].
Qed.

Lemma test_unanchored (r : re) (pre mid post : jsstr) :
  lang r mid -> test (Pattern false r false) (pre ++ mid ++ post) = true.
Proof.
  intros H. apply test_iff. exists pre, mid, post.
  simpl. repeat split; try assumption; discriminate.
Qed.

Lemma test_suffix (r : re) (pre mid : jsstr) :
  lang r mid -> test (Pattern false r true) (pre ++ mid) = true.
Proof.
  intros H. apply test_iff. exists pre, mid, [].
  simpl. rewrite app_nil_r. repeat split; try assumption; discriminate.
Qed.

Lemma relative_app (dirs rest : path) :
  rest <> [] -> exists pre, relative (dirs ++ rest) = pre ++ relative rest.
Proof.
  intros Hne. unfold relative. induction dirs as [|d dirs [pre IH]].
  - exists []. reflexivity.
  - exists (d ++ lit "/" ++ pre). simpl app.
    destruct (dirs ++ rest) as [|x l] eqn:E.
    + destruct dirs; [simpl in E; congruence | discriminate].
    + change (join (lit "/") (d :: x :: l))
        with (d ++ lit "/" ++ join (lit "/") (x :: l)).
      rewrite IH, <- !app_assoc. reflexivity.
Qed.

End BlockedPatternFacts.

(** X10.  The second and third blocked patterns ([.env.local] and
    [.env.<anything>.local]) match no name that the first pattern does
    not already match. *)
Theorem env_local_patterns_subsumed :
  forall name : jsstr,
    Regex.test (Regex.Pattern true (Regex.str ".env.local") true) name = true
    \/ Regex.test
         (Regex.Pattern true
            (Regex.cat [Regex.str ".env."; Regex.Star Regex.dot;
                        Regex.str ".local"]) true) name = true ->
    Regex.test BlockedFiles.envFile name = true.
Proof.
  intros name [H | H]; apply test_iff in H;
    destruct H as (pre & mid & post & -> & Hmid & Hpre & Hpost);
    rewrite (Hpre eq_refl), (Hpost eq_refl), app_nil_r; simpl app;
    simpl Regex.body in Hmid; apply envFile_test_iff; right.
  - apply (lang_literal (lit ".env.local")) in Hmid. subst mid.
    exists (lit "local"). split; reflexivity.
  - apply lang_cat3_inv in Hmid.
    destruct Hmid as (s & t & u & -> & Hs & Ht & Hu).
    apply (lang_literal (lit ".env.")) in Hs.
    apply (lang_literal (lit ".local")) in Hu. subst s u.
    exists (t ++ lit ".local"). split; [reflexivity|].
    rewrite forallb_app. apply lang_star_chr in Ht. rewrite Ht. reflexivity.
Qed.

(** Witness for X10: the name [.env.test.local]. *)
Lemma env_local_patterns_subsumed_witness :
  Regex.test BlockedFiles.envFile (lit ".env.test.local") = true.
Proof.
  apply env_local_patterns_subsumed. right. vm_compute. reflexivity.
Defined.

(** X11.  A scanned file whose name ends with [.key] or [.pem] is
    blocked, whatever comes before the extension and wherever the file
    is. *)
Theorem key_and_pem_files_blocked :
  forall (p : path) (stem : jsstr),
    basename p = stem ++ lit ".key" \/ basename p = stem ++ lit ".pem" ->
    BlockedFiles.isBlocked p = true.
Proof.
  intros p stem [H | H].
  - apply pattern_blocks
      with (r := Regex.Pattern false (Regex.str ".key") true).
    + simpl. auto 10.
    + left. rewrite H. apply test_suffix.
      apply (lang_literal (lit ".key")). reflexivity.
  - apply pattern_blocks
      with (r := Regex.Pattern false (Regex.str ".pem") true).
    + simpl. auto 10.
    + left. rewrite H. apply test_suffix.
      apply (lang_literal (lit ".pem")). reflexivity.
Qed.

(** Witness for X11: [certs/server.pem]. *)
Lemma key_and_pem_files_blocked_witness :
  BlockedFiles.isBlocked [lit "certs"; lit "server.pem"] = true.
Proof.
  apply key_and_pem_files_blocked with (stem := lit "server").
  right. reflexivity.
Defined.

(** X12.  A scanned file is blocked when its name contains, in any mix
    of upper and lower case, the word [credentials], or one of the pairs
    private key, secret key, oauth token, api key, auth token joined by a
    hyphen or an underscore. *)
Theorem secret_name_fragments_blocked :
  forall (p : path) (pre frag post : jsstr),
    basename p = pre ++ frag ++ post ->
    Sample.asciiLower frag = lit "credentials"
    \/ (exists a sep b,
           frag = a ++ [sep] ++ b
           /\ (sep = 45 \/ sep = 95)
           /\ In (Sample.asciiLower a, Sample.asciiLower b)
                [(lit "private", lit "key"); (lit "secret", lit "key");
                 (lit "oauth", lit "token"); (lit "api", lit "key");
                 (lit "auth", lit "token")]) ->
    BlockedFiles.isBlocked p = true.
Proof.
  intros p pre frag post Hname [Hc | (a & sep & b & -> & Hsep & Hin)].
  - apply pattern_blocks
      with (r := Regex.Pattern false (Regex.str_i "credentials") false).
    + simpl. auto 20.
    + left. rewrite Hname. apply test_unanchored.
      apply lang_literal_i. assumption.
  - assert (Hcls : Regex.lang (Regex.cls "-_") [sep]).
    { constructor. destruct Hsep as [-> | ->]; reflexivity. }
    assert (Hpair : forall x y : string,
               Sample.asciiLower a = lit x ->
               Sample.asciiLower b = lit y ->
               In (BlockedFiles.RegExp
                     (Regex.Pattern false
                        (Regex.cat [Regex.str_i x; Regex.cls "-_";
                                    Regex.str_i y]) false))
                  BlockedFiles.BLOCKED_PATTERNS ->
               BlockedFiles.isBlocked p = true).
    { intros x y Ha Hb Hpat. eapply pattern_blocks; [exact Hpat|].
      left. rewrite Hname. apply test_unanchored.
      apply lang_cat3; [apply lang_literal_i | | apply lang_literal_i];
        assumption. }
    simpl in Hin.
    destruct Hin as [H | [H | [H | [H | [H | []]]]]];
      injection H as Ha Hb; symmetry in Ha, Hb.
    + apply (Hpair "private" "key")%string; [assumption..|simpl; auto 20].
    + apply (Hpair "secret" "key")%string; [assumption..|simpl; auto 20].
    + apply (Hpair "oauth" "token")%string; [assumption..|simpl; auto 20].
    + apply (Hpair "api" "key")%string; [assumption..|simpl; auto 20].
    + apply (Hpair "auth" "token")%string; [assumption..|simpl; auto 20].
Qed.

(** Witness for X12: [config/My_API-Key.txt]. *)
Lemma secret_name_fragments_blocked_witness :
  BlockedFiles.isBlocked [lit "config"; lit "My_API-Key.txt"] = true.
Proof.
  apply secret_name_fragments_blocked
    with (pre := lit "My_") (frag := lit "API-Key") (post := lit ".txt").
  - reflexivity.
  - right. exists (lit "API"), 45, (lit "Key").
    split; [reflexivity|]. split; [left; reflexivity|].
    vm_compute. auto 10.
Defined.

(** X13.  The IDE patterns are tested on the path: a file
    [settings.json] directly in a directory [.vscode], at any depth, is
    blocked; so is any file whose path from the root ends with
    [.vscode/settings.json], or holds [.idea/] and ends with [.xml] or
    [.yml] with no line terminator in between. *)
Theorem ide_settings_blocked :
  (forall dirs : path,
      BlockedFiles.isBlocked (dirs ++ [lit ".vscode"; lit "settings.json"])
      = true)
  /\ (forall (p : path) (pre : jsstr),
         relative p = pre ++ lit ".vscode/settings.json" ->
         BlockedFiles.isBlocked p = true)
  /\ (forall (p : path) (pre mid : jsstr),
         relative p = pre ++ lit ".idea/" ++ mid ++ lit ".xml"
         \/ relative p = pre ++ lit ".idea/" ++ mid ++ lit ".yml" ->
         forallb (fun c => negb (isLineTerminator c)) mid = true ->
         BlockedFiles.isBlocked p = true).
Proof.
  assert (Hvs : forall (p : path) (pre : jsstr),
             relative p = pre ++ lit ".vscode/settings.json" ->
             BlockedFiles.isBlocked p = true).
  { intros p pre H.
    apply pattern_blocks
      with (r := Regex.Pattern false (Regex.str ".vscode/settings.json") true).
    - simpl. auto 20.
    - right. rewrite H. apply test_suffix.
      apply (lang_literal (lit ".vscode/settings.json")). reflexivity. }
  split; [|split; [exact Hvs|]].
  - intros dirs.
    destruct (@relative_app dirs [lit ".vscode"; lit "settings.json"])
      as (pre & Hpre); [discriminate|].
    apply (Hvs _ pre). rewrite Hpre. reflexivity.
  - intros p pre mid [H | H] Hmid.
    + apply pattern_blocks
        with (r := Regex.Pattern false
                     (Regex.cat [Regex.str ".idea/";
                                 Regex.Star Regex.dot;
                                 Regex.str ".xml"]) true).
      * simpl. auto 20.
      * right. rewrite H. apply test_suffix. apply lang_cat3.
        -- apply (lang_literal (lit ".idea/")). reflexivity.
        -- apply lang_star_chr. assumption.
        -- apply (lang_literal (lit ".xml")). reflexivity.
    + apply pattern_blocks
        with (r := Regex.Pattern false
                     (Regex.cat [Regex.str ".idea/";
                                 Regex.Star Regex.dot;
                                 Regex.str ".yml"]) true).
      * simpl. auto 20.
      * right. rewrite H. apply test_suffix. apply lang_cat3.
        -- apply (lang_literal (lit ".idea/")). reflexivity.
        -- apply lang_star_chr. assumption.
        -- apply (lang_literal (lit ".yml")). reflexivity.
Qed.

(** Witness for X13: [app/.idea/gradle/misc.xml]. *)
Lemma ide_settings_blocked_witness :
  BlockedFiles.isBlocked
    [lit "app"; lit ".idea"; lit "gradle"; lit "misc.xml"] = true.
Proof.
  apply (proj2 (proj2 ide_settings_blocked)
           [lit "app"; lit ".idea"; lit "gradle"; lit "misc.xml"]
           (lit "app/") (lit "gradle/misc")).
  - left. reflexivity.
  - reflexivity.
Defined.

(** ** The frontmatter validator: the run and the verdicts *)

Section ValidateRunFacts.
Import ValidateFrontmatter.
Variable yaml_parse : jsstr -> result value.

Let verdictOf (x : jsstr * (jsstr * jsstr)) : line :=
  verdict yaml_parse (relative [fst x; fst (snd x)]) (snd (snd x)).

Lemma validate_fold_counts (l : list (jsstr * (jsstr * jsstr))) :
  forall st,
    let st' :=
      fold_left (fun s x => checkFile yaml_parse (fst x) (snd x) s) l st in
    fileCount st' = (fileCount st + List.length l)%nat
    /\ errorCount st'
       = (errorCount st
          + List.length (filter isError (List.map verdictOf l)))%nat.
Proof.
  induction l as [|x l IH]; intros st; simpl.
  - lia.
  - destruct (IH (checkFile yaml_parse (fst x) (snd x) st)) as [H1 H2].
    rewrite H1, H2. unfold checkFile. fold (verdictOf x).
    destruct (isError (verdictOf x)); simpl; lia.
Qed.

Lemma scanned_iff (w : world) (dir name text : jsstr) :
  In (dir, (name, text)) (scanned w) <->
  In dir [lit "agents"; lit "skills"; lit "commands"]
  /\ exists files,
      w dir = Some files
      /\ In (name, text) files
      /\ endsWith name (lit ".md") = true.
Proof.
  unfold scanned, dirsToCheck. rewrite in_flat_map. split.
  - intros (d & Hd & Hin). apply filter_In in Hd. destruct Hd as [Hd _].
    destruct (w d) as [files|] eqn:Hw; [|contradiction].
    apply in_map_iff in Hin. destruct Hin as ([n t] & Heq & Hf).
    injection Heq as -> -> ->. unfold markdownFiles in Hf.
    apply filter_In in Hf. destruct Hf as [Hf Hmd].
    split; [assumption|]. exists files. auto.
  - intros (Hd & files & Hw & Hf & Hmd). exists dir. split.
    + apply filter_In. split; [assumption|]. rewrite Hw. reflexivity.
    + rewrite Hw. apply in_map_iff. exists (name, text).
      split; [reflexivity|]. unfold markdownFiles. apply filter_In.
      split; assumption.
Qed.

End ValidateRunFacts.

(** X14.  The frontmatter validator counts every scanned file once and
    one error for every line that is not a [Valid] line; it exits with 0
    exactly when every scanned file is valid. *)
Theorem validate_counts_and_exit :
  forall (yaml_parse : jsstr -> result value) (w : ValidateFrontmatter.world),
    let st := ValidateFrontmatter.run yaml_parse w in
    ValidateFrontmatter.fileCount st
    = List.length (ValidateFrontmatter.scanned w)
    /\ ValidateFrontmatter.errorCount st
       = List.length
           (filter ValidateFrontmatter.isError (ValidateFrontmatter.log st))
    /\ (ValidateFrontmatter.exitCode st = 0%nat
        <-> forall dir name text,
            In (dir, (name, text)) (ValidateFrontmatter.scanned w) ->
            ValidateFrontmatter.verdict yaml_parse (relative [dir; name]) text
            = ValidateFrontmatter.Valid (relative [dir; name])).
Proof.
  intros yaml_parse w st.
  destruct (validate_fold_counts yaml_parse (ValidateFrontmatter.scanned w)
              ValidateFrontmatter.init) as [H1 H2].
  rewrite <- validate_run_scanned in H1, H2. fold st in H1, H2.
  simpl in H1, H2. rewrite <- (validate_run_log yaml_parse w) in H2.
  fold st in H2. split; [exact H1|]. split; [exact H2|].
  unfold ValidateFrontmatter.exitCode. rewrite H2.
  unfold st. rewrite validate_run_log.
  set (verdictOf := fun x : jsstr * (jsstr * jsstr) =>
         ValidateFrontmatter.verdict yaml_parse
           (relative [fst x; fst (snd x)]) (snd (snd x))).
  assert (Hv : forall dir name text,
             ValidateFrontmatter.isError (verdictOf (dir, (name, text)))
             = false
             <-> verdictOf (dir, (name, text))
                 = ValidateFrontmatter.Valid (relative [dir; name])).
  { intros dir name text. unfold verdictOf. simpl fst. simpl snd.
    unfold ValidateFrontmatter.verdict,
      ValidateFrontmatter.checkFrontmatter, bind.
    destruct (negb _); [split; discriminate|].
    destruct (indexOf _ _ _); [|split; discriminate].
    destruct (yaml_parse _); [|split; discriminate].
    destruct (ValidateFrontmatter.missingFields _ _);
      [|split; discriminate].
    destruct (Nat.ltb _ _); [split; discriminate|].
    destruct (getProp _ (lit "name")); [|split; discriminate].
    destruct (notNonEmptyString _); [split; discriminate|].
    destruct (getProp _ (lit "description")); [|split; discriminate].
    destruct (notNonEmptyString _); [split; discriminate|].
    split; reflexivity. }
  split.
  - intros Hexit dir name text Hin. apply Hv.
    destruct (ValidateFrontmatter.isError (verdictOf (dir, (name, text))))
      eqn:E; [|reflexivity].
    exfalso.
    assert (Hpos : (0 < List.length
                          (filter ValidateFrontmatter.isError
                             (List.map verdictOf
                                (ValidateFrontmatter.scanned w))))%nat).
    { apply filter_length_pos. exists (verdictOf (dir, (name, text))).
      split; [apply in_map; assumption | assumption]. }
    apply Nat.ltb_lt in Hpos. rewrite Hpos in Hexit. discriminate.
  - intros Hall.
    destruct (filter ValidateFrontmatter.isError
                (List.map verdictOf (ValidateFrontmatter.scanned w)))
      as [|l ls] eqn:E; [reflexivity|].
    exfalso.
    assert (Hl : In l (filter ValidateFrontmatter.isError
                         (List.map verdictOf
                            (ValidateFrontmatter.scanned w))))
      by (rewrite E; left; reflexivity).
    apply filter_In in Hl. destruct Hl as [Hl Herr].
    apply in_map_iff in Hl. destruct Hl as ([dir [name text]] & <- & Hin).
    rewrite (proj2 (Hv dir name text) (Hall dir name text Hin)) in Herr.
    discriminate.
Qed.

(** X15.  The lines of a run of the frontmatter validator are the
    verdicts of the entries whose name ends with [.md], directly inside
    those of the directories agents, skills and commands that exist, and
    of nothing else: an entry with another name, or a directory that is
    missing, gives no line. *)
Theorem validate_scans_markdown_only :
  forall (yaml_parse : jsstr -> result value) (w : ValidateFrontmatter.world)
         (l : ValidateFrontmatter.line),
    In l (ValidateFrontmatter.log (ValidateFrontmatter.run yaml_parse w))
    <-> exists dir name text files,
        In dir [lit "agents"; lit "skills"; lit "commands"]
        /\ w dir = Some files
        /\ In (name, text) files
        /\ endsWith name (lit ".md") = true
        /\ l = ValidateFrontmatter.verdict yaml_parse
                 (relative [dir; name]) text.
Proof.
  intros yaml_parse w l. rewrite validate_run_log, in_map_iff. split.
  - intros ([dir [name text]] & <- & Hin).
    apply scanned_iff in Hin. destruct Hin as (Hdir & files & Hw & Hf & Hmd).
    exists dir, name, text, files. auto 10.
  - intros (dir & name & text & files & Hdir & Hw & Hf & Hmd & ->).
    exists (dir, (name, text)). split; [reflexivity|].
    apply scanned_iff. split; [assumption|]. exists files. auto.
Qed.

Section VerdictFacts.
Import ValidateFrontmatter.

Lemma notNonEmptyString_false (v : value) :
  notNonEmptyString v = false <-> exists s, v = VString s /\ trim s <> [].
Proof.
  split.
  - destruct v; simpl; try discriminate. intros H. exists s.
    split; [reflexivity|]. apply str_eqb_neq. assumption.
  - intros (s & -> & Hs). simpl. apply str_eqb_neq. assumption.
Qed.

Lemma trim_nonempty_truthy (s : jsstr) :
  trim s <> [] -> truthy (VString s) = true.
Proof. destruct s; [intros H; exfalso; apply H|]; reflexivity. Qed.

Lemma startsWith_app (p rest : jsstr) : startsWith (p ++ rest) p = true.
Proof.
  induction p as [|c p IH]; simpl; [destruct rest; reflexivity|].
  rewrite N.eqb_refl. exact IH.
Qed.

(** [indexOf_at] returns the first index at which the pattern occurs. *)
Lemma indexOf_at_first (p : jsstr) (k : nat) :
  forall s pos,
    (forall j : nat, (j < k)%nat -> startsWith (skipn j s) p = false) ->
    startsWith (skipn k s) p = true ->
    indexOf_at s p pos = Some (pos + k)%nat.
Proof.
  induction k as [|k IH]; intros s pos Hbefore Hat.
  - destruct s; simpl in *; rewrite Hat; f_equal; lia.
  - destruct s as [|c s].
    + simpl in Hat. specialize (Hbefore O (Nat.lt_0_succ _)).
      simpl in Hbefore. congruence.
    + cbn [indexOf_at].
      pose proof (Hbefore O (Nat.lt_0_succ _)) as H0. cbn [skipn] in H0.
      rewrite H0.
      rewrite (IH s (S pos)); [f_equal; lia | | exact Hat].
      intros j Hj. apply (Hbefore (S j)). lia.
Qed.

End VerdictFacts.

(** The verdict is [Valid] exactly on well-formed files. *)
Lemma verdict_valid_iff :
  forall (yaml_parse : jsstr -> result value) (rel text : jsstr),
    ValidateFrontmatter.verdict yaml_parse rel text
    = ValidateFrontmatter.Valid rel
    <-> startsWith text ValidateFrontmatter.openDelimiter = true
        /\ exists endDelimiter frontmatter name description,
            indexOf text ValidateFrontmatter.closeDelimiter 4
            = Some endDelimiter
            /\ yaml_parse (substring text 4 endDelimiter) = Ok frontmatter
            /\ getProp frontmatter (lit "name") = Ok (VString name)
            /\ getProp frontmatter (lit "description")
               = Ok (VString description)
            /\ trim name <> []
            /\ trim description <> [].
Proof.
  intros yaml_parse rel text.
  unfold ValidateFrontmatter.verdict, ValidateFrontmatter.checkFrontmatter,
    ValidateFrontmatter.required.
  cbn [ValidateFrontmatter.missingFields]. split.
  - destruct (startsWith text _); simpl negb; cbv iota; [|discriminate].
    destruct (indexOf text _ 4) as [e|]; [|discriminate].
    destruct (yaml_parse _) as [fm|] eqn:Hfm; simpl bind; [|discriminate].
    destruct (getProp fm (lit "name")) as [n|] eqn:Hgn; simpl bind;
      [|discriminate].
    destruct (getProp fm (lit "description")) as [d|] eqn:Hgd; simpl bind;
      [|discriminate].
    destruct (Nat.ltb _ _); [discriminate|].
    destruct (notNonEmptyString n) eqn:Hn; [discriminate|].
    destruct (notNonEmptyString d) eqn:Hd; [discriminate|].
    intros _. split; [reflexivity|].
    apply notNonEmptyString_false in Hn, Hd.
    destruct Hn as (sn & -> & Hsn). destruct Hd as (sd & -> & Hsd).
    exists e, fm, sn, sd. auto 10.
  - intros (Hopen & e & fm & n & d & He & Hfm & Hn & Hd & Htn & Htd).
    rewrite Hopen, He, Hfm. simpl negb. cbv iota. simpl bind.
    rewrite Hn, Hd. simpl bind.
    destruct n as [|cn rn]; [exfalso; apply Htn; reflexivity|].
    destruct d as [|cd rd]; [exfalso; apply Htd; reflexivity|].
    apply str_eqb_neq in Htn, Htd. cbn [str_eqb negb List.length Nat.ltb
      Nat.leb]. rewrite Htn, Htd. reflexivity.
Qed.

(** X16.  The frontmatter validator prints [Valid] for a file exactly
    when the text starts with the opening delimiter, a closing delimiter
    is found from index 4 on, the text between them parses, and both
    [name] and [description] are strings that are not empty after
    trimming. *)
Theorem valid_verdict_iff :
  forall (yaml_parse : jsstr -> result value) (rel text : jsstr),
    ValidateFrontmatter.verdict yaml_parse rel text
    = ValidateFrontmatter.Valid rel
    <-> startsWith text ValidateFrontmatter.openDelimiter = true
        /\ exists endDelimiter frontmatter name description,
            indexOf text ValidateFrontmatter.closeDelimiter 4
            = Some endDelimiter
            /\ yaml_parse (substring text 4 endDelimiter) = Ok frontmatter
            /\ getProp frontmatter (lit "name") = Ok (VString name)
            /\ getProp frontmatter (lit "description")
               = Ok (VString description)
            /\ trim name <> []
            /\ trim description <> [].
Proof.
  intros yaml_parse rel text. split; intros H.
  - apply (proj1 (verdict_valid_iff yaml_parse rel text)). exact H.
  - apply (proj2 (verdict_valid_iff yaml_parse rel text)). exact H.
Qed.

(** X17.  When the text between the delimiters does not parse, or parses
    to [null] or [undefined] (an empty block), the validator prints the
    invalid-YAML line, with the parser's message in the first case: the
    error thrown by reading a property of [null] is caught, and no
    missing-field line is printed. *)
Theorem unparsable_frontmatter_is_invalid_yaml :
  forall (yaml_parse : jsstr -> result value) (rel text : jsstr)
         (endDelimiter : nat),
    startsWith text ValidateFrontmatter.openDelimiter = true ->
    indexOf text ValidateFrontmatter.closeDelimiter 4 = Some endDelimiter ->
    (forall message,
        yaml_parse (substring text 4 endDelimiter) = Throw message ->
        ValidateFrontmatter.verdict yaml_parse rel text
        = ValidateFrontmatter.InvalidYaml rel message)
    /\ (yaml_parse (substring text 4 endDelimiter) = Ok VNull
        \/ yaml_parse (substring text 4 endDelimiter) = Ok VUndefined ->
        exists message,
          ValidateFrontmatter.verdict yaml_parse rel text
          = ValidateFrontmatter.InvalidYaml rel message).
Proof.
  intros yaml_parse rel text e Hopen He.
  unfold ValidateFrontmatter.verdict, ValidateFrontmatter.checkFrontmatter.
  rewrite Hopen, He. simpl negb. cbv iota. split.
  - intros message ->. reflexivity.
  - intros [-> | ->]; eexists; reflexivity.
Qed.

(** Witness for X17: a file whose frontmatter block is one empty line. *)
Lemma unparsable_frontmatter_is_invalid_yaml_witness :
  exists message,
    ValidateFrontmatter.verdict Sample.yaml (lit "agents/a.md")
      (Sample.text "---||---|body")
    = ValidateFrontmatter.InvalidYaml (lit "agents/a.md") message.
Proof.
  refine (proj2 (@unparsable_frontmatter_is_invalid_yaml Sample.yaml
                   (lit "agents/a.md") (Sample.text "---||---|body")
                   4%nat _ _) _).
  - vm_compute. reflexivity.
  - vm_compute. reflexivity.
  - left. vm_compute. reflexivity.
Defined.

(** X18.  The frontmatter is cut between index 4 and the first closing
    delimiter found from there: for a text made of the three dashes, any
    one character (it is skipped unread), a block in which the delimiter
    does not start, the delimiter and a body, the block is what is
    parsed, and the verdict is that of the block. *)
Theorem frontmatter_block_extracted :
  forall (yaml_parse : jsstr -> result value) (rel block body : jsstr)
         (c : N),
    (forall j : nat,
        (j < List.length block)%nat ->
        startsWith
          (skipn j (block ++ ValidateFrontmatter.closeDelimiter ++ body))
          ValidateFrontmatter.closeDelimiter = false) ->
    let text :=
      lit "---" ++ [c] ++ block ++ ValidateFrontmatter.closeDelimiter
      ++ body in
    indexOf text ValidateFrontmatter.closeDelimiter 4
    = Some (4 + List.length block)%nat
    /\ substring text 4 (4 + List.length block) = block
    /\ ValidateFrontmatter.verdict yaml_parse rel text
       = match ValidateFrontmatter.checkFrontmatter yaml_parse rel block with
         | Ok l => l
         | Throw message => ValidateFrontmatter.InvalidYaml rel message
         end.
Proof.
  intros yaml_parse rel block body c Hfirst text.
  assert (Hskip : skipn 4 text
                  = block ++ ValidateFrontmatter.closeDelimiter ++ body)
    by reflexivity.
  assert (Hidx : indexOf text ValidateFrontmatter.closeDelimiter 4
                 = Some (4 + List.length block)%nat).
  { unfold indexOf.
    replace (Nat.min 4 (List.length text)) with 4%nat
      by (unfold text; simpl; lia).
    rewrite Hskip. apply indexOf_at_first; [exact Hfirst|].
    rewrite skipn_app, skipn_all, Nat.sub_diag.
    apply (startsWith_app ValidateFrontmatter.closeDelimiter body). }
  assert (Hsub : substring text 4 (4 + List.length block) = block).
  { unfold substring. rewrite Hskip.
    replace (4 + List.length block - 4)%nat with (List.length block) by lia.
    rewrite firstn_app, firstn_all, Nat.sub_diag. simpl.
    apply app_nil_r. }
  split; [exact Hidx|]. split; [exact Hsub|].
  unfold ValidateFrontmatter.verdict.
  replace (startsWith text ValidateFrontmatter.openDelimiter) with true
    by (unfold text; simpl; reflexivity).
  simpl negb. cbv iota. rewrite Hidx. cbv zeta. rewrite Hsub. reflexivity.
Qed.

(** Witness for X18: the character after the dashes is a space. *)
Lemma frontmatter_block_extracted_witness :
  ValidateFrontmatter.verdict Sample.yaml (lit "agents/a.md")
    (lit "--- " ++ Sample.text "name: foo|description: bar|---|body")
  = ValidateFrontmatter.Valid (lit "agents/a.md").
Proof.
  refine (eq_trans
            (proj2 (proj2 (@frontmatter_block_extracted Sample.yaml
                             (lit "agents/a.md")
                             (Sample.text "name: foo|description: bar")
                             (lit "body") 32 _))) _).
  - intros j Hj.
    do 26 (destruct j as [|j]; [vm_compute; reflexivity|]).
    replace (List.length (Sample.text "name: foo|description: bar"))
      with 26%nat in Hj by (vm_compute; reflexivity).
    lia.
  - vm_compute. reflexivity.
Defined.

(** X19.  A file whose frontmatter block is empty, the closing dashes
    right after the opening ones, gets the missing-end-delimiter line:
    the search for the closing delimiter starts at index 4, past the line
    feed that opens it. *)
Theorem empty_frontmatter_block_rejected :
  forall (yaml_parse : jsstr -> result value) (rel body : jsstr),
    indexOf (LF :: body) ValidateFrontmatter.closeDelimiter 0 = None ->
    ValidateFrontmatter.verdict yaml_parse rel
      (lit "---" ++ [LF] ++ lit "---" ++ [LF] ++ body)
    = ValidateFrontmatter.MissingEndDelimiter rel.
Proof.
  intros yaml_parse rel body Hbody.
  unfold ValidateFrontmatter.verdict.
  replace (startsWith _ ValidateFrontmatter.openDelimiter) with true
    by reflexivity.
  simpl negb. cbv iota.
  assert (Hnone : indexOf (lit "---" ++ [LF] ++ lit "---" ++ [LF] ++ body)
                    ValidateFrontmatter.closeDelimiter 4 = None).
  { apply indexOf_None. intros i Hi.
    pose proof (proj1 (indexOf_None _ _ _) Hbody) as Hb.
    do 4 (destruct i as [|i]; [lia|]).
    do 3 (destruct i as [|i]; [reflexivity|]).
    apply (Hb i). lia. }
  rewrite Hnone. reflexivity.
Qed.

(** Witness for X19: the body is plain text. *)
Lemma empty_frontmatter_block_rejected_witness :
  ValidateFrontmatter.verdict Sample.yaml (lit "agents/a.md")
    (lit "---" ++ [LF] ++ lit "---" ++ [LF] ++ lit "body")
  = ValidateFrontmatter.MissingEndDelimiter (lit "agents/a.md").
Proof.
  apply empty_frontmatter_block_rejected. vm_compute. reflexivity.
Defined.

(** ** The consistency validator: names, counters, recommendations *)

Section ConsistencyRunFacts.
Import VerifyConsistency Measure.
Variable yaml_parse : jsstr -> result value.

Let step := fun (s : state) (x : jsstr * (jsstr * jsstr)) =>
              checkFile yaml_parse (fst x) (snd x) s.

Lemma declaredName_truthy (text : jsstr) (name : value) :
  declaredName yaml_parse text = Some name -> truthy name = true.
Proof.
  unfold declaredName.
  destruct (negb _); [discriminate|].
  destruct (indexOf _ _ _); [|discriminate].
  destruct (yaml_parse _); [|discriminate].
  destruct (getProp _ _) as [nm|]; [|discriminate].
  destruct (truthy nm) eqn:E; [|discriminate].
  intros H. injection H as <-. exact E.
Qed.

Lemma distinct_snoc (names : list value) (v : value) :
  ForallOrdPairs (fun a b => sameValueZero a b = false) names ->
  has names v = false ->
  ForallOrdPairs (fun a b => sameValueZero a b = false) (names ++ [v]).
Proof.
  induction 1 as [|a l Ha Hl IH]; intros Hhas; simpl.
  - constructor; [constructor | constructor].
  - unfold has in Hhas. simpl in Hhas. apply orb_false_iff in Hhas.
    destruct Hhas as [Hav Hlv]. constructor.
    + apply Forall_app. split; [assumption|]. constructor; [assumption|].
      constructor.
    + apply IH. exact Hlv.
Qed.

(** The names recorded so far are truthy and pairwise different. *)
Lemma names_invariant (l : list (jsstr * (jsstr * jsstr))) :
  forall st,
    ForallOrdPairs (fun a b => sameValueZero a b = false) (allNames st) ->
    Forall (fun v => truthy v = true) (allNames st) ->
    ForallOrdPairs (fun a b => sameValueZero a b = false)
      (allNames (fold_left step l st))
    /\ Forall (fun v => truthy v = true) (allNames (fold_left step l st)).
Proof.
  induction l as [|[dir f] l IH]; intros st Hd Ht; simpl; [auto|].
  apply IH; unfold step; simpl fst; simpl snd.
  - destruct (declaredName yaml_parse (snd f)) as [n|] eqn:Hn.
    + destruct (has (allNames st) n) eqn:Hhas.
      * rewrite (checkFile_duplicate yaml_parse dir f st Hn Hhas). exact Hd.
      * destruct (checkFile_first yaml_parse dir f st Hn Hhas) as [-> _].
        apply distinct_snoc; assumption.
    + rewrite (checkFile_no_name yaml_parse dir f st Hn). exact Hd.
  - destruct (declaredName yaml_parse (snd f)) as [n|] eqn:Hn.
    + destruct (has (allNames st) n) eqn:Hhas.
      * rewrite (checkFile_duplicate yaml_parse dir f st Hn Hhas). exact Ht.
      * destruct (checkFile_first yaml_parse dir f st Hn Hhas) as [-> _].
        apply Forall_app. split; [assumption|].
        constructor; [|constructor].
        eapply declaredName_truthy. eassumption.
    + rewrite (checkFile_no_name yaml_parse dir f st Hn). exact Ht.
Qed.

End ConsistencyRunFacts.

Section RecordedNameFacts.
Import VerifyConsistency.
Variable yaml_parse : jsstr -> result value.

Let step := fun (s : state) (x : jsstr * (jsstr * jsstr)) =>
              checkFile yaml_parse (fst x) (snd x) s.

(** A run only adds names, each one declared by a file it scanned. *)
Lemma names_grow (l : list (jsstr * (jsstr * jsstr))) :
  forall st,
    exists more,
      allNames (fold_left step l st) = allNames st ++ more
      /\ forall n, In n more ->
                   exists x, In x l
                             /\ declaredName yaml_parse (snd (snd x)) = Some n.
Proof.
  induction l as [|[dir f] l IH]; intros st; simpl.
  - exists []. rewrite app_nil_r. split; [reflexivity | intros n []].
  - change (step st (dir, f)) with (checkFile yaml_parse dir f st).
    destruct (IH (checkFile yaml_parse dir f st)) as (more & Hmore & Hdecl).
    assert (Hcase : allNames (checkFile yaml_parse dir f st) = allNames st
                    \/ exists n,
                        declaredName yaml_parse (snd f) = Some n
                        /\ allNames (checkFile yaml_parse dir f st)
                           = allNames st ++ [n]).
    { destruct (declaredName yaml_parse (snd f)) as [n|] eqn:Hn.
      - destruct (has (allNames st) n) eqn:Hhas.
        + left. rewrite (checkFile_duplicate yaml_parse dir f st Hn Hhas).
          reflexivity.
        + right. exists n. split; [reflexivity|].
          apply (checkFile_first yaml_parse dir f st Hn Hhas).
      - left. apply checkFile_no_name. exact Hn. }
    destruct Hcase as [Hsame | (n & Hn & Hadd)].
    + rewrite Hsame in Hmore. exists more. split; [exact Hmore|].
      intros m Hm. destruct (Hdecl m Hm) as (x & Hx & Hxm).
      exists x. split; [right; exact Hx | exact Hxm].
    + rewrite Hadd, <- app_assoc in Hmore.
      exists ([n] ++ more). split; [exact Hmore|].
      intros m [<- | Hm].
      * exists (dir, f). split; [left; reflexivity | exact Hn].
      * destruct (Hdecl m Hm) as (x & Hx & Hxm).
        exists x. split; [right; exact Hx | exact Hxm].
Qed.

(** A declared name is recorded, or is the same value as a recorded
    one. *)
Lemma names_recorded (l : list (jsstr * (jsstr * jsstr))) :
  forall st x n,
    In x l ->
    declaredName yaml_parse (snd (snd x)) = Some n ->
    In n (allNames (fold_left step l st))
    \/ has (allNames (fold_left step l st)) n = true.
Proof.
  induction l as [|[dir f] l IH]; intros st x n Hin Hn; [contradiction|].
  simpl. destruct Hin as [<- | Hin]; [|eapply IH; eassumption].
  simpl in Hn. change (step st (dir, f)) with (checkFile yaml_parse dir f st).
  destruct (names_grow l (checkFile yaml_parse dir f st)) as (more & -> & _).
  destruct (has (allNames st) n) eqn:Hhas.
  - right. rewrite (checkFile_duplicate yaml_parse dir f st Hn Hhas).
    simpl. unfold has in *. rewrite existsb_app, Hhas. reflexivity.
  - left. destruct (checkFile_first yaml_parse dir f st Hn Hhas) as [-> _].
    apply in_or_app. left. apply in_or_app. right. left; reflexivity.
Qed.

End RecordedNameFacts.

(** X20.  At the end of a run of the consistency validator, [allNames]
    holds the names the scanned files declare and nothing else: every
    declared name is in it, or is the same value as one in it; every
    value in it is the name a scanned file declares; the values are
    truthy and no two of them are the same value. *)
Theorem all_names_recorded_once :
  forall (yaml_parse : jsstr -> result value) (w : VerifyConsistency.world),
    let names :=
      VerifyConsistency.allNames (VerifyConsistency.run yaml_parse w) in
    (forall dir f n,
        In (dir, f) (VerifyConsistency.scanned w) ->
        VerifyConsistency.declaredName yaml_parse (snd f) = Some n ->
        In n names \/ VerifyConsistency.has names n = true)
    /\ (forall n,
           In n names ->
           exists dir f,
             In (dir, f) (VerifyConsistency.scanned w)
             /\ VerifyConsistency.declaredName yaml_parse (snd f) = Some n)
    /\ ForallOrdPairs (fun a b => sameValueZero a b = false) names
    /\ Forall (fun v => truthy v = true) names.
Proof.
  intros yaml_parse w names. unfold names.
  rewrite consistency_run_scanned. split; [|split].
  - intros dir f n Hin Hn.
    apply (@names_recorded yaml_parse (VerifyConsistency.scanned w)
             VerifyConsistency.init (dir, f) n Hin Hn).
  - intros n Hin.
    destruct (names_grow yaml_parse (VerifyConsistency.scanned w)
                VerifyConsistency.init) as (more & Hmore & Hdecl).
    rewrite Hmore in Hin. simpl in Hin.
    destruct (Hdecl n Hin) as ([dir f] & Hx & Hxn).
    exists dir, f. split; assumption.
  - apply names_invariant; constructor.
Qed.

Section ConsistencyLineFacts.
Import VerifyConsistency Measure.
Variable yaml_parse : jsstr -> result value.

Lemma lacks_true (isType : bool) (fm : value) (key : jsstr) :
  lacks isType fm key = Ok true -> isType = true.
Proof. destruct isType; [reflexivity | discriminate]. Qed.

Lemma getProp_total (fm v : value) (k k' : jsstr) :
  getProp fm k = Ok v -> exists v', getProp fm k' = Ok v'.
Proof. destruct fm; simpl; try discriminate; eexists; reflexivity. Qed.

(** What the lines of one file may be. *)
Let wellFormed (dir rel : jsstr) (errors : nat) (lines : list line) : Prop :=
  List.length (filter consistencyError lines) = errors
  /\ (forall r, In (ModelRecommended r) lines ->
                dir = lit "agents" /\ r = rel)
  /\ (forall r, In (LocationRecommended r) lines ->
                dir = lit "skills" /\ r = rel).

Lemma wellFormed_plain (dir rel : jsstr) (l : line) :
  (forall r, l <> ModelRecommended r) ->
  (forall r, l <> LocationRecommended r) ->
  wellFormed dir rel (if consistencyError l then 1 else 0) [l].
Proof.
  intros H1 H2. split; [|split].
  - simpl. destruct (consistencyError l); reflexivity.
  - intros r [H | []]. exfalso. eapply H1. eassumption.
  - intros r [H | []]. exfalso. eapply H2. eassumption.
Qed.

Lemma checkFrontmatter_lines (dir rel str : jsstr) (st : state) :
  exists lines,
    log (fst (checkFrontmatter yaml_parse dir rel str st)) = log st ++ lines
    /\ errorCount (fst (checkFrontmatter yaml_parse dir rel str st))
       = (errorCount st + List.length (filter consistencyError lines))%nat
    /\ wellFormed dir rel
         (match snd (checkFrontmatter yaml_parse dir rel str st) with
          | Some _ => 0
          | None => List.length (filter consistencyError lines)
          end) lines
    /\ (List.length (filter consistencyError lines) <= 1)%nat.
Proof.
  assert (Hnone : exists lines : list line,
             log st = log st ++ lines
             /\ errorCount st
                = (errorCount st
                   + List.length (filter consistencyError lines))%nat
             /\ wellFormed dir rel 0 lines
             /\ (List.length (filter consistencyError lines) <= 1)%nat).
  { exists []. rewrite app_nil_r. simpl.
    split; [reflexivity|]. split; [lia|]. split; [|lia].
    split; [reflexivity|]. split; intros r []. }
  assert (Hone : forall l,
             consistencyError l = true ->
             (forall r, l <> ModelRecommended r) ->
             (forall r, l <> LocationRecommended r) ->
             exists lines : list line,
               log st ++ [l] = log st ++ lines
               /\ S (errorCount st)
                  = (errorCount st
                     + List.length (filter consistencyError lines))%nat
               /\ wellFormed dir rel
                    (List.length (filter consistencyError lines)) lines
               /\ (List.length (filter consistencyError lines) <= 1)%nat).
  { intros l Hl H1 H2. exists [l]. simpl. rewrite Hl. simpl.
    split; [reflexivity|]. split; [lia|]. split; [|lia].
    pose proof (wellFormed_plain dir rel H1 H2) as H.
    rewrite Hl in H. exact H. }
  unfold checkFrontmatter.
  destruct (yaml_parse str) as [fm|m]; [|exact Hnone].
  destruct (getProp fm (lit "name")) as [name|m]; [|exact Hnone].
  destruct (negb (truthy name));
    [apply Hone; [reflexivity | discriminate | discriminate]|].
  destruct (has (allNames st) name);
    [apply Hone; [reflexivity | discriminate | discriminate]|].
  destruct (missingFields fm required) as [missing|m]; [|exact Hnone].
  destruct (Nat.ltb 0 (List.length missing));
    [apply Hone; [reflexivity | discriminate | discriminate]|].
  destruct (lacks (str_eqb dir (lit "agents")) fm (lit "model"))
    as [noModel|m] eqn:Hm; [|exact Hnone].
  assert (HnoModel : noModel = true -> dir = lit "agents").
  { intros ->. apply lacks_true in Hm. apply str_eqb_eq. exact Hm. }
  destruct (lacks (str_eqb dir (lit "skills")) fm (lit "location"))
    as [noLocation|m] eqn:Hl.
  - assert (HnoLocation : noLocation = true -> dir = lit "skills").
    { intros ->. apply lacks_true in Hl. apply str_eqb_eq. exact Hl. }
    exists ((if noModel then [ModelRecommended rel] else [])
            ++ (if noLocation then [LocationRecommended rel] else [])
            ++ [Valid rel]).
    destruct noModel, noLocation; simpl; rewrite <- ?app_assoc;
      (split; [reflexivity|]); (split; [lia|]); (split; [|lia]);
      (split; [reflexivity|]); split; intros r Hin; simpl in Hin;
      repeat (destruct Hin as [Hin | Hin];
              [try discriminate; injection Hin as <-; auto|]);
      contradiction.
  - exists (if noModel then [ModelRecommended rel] else []).
    destruct noModel; simpl; rewrite ?app_nil_r;
      (split; [reflexivity|]); (split; [lia|]); (split; [|lia]);
      (split; [reflexivity|]); split; intros r Hin; simpl in Hin;
      repeat (destruct Hin as [Hin | Hin];
              [try discriminate; injection Hin as <-; auto|]);
      contradiction.
Qed.

(** The lines of one file: at most one error, counted once;
    recommendations only for the directory they belong to. *)
Lemma checkFile_lines (dir : jsstr) (f : jsstr * jsstr) (st : state) :
  exists lines,
    log (checkFile yaml_parse dir f st) = log st ++ lines
    /\ errorCount (checkFile yaml_parse dir f st)
       = (errorCount st + List.length (filter consistencyError lines))%nat
    /\ (forall r, In (ModelRecommended r) lines ->
                  dir = lit "agents" /\ r = relative [dir; fst f])
    /\ (forall r, In (LocationRecommended r) lines ->
                  dir = lit "skills" /\ r = relative [dir; fst f])
    /\ (List.length (filter consistencyError lines) <= 1)%nat.
Proof.
  unfold checkFile.
  destruct (negb (startsWith (snd f) openDelimiter)).
  { exists [MissingFrontmatter (relative [dir; fst f])]. simpl.
    split; [reflexivity|]. split; [lia|].
    split; [intros r [H | []]; discriminate|].
    split; [intros r [H | []]; discriminate | lia]. }
  destruct (indexOf (snd f) closeDelimiter 4) as [e|].
  2:{ exists [InvalidFrontmatter (relative [dir; fst f])]. simpl.
      split; [reflexivity|]. split; [lia|].
      split; [intros r [H | []]; discriminate|].
      split; [intros r [H | []]; discriminate | lia]. }
  cbv zeta.
  destruct (checkFrontmatter_lines dir (relative [dir; fst f])
              (substring (snd f) 4 e) st)
    as (lines & Hlog & Hcount & (Hn & Hmodel & Hloc) & Hle).
  destruct (checkFrontmatter yaml_parse dir (relative [dir; fst f])
              (substring (snd f) 4 e) st) as [st' [m|]]; simpl in *.
  - exists (lines ++ [Error (relative [dir; fst f]) m]).
    rewrite Hlog, Hcount, filter_app, length_app, Hn, app_assoc. simpl.
    split; [reflexivity|]. split; [lia|]. split; [|split; [|lia]].
    + intros r Hin. apply in_app_or in Hin.
      destruct Hin as [Hin | [H | []]]; [|discriminate].
      apply Hmodel. exact Hin.
    + intros r Hin. apply in_app_or in Hin.
      destruct Hin as [Hin | [H | []]]; [|discriminate].
      apply Hloc. exact Hin.
  - exists lines. split; [assumption|]. split; [assumption|].
    split; [exact Hmodel|]. split; [exact Hloc | exact Hle].
Qed.

Lemma consistency_fold_lines (l : list (jsstr * (jsstr * jsstr))) :
  forall st,
    let st' :=
      fold_left (fun s x => checkFile yaml_parse (fst x) (snd x) s) l st in
    exists lines,
      log st' = log st ++ lines
      /\ errorCount st'
         = (errorCount st + List.length (filter consistencyError lines))%nat
      /\ (forall r, In (ModelRecommended r) lines ->
                    exists name, In (lit "agents", name) (List.map (fun x => (fst x, fst (snd x))) l)
                                 /\ r = relative [lit "agents"; name])
      /\ (forall r, In (LocationRecommended r) lines ->
                    exists name, In (lit "skills", name) (List.map (fun x => (fst x, fst (snd x))) l)
                                 /\ r = relative [lit "skills"; name]).
Proof.
  induction l as [|[dir f] l IH]; intros st; simpl.
  - exists []. rewrite app_nil_r. simpl.
    split; [reflexivity|]. split; [lia|]. split; intros r [].
  - destruct (checkFile_lines dir f st)
      as (l1 & Hlog1 & Hcount1 & Hm1 & Hl1 & _).
    destruct (IH (checkFile yaml_parse dir f st))
      as (l2 & Hlog2 & Hcount2 & Hm2 & Hl2).
    exists (l1 ++ l2).
    rewrite Hlog2, Hcount2, Hlog1, Hcount1, filter_app, length_app,
      <- app_assoc.
    split; [reflexivity|]. split; [lia|]. split.
    + intros r Hin. apply in_app_or in Hin. destruct Hin as [Hin | Hin].
      * destruct (Hm1 r Hin) as [-> ->]. exists (fst f).
        split; [left; reflexivity | reflexivity].
      * destruct (Hm2 r Hin) as (name & Hname & ->). exists name.
        split; [right; exact Hname | reflexivity].
    + intros r Hin. apply in_app_or in Hin. destruct Hin as [Hin | Hin].
      * destruct (Hl1 r Hin) as [-> ->]. exists (fst f).
        split; [left; reflexivity | reflexivity].
      * destruct (Hl2 r Hin) as (name & Hname & ->). exists name.
        split; [right; exact Hname | reflexivity].
Qed.

End ConsistencyLineFacts.

(** X21.  The consistency validator counts one error for every line it
    prints with [console.error] and none for a recommendation or a
    [Valid] line; it exits with 1 exactly when it printed an error
    line. *)
Theorem consistency_counts_errors :
  forall (yaml_parse : jsstr -> result value) (w : VerifyConsistency.world),
    let st := VerifyConsistency.run yaml_parse w in
    VerifyConsistency.errorCount st
    = List.length
        (filter Measure.consistencyError (VerifyConsistency.log st))
    /\ (Measure.consistencyExitCode st = 1%nat
        <-> exists l,
            In l (VerifyConsistency.log st)
            /\ Measure.consistencyError l = true).
Proof.
  intros yaml_parse w st.
  assert (Hcount : VerifyConsistency.errorCount st
                   = List.length
                       (filter Measure.consistencyError
                          (VerifyConsistency.log st))).
  { unfold st. rewrite consistency_run_scanned.
    destruct (consistency_fold_lines yaml_parse
                (VerifyConsistency.scanned w) VerifyConsistency.init)
      as (lines & Hlog & Herr & _).
    simpl in Hlog, Herr. rewrite Hlog, Herr. reflexivity. }
  split; [exact Hcount|].
  unfold Measure.consistencyExitCode.
  rewrite exit_code_of_count, Hcount. apply filter_length_pos.
Qed.

(** X22.  The recommendation of a [model] field is printed only for a
    scanned file of the agents directory, and the recommendation of a
    [location] field only for a scanned file of the skills directory. *)
Theorem recommendations_follow_directory :
  forall (yaml_parse : jsstr -> result value) (w : VerifyConsistency.world)
         (rel : jsstr),
    let st := VerifyConsistency.run yaml_parse w in
    (In (VerifyConsistency.ModelRecommended rel) (VerifyConsistency.log st) ->
     exists name text,
       In (lit "agents", (name, text)) (VerifyConsistency.scanned w)
       /\ rel = relative [lit "agents"; name])
    /\ (In (VerifyConsistency.LocationRecommended rel)
          (VerifyConsistency.log st) ->
        exists name text,
          In (lit "skills", (name, text)) (VerifyConsistency.scanned w)
          /\ rel = relative [lit "skills"; name]).
Proof.
  intros yaml_parse w rel st. unfold st.
  rewrite consistency_run_scanned.
  destruct (consistency_fold_lines yaml_parse
              (VerifyConsistency.scanned w) VerifyConsistency.init)
    as (lines & Hlog & _ & Hmodel & Hloc).
  simpl in Hlog. rewrite Hlog.
  assert (Hback : forall dir name,
             In (dir, name)
               (List.map (fun x : jsstr * (jsstr * jsstr) =>
                            (fst x, fst (snd x)))
                  (VerifyConsistency.scanned w)) ->
             exists text, In (dir, (name, text))
                            (VerifyConsistency.scanned w)).
  { intros dir name Hin. apply in_map_iff in Hin.
    destruct Hin as ([d [n t]] & Heq & Hin). simpl in Heq.
    injection Heq as -> ->. exists t. exact Hin. }
  split; intros Hin.
  - destruct (Hmodel rel Hin) as (name & Hname & ->).
    destruct (Hback _ _ Hname) as (text & Htext). exists name, text. auto.
  - destruct (Hloc rel Hin) as (name & Hname & ->).
    destruct (Hback _ _ Hname) as (text & Htext). exists name, text. auto.
Qed.

(** X23.  The consistency validator records a name before it looks for
    missing fields: a file with a new name and no description is reported
    for the missing field and its name is kept, so that a later file that
    declares the same name is reported as a duplicate. *)
Theorem name_recorded_before_field_check :
  forall (yaml_parse : jsstr -> result value) (dir : jsstr)
         (f : jsstr * jsstr) (st : VerifyConsistency.state)
         (endDelimiter : nat) (frontmatter name description : value),
    startsWith (snd f) VerifyConsistency.openDelimiter = true ->
    indexOf (snd f) VerifyConsistency.closeDelimiter 4 = Some endDelimiter ->
    yaml_parse (substring (snd f) 4 endDelimiter) = Ok frontmatter ->
    getProp frontmatter (lit "name") = Ok name ->
    truthy name = true ->
    VerifyConsistency.has (VerifyConsistency.allNames st) name = false ->
    getProp frontmatter (lit "description") = Ok description ->
    truthy description = false ->
    let st' := VerifyConsistency.checkFile yaml_parse dir f st in
    st' = VerifyConsistency.fail (VerifyConsistency.add st name)
            (VerifyConsistency.MissingFields (relative [dir; fst f])
               [lit "description"])
    /\ forall dir' g name',
        VerifyConsistency.declaredName yaml_parse (snd g) = Some name' ->
        sameValueZero name name' = true ->
        VerifyConsistency.checkFile yaml_parse dir' g st'
        = VerifyConsistency.fail st'
            (VerifyConsistency.DuplicateName (relative [dir'; fst g]) name').
Proof.
  intros yaml_parse dir f st e fm name description Hopen He Hfm Hname
    Htruthy Hhas Hdesc Hfalsy st'.
  assert (Hst : st' = VerifyConsistency.fail (VerifyConsistency.add st name)
                        (VerifyConsistency.MissingFields
                           (relative [dir; fst f]) [lit "description"])).
  { unfold st', VerifyConsistency.checkFile,
      VerifyConsistency.checkFrontmatter.
    rewrite Hopen, He. simpl negb. cbv iota zeta.
    rewrite Hfm, Hname, Htruthy. simpl negb. cbv iota. rewrite Hhas.
    unfold VerifyConsistency.missingFields, VerifyConsistency.required,
      ValidateFrontmatter.required.
    cbn [ValidateFrontmatter.missingFields]. rewrite Hname, Hdesc.
    simpl bind. rewrite Htruthy, Hfalsy. reflexivity. }
  split; [exact Hst|].
  intros dir' g name' Hg Hsame. apply checkFile_duplicate; [exact Hg|].
  rewrite Hst. simpl. rewrite has_app, Hsame. apply orb_true_r.
Qed.

(** Witness for X23: [agents/a.md] declares a name and nothing else,
    [skills/b.md] declares the same name. *)
Lemma name_recorded_before_field_check_witness :
  let a := (lit "a.md", Sample.text "---|name: shared|---|") in
  let b := (lit "b.md", Sample.text "---|name: shared|description: x|---|") in
  let st := VerifyConsistency.checkFile Sample.yaml (lit "agents") a
              VerifyConsistency.init in
  VerifyConsistency.checkFile Sample.yaml (lit "skills") b st
  = VerifyConsistency.fail st
      (VerifyConsistency.DuplicateName (lit "skills/b.md")
         (VString (lit "shared"))).
Proof.
  intros a b st.
  refine (proj2 (@name_recorded_before_field_check Sample.yaml (lit "agents")
                   a VerifyConsistency.init 16%nat
                   (VObject [(lit "name", VString (lit "shared"))])
                   (VString (lit "shared")) VUndefined
                   _ _ _ _ _ _ _ _)
            (lit "skills") b (VString (lit "shared")) _ _);
    vm_compute; reflexivity.
Defined.

(** X24.  A file that the frontmatter validator finds valid is accepted
    by the consistency validator too, with no error counted and its name
    recorded, unless the name is already in [allNames]; only
    recommendations may come before its [Valid] line. *)
Theorem validators_agree_on_valid_files :
  forall (yaml_parse : jsstr -> result value) (dir : jsstr)
         (f : jsstr * jsstr) (st : VerifyConsistency.state) (name : value),
    ValidateFrontmatter.verdict yaml_parse (relative [dir; fst f]) (snd f)
    = ValidateFrontmatter.Valid (relative [dir; fst f]) ->
    VerifyConsistency.declaredName yaml_parse (snd f) = Some name ->
    VerifyConsistency.has (VerifyConsistency.allNames st) name = false ->
    let st' := VerifyConsistency.checkFile yaml_parse dir f st in
    VerifyConsistency.errorCount st' = VerifyConsistency.errorCount st
    /\ VerifyConsistency.allNames st'
       = VerifyConsistency.allNames st ++ [name]
    /\ exists lines,
        VerifyConsistency.log st'
        = VerifyConsistency.log st ++ lines
          ++ [VerifyConsistency.Valid (relative [dir; fst f])]
        /\ filter Measure.consistencyError lines = [].
Proof.
  intros yaml_parse dir f st name Hvalid Hdecl Hhas st'.
  apply verdict_valid_iff in Hvalid.
  destruct Hvalid as (Hopen & e & fm & n & d & He & Hfm & Hn & Hd & Htn & Htd).
  assert (Hname : name = VString n).
  { unfold VerifyConsistency.declaredName in Hdecl.
    unfold VerifyConsistency.openDelimiter,
      VerifyConsistency.closeDelimiter in Hdecl.
    rewrite Hopen, He, Hfm, Hn in Hdecl. simpl negb in Hdecl.
    cbv iota in Hdecl. rewrite (@trim_nonempty_truthy n Htn) in Hdecl.
    injection Hdecl as <-. reflexivity. }
  subst name.
  destruct fm as [| | | | | |props]; simpl in Hn; try discriminate.
  unfold st', VerifyConsistency.checkFile, VerifyConsistency.checkFrontmatter,
    VerifyConsistency.openDelimiter, VerifyConsistency.closeDelimiter.
  rewrite Hopen, He. simpl negb. cbv iota zeta. rewrite Hfm.
  change (getProp (VObject props) (lit "name"))
    with (Ok (lookup props (lit "name"))).
  injection Hn as Hn. rewrite Hn.
  rewrite (@trim_nonempty_truthy n Htn). simpl negb. cbv iota.
  rewrite Hhas.
  unfold VerifyConsistency.missingFields, VerifyConsistency.required,
    ValidateFrontmatter.required.
  cbn [ValidateFrontmatter.missingFields getProp bind].
  simpl in Hd. injection Hd as Hd. rewrite Hn, Hd.
  rewrite (@trim_nonempty_truthy n Htn), (@trim_nonempty_truthy d Htd).
  simpl negb. cbv iota. cbn [List.length Nat.ltb Nat.leb].
  unfold VerifyConsistency.lacks. cbn [getProp bind].
  destruct (str_eqb dir (lit "agents"));
    destruct (str_eqb dir (lit "skills"));
    try destruct (negb (truthy (lookup props (lit "model"))));
    try destruct (negb (truthy (lookup props (lit "location"))));
    simpl; (split; [reflexivity|]); (split; [reflexivity|]);
    rewrite <- ?app_assoc;
    first [ exists []; split; reflexivity
          | eexists [_]; split; reflexivity
          | eexists [_; _]; split; reflexivity ].
Qed.

(** Witness for X24: [commands/run.md], complete. *)
Lemma validators_agree_on_valid_files_witness :
  let f := (lit "run.md",
            Sample.text "---|name: run|description: runs|---|") in
  VerifyConsistency.errorCount
    (VerifyConsistency.checkFile Sample.yaml (lit "commands") f
       VerifyConsistency.init) = 0%nat.
Proof.
  intros f.
  refine (proj1 (@validators_agree_on_valid_files Sample.yaml
                   (lit "commands") f VerifyConsistency.init
                   (VString (lit "run")) _ _ _));
    vm_compute; reflexivity.
Defined.

(** ** The files the fixer selects *)

Section ExtnameFacts.

Lemma lastDot_none (s : jsstr) :
  ~ In 46 s -> forall pos found, lastDot s pos found = found.
Proof.
  induction s as [|c s IH]; intros Hfree pos found; simpl; [reflexivity|].
  assert ((c =? 46) = false) as ->.
  { apply N.eqb_neq. intros ->. apply Hfree. left; reflexivity. }
  apply IH. intros H. apply Hfree. right; assumption.
Qed.

Lemma lastDot_app (stem e : jsstr) :
  ~ In 46 e ->
  forall pos found,
    lastDot (stem ++ 46 :: e) pos found = Some (pos + List.length stem)%nat.
Proof.
  intros Hfree. induction stem as [|c stem IH]; intros pos found; simpl.
  - rewrite lastDot_none by assumption. f_equal. lia.
  - rewrite IH. f_equal. lia.
Qed.

(** The extension of a name that has a stem: the last dot and what
    follows. *)
Lemma extname_app (stem e : jsstr) :
  stem <> [] -> e <> [] -> ~ In 46 e ->
  extname (stem ++ 46 :: e) = 46 :: e.
Proof.
  intros Hstem He Hfree. unfold extname. rewrite lastDot_app by assumption.
  destruct stem as [|c stem]; [congruence|]. simpl Nat.add.
  assert (str_eqb ((c :: stem) ++ 46 :: e) (lit "..") = false) as ->.
  { apply str_eqb_neq. intros H.
    apply (f_equal (@List.length N)) in H.
    rewrite length_app in H. simpl in H.
    destruct e; [congruence | simpl in H; lia]. }
  change (S (List.length stem)) with (List.length (c :: stem)).
  rewrite skipn_app, skipn_all, Nat.sub_diag. reflexivity.
Qed.

(** A name with an extension is a stem that is not empty, then the
    extension. *)
Lemma extname_stem (name ext : jsstr) :
  extname name = ext -> ext <> [] ->
  exists stem, stem <> [] /\ name = stem ++ ext.
Proof.
  unfold extname. intros H Hne.
  destruct (lastDot name 0 None) as [[|i]|]; try congruence.
  destruct (str_eqb name (lit "..")); [congruence|].
  exists (firstn (S i) name). split.
  - destruct name; [simpl in H; congruence | discriminate].
  - rewrite <- H. symmetry. apply firstn_skipn.
Qed.

End ExtnameFacts.

(** X25.  The fixer's walk hands a file to the callback exactly when its
    name is a stem that is not empty followed by one of [.js], [.json],
    [.ts], [.tsx], [.jsx], [.md], [.yml], [.yaml], in lower case: a file
    named only [.md], or [README.MD], is left alone. *)
Theorem fixer_selects_by_extension :
  forall name : jsstr,
    FixIssues.selected name = true
    <-> exists stem ext,
        name = stem ++ ext
        /\ stem <> []
        /\ In ext [lit ".js"; lit ".json"; lit ".ts"; lit ".tsx";
                   lit ".jsx"; lit ".md"; lit ".yml"; lit ".yaml"].
Proof.
  intros name.
  assert (Hsel : FixIssues.selected name = true
                 <-> In (extname name)
                       [lit ".js"; lit ".json"; lit ".ts"; lit ".tsx";
                        lit ".jsx"; lit ".md"; lit ".yml"; lit ".yaml"]).
  { unfold FixIssues.selected. cbv zeta.
    rewrite !orb_true_iff, !includes_In, str_eqb_eq. simpl. intuition. }
  rewrite Hsel. split.
  - intros Hin.
    destruct (@extname_stem name (extname name) eq_refl) as (stem & Hs & Hn).
    + intros H. rewrite H in Hin. simpl in Hin.
      repeat (destruct Hin as [Hin | Hin]; [discriminate|]). exact Hin.
    + exists stem, (extname name). auto.
  - intros (stem & ext & -> & Hstem & Hin).
    assert (Hext : forall e : jsstr,
               e <> [] -> ~ In 46 e ->
               ext = 46 :: e -> extname (stem ++ ext) = ext).
    { intros e He Hfree ->. apply extname_app; assumption. }
    assert (Hsame : extname (stem ++ ext) = ext).
    { simpl in Hin.
      repeat (destruct Hin as [Hin | Hin];
              [symmetry in Hin;
               eapply Hext; [| |exact Hin];
               [discriminate | simpl; intuition discriminate]|]).
      contradiction. }
    rewrite Hsame. exact Hin.
Qed.

(** ** The credentials warning *)

Section SuspiciousFacts.
Import Regex BlockedFiles.

Lemma lang_cat_all (rs : list re) (ws : list jsstr) :
  Forall2 lang rs ws -> lang (cat rs) (List.concat ws).
Proof.
  induction 1 as [|r w rs ws Hr Hrs IH]; [constructor|].
  destruct rs as [|r' rs'].
  - inversion Hrs; subst. simpl. rewrite app_nil_r. exact Hr.
  - change (cat (r :: r' :: rs')) with (Cat r (cat (r' :: rs'))).
    simpl List.concat. constructor; assumption.
Qed.

Lemma lang_ws_run (sp : jsstr) :
  forallb isWhiteSpace sp = true -> lang (Star ws) sp.
Proof. intros H. apply lang_star_chr. exact H. Qed.

Lemma suspicious_found (r : re) (text pre mid post : jsstr) :
  In (Pattern false r false) suspiciousPatterns ->
  lang r mid ->
  text = pre ++ mid ++ post ->
  existsb (fun p => test p text) suspiciousPatterns = true.
Proof.
  intros Hin Hmid ->. apply existsb_exists.
  exists (Pattern false r false). split; [assumption|].
  apply test_unanchored. assumption.
Qed.

End SuspiciousFacts.

(** X26.  For a blocked file that can be read, the credentials warning
    is printed when the content holds, in any mix of case, one of the
    words secret, password, token, or api key or private key written
    together or joined by an underscore or a hyphen, then any white
    space, then a colon or an equals sign; the warning adds nothing to
    the counter; it is never printed for a file that is not blocked or
    cannot be read. *)
Theorem credentials_warning :
  (forall (p : path) (f : file) (st : BlockedFiles.state)
          (pre kw sp post : jsstr) (sep : N),
      BlockedFiles.isBlocked p = true ->
      readable f = true ->
      content f = pre ++ (kw ++ sp ++ [sep]) ++ post ->
      forallb isWhiteSpace sp = true ->
      sep = 58 \/ sep = 61 ->
      In (Sample.asciiLower kw) [lit "secret"; lit "password"; lit "token"]
      \/ (exists a s b,
             kw = a ++ s ++ b
             /\ In s [[]; [95]; [45]]
             /\ In (Sample.asciiLower a, Sample.asciiLower b)
                  [(lit "api", lit "key"); (lit "private", lit "key")]) ->
      BlockedFiles.callback p f st
      = (f, {| BlockedFiles.blockedCount := S (BlockedFiles.blockedCount st);
               BlockedFiles.log :=
                 BlockedFiles.log st
                 ++ [BlockedFiles.Blocked (relative p);
                     BlockedFiles.AddToGitignore;
                     BlockedFiles.ContainsCredentials] |}))
  /\ (forall (p : path) (f : file) (st : BlockedFiles.state),
         BlockedFiles.isBlocked p = false \/ readable f = false ->
         ~ In BlockedFiles.ContainsCredentials
             (BlockedFiles.log
                (snd (BlockedFiles.callback p f BlockedFiles.init)))).
Proof.
  split.
  - intros p f st pre kw sp post sep Hb Hr Hc Hsp Hsep Hkw.
    assert (Hsepl : Regex.lang (Regex.cls ":=") [sep]).
    { constructor. destruct Hsep as [-> | ->]; reflexivity. }
    assert (Hfound : existsb (fun q => Regex.test q (content f))
                       BlockedFiles.suspiciousPatterns = true).
    { destruct Hkw as [Hkw | (a & s & b & -> & Hs & Hab)].
      - assert (Hword : forall w : string,
                   Sample.asciiLower kw = lit w ->
                   In (Regex.Pattern false
                         (Regex.cat [Regex.str_i w; Regex.Star Regex.ws;
                                     Regex.cls ":="]) false)
                      BlockedFiles.suspiciousPatterns ->
                   existsb (fun q => Regex.test q (content f))
                     BlockedFiles.suspiciousPatterns = true).
        { intros w Hw Hin. eapply suspicious_found; [exact Hin | | exact Hc].
          apply (lang_cat_all
                   (rs := [Regex.str_i w; Regex.Star Regex.ws;
                           Regex.cls ":="])
                   (ws := [kw; sp; [sep]])).
          apply Forall2_cons; [apply lang_literal_i; assumption|].
          apply Forall2_cons; [apply lang_ws_run; assumption|].
          apply Forall2_cons; [exact Hsepl | apply Forall2_nil]. }
        simpl in Hkw.
        destruct Hkw as [H | [H | [H | []]]]; symmetry in H.
        + apply (Hword "secret"%string H). simpl. auto 10.
        + apply (Hword "password"%string H). simpl. auto 10.
        + apply (Hword "token"%string H). simpl. auto 10.
      - assert (Hopt : Regex.lang (Regex.opt (Regex.cls "_-")) s).
        { simpl in Hs. destruct Hs as [<- | [<- | [<- | []]]].
          - apply Regex.lang_alt_r. constructor.
          - apply Regex.lang_alt_l. constructor. reflexivity.
          - apply Regex.lang_alt_l. constructor. reflexivity. }
        assert (Hpair : forall x y : string,
                   Sample.asciiLower a = lit x ->
                   Sample.asciiLower b = lit y ->
                   In (Regex.Pattern false
                         (Regex.cat [Regex.str_i x;
                                     Regex.opt (Regex.cls "_-");
                                     Regex.str_i y; Regex.Star Regex.ws;
                                     Regex.cls ":="]) false)
                      BlockedFiles.suspiciousPatterns ->
                   existsb (fun q => Regex.test q (content f))
                     BlockedFiles.suspiciousPatterns = true).
        { intros x y Ha Hb' Hin.
          eapply suspicious_found with (pre := pre) (post := post);
            [exact Hin | |].
          - apply (lang_cat_all
                     (rs := [Regex.str_i x; Regex.opt (Regex.cls "_-");
                             Regex.str_i y; Regex.Star Regex.ws;
                             Regex.cls ":="])
                     (ws := [a; s; b; sp; [sep]])).
            apply Forall2_cons; [apply lang_literal_i; assumption|].
            apply Forall2_cons; [exact Hopt|].
            apply Forall2_cons; [apply lang_literal_i; assumption|].
            apply Forall2_cons; [apply lang_ws_run; assumption|].
            apply Forall2_cons; [exact Hsepl | apply Forall2_nil].
          - rewrite Hc. simpl List.concat.
            rewrite <- !app_assoc. reflexivity. }
        simpl in Hab.
        destruct Hab as [H | [H | []]]; injection H as Ha Hb';
          symmetry in Ha, Hb'.
        + apply (Hpair "api" "key")%string; [assumption..|simpl; auto 10].
        + apply (Hpair "private" "key")%string; [assumption..|simpl; auto 10]. }
    unfold BlockedFiles.callback, readFileSync.
    rewrite Hb, Hr, Hfound. simpl. rewrite <- app_assoc. reflexivity.
  - intros p f st [Hb | Hr]; unfold BlockedFiles.callback, readFileSync.
    + rewrite Hb. simpl. tauto.
    + destruct (BlockedFiles.isBlocked p); [|simpl; tauto].
      rewrite Hr. simpl. intuition discriminate.
Qed.

(** Witness for X26: [.env] holding [API_KEY = abc]. *)
Lemma credentials_warning_witness :
  let f := mkFile (lit "export API_KEY = abc") true true in
  BlockedFiles.callback [lit ".env"] f BlockedFiles.init
  = (f, {| BlockedFiles.blockedCount := 1;
           BlockedFiles.log :=
             [BlockedFiles.Blocked (lit ".env");
              BlockedFiles.AddToGitignore;
              BlockedFiles.ContainsCredentials] |}).
Proof.
  intros f.
  refine (proj1 credentials_warning [lit ".env"] f BlockedFiles.init
            (lit "export ") (lit "API_KEY") (lit " ") (lit " abc") 61
            _ _ _ _ _ _); try (vm_compute; reflexivity).
  - right. reflexivity.
  - right. exists (lit "API"), [95], (lit "KEY").
    split; [reflexivity|]. split; [simpl; auto|]. vm_compute. auto.
Defined.

(** X27.  In the consistency validator, a file that declares no usable
    name (no frontmatter, no end delimiter, a block that does not parse,
    a missing or falsy [name]) always counts one error and leaves
    [allNames] as it was. *)
Theorem nameless_file_is_one_error :
  forall (yaml_parse : jsstr -> result value) (dir : jsstr)
         (f : jsstr * jsstr) (st : VerifyConsistency.state),
    VerifyConsistency.declaredName yaml_parse (snd f) = None ->
    VerifyConsistency.errorCount
      (VerifyConsistency.checkFile yaml_parse dir f st)
    = S (VerifyConsistency.errorCount st)
    /\ VerifyConsistency.allNames
         (VerifyConsistency.checkFile yaml_parse dir f st)
       = VerifyConsistency.allNames st.
Proof.
  intros yaml_parse dir f st.
  unfold VerifyConsistency.declaredName, VerifyConsistency.checkFile,
    VerifyConsistency.checkFrontmatter.
  destruct (negb (startsWith (snd f) VerifyConsistency.openDelimiter));
    [intros _; split; reflexivity|].
  destruct (indexOf (snd f) VerifyConsistency.closeDelimiter 4);
    [|intros _; split; reflexivity].
  cbv zeta. destruct (yaml_parse _) as [fm|m];
    [|intros _; split; reflexivity].
  destruct (getProp fm (lit "name")) as [nm|m];
    [|intros _; split; reflexivity].
  destruct (truthy nm); [discriminate|].
  intros _. split; reflexivity.
Qed.

(** Witness for X27: a file with no frontmatter. *)
Lemma nameless_file_is_one_error_witness :
  VerifyConsistency.errorCount
    (VerifyConsistency.checkFile Sample.yaml (lit "agents")
       (lit "a.md", lit "# title") VerifyConsistency.init) = 1%nat.
Proof.
  apply (proj1 (@nameless_file_is_one_error Sample.yaml (lit "agents")
                  (lit "a.md", lit "# title") VerifyConsistency.init
                  ltac:(vm_compute; reflexivity))).
Defined.

(** Witness for X22: [agents/a.md], complete but with no [model]. *)
Lemma recommendations_follow_directory_witness :
  let text := Sample.text "---|name: a|description: x|---|" in
  let w := fun dir =>
    if str_eqb dir (lit "agents") then Some [(lit "a.md", text)] else None in
  exists name text',
    In (lit "agents", (name, text')) (VerifyConsistency.scanned w)
    /\ lit "agents/a.md" = relative [lit "agents"; name].
Proof.
  intros text w.
  apply (proj1 (@recommendations_follow_directory Sample.yaml w
                  (lit "agents/a.md"))).
  vm_compute. left; reflexivity.
Defined.
